(** * fitai asset scripts: canvas fitting, verified against the Python sources

    The repository holds two scripts, [scripts/convert_feature_graphic.py]
    and [scripts/convert_screenshots.py].  Both open an image, scale it with
    one factor so that it fits a fixed canvas, paste it centred on a
    background of one colour and save the canvas; the second script also
    runs over a directory.

    The arithmetic of the scripts is Python [float] arithmetic, that is
    IEEE 754 binary64.  It is embedded with the Standard Library's
    executable specification of binary floating point ([SpecFloat], the
    definitions of Flocq's [IEEE754.Binary]) at precision 53 and maximal
    exponent 1024, so that every concrete run can be evaluated and general
    statements are proved about the very same functions. *)

From Stdlib Require Import ZArith Lia Bool List String Ascii.
From Stdlib Require Import SpecFloat.
From stdpp Require Import base option gmap strings pretty.

Open Scope Z_scope.

(** ** Python floats *)

Module Float64.

Definition prec : Z := 53.
Definition emax : Z := 1024.

(** [float(z)] for a Python int [z]; exact for [|z| <= 2^53], which covers
    every image dimension Pillow can hold (a C int). *)
Definition of_int (z : Z) : spec_float := binary_normalize prec emax z 0 false.

(** [a * b] and [a / b] on floats (the divisor is known to be non-zero
    where [div] is called: Python raises before dividing by zero). *)
Definition mul : spec_float -> spec_float -> spec_float := SFmul prec emax.
Definition div : spec_float -> spec_float -> spec_float := SFdiv prec emax.

(** [a < b] on floats. *)
Definition ltb : spec_float -> spec_float -> bool := SFltb.

(** The builtin [min(a, b)]: it keeps the first argument unless the second
    is strictly smaller. *)
Definition min (a b : spec_float) : spec_float := if ltb b a then b else a.

(** The magnitude of a finite float truncated to an integer. *)
Definition trunc_mag (m : positive) (e : Z) : Z :=
  if 0 <=? e then Zpos m * 2 ^ e else Zpos m / 2 ^ (- e).

(** [int(f)]: truncation toward zero; [None] stands for the exception that
    Python raises on an infinity or a NaN. *)
Definition to_int (f : spec_float) : option Z :=
  match f with
  | S754_zero _ => Some 0
  | S754_finite s m e => Some (cond_Zopp s (trunc_mag m e))
  | S754_infinity _ | S754_nan => None
  end.

(** The literals of the scripts: the doubles nearest to 0.8 and 0.9
    (0x1.999999999999ap-1 and 0x1.ccccccccccccdp-1); 1.0 and 0.0. *)
Definition lit_0_8 : spec_float := S754_finite false 7205759403792794 (-53).
Definition lit_0_9 : spec_float := S754_finite false 8106479329266893 (-53).
Definition one : spec_float := S754_finite false 4503599627370496 (-52).

(** The value of a finite float, scaled by [2^1074] so that it is an
    integer for every binary64 number (the least exponent is -1074). *)
Definition unit_ : Z := 2 ^ 1074.

Definition num (f : spec_float) : Z :=
  match f with
  | S754_finite s m e => cond_Zopp s (Zpos m * 2 ^ (e + 1074))
  | _ => 0
  end.

(** A positive normal number: full 53-bit mantissa. *)
Definition normal (f : spec_float) (e : Z) : Prop :=
  exists m : positive,
    f = S754_finite false m e /\ 2 ^ 52 <= Zpos m < 2 ^ 53.

(** Where the exact quotient [N / D] lies with respect to the integer [m],
    as a [location] records it. *)
Definition loc_ok (N D m : Z) (l : location) : Prop :=
  match l with
  | loc_Exact => N = m * D
  | loc_Inexact Lt => m * D < N /\ 2 * N < (2 * m + 1) * D
  | loc_Inexact Eq => 2 * N = (2 * m + 1) * D
  | loc_Inexact Gt => (2 * m + 1) * D < 2 * N /\ N < (m + 1) * D
  end.

End Float64.

(** ** Python values: exceptions, results, strings *)

Module Py.

(** An exception: its class name and [str(e)]. *)
Inductive exn := Exn (class msg : string).

Definition exn_class (e : exn) : string := let 'Exn c _ := e in c.
Definition exn_str (e : exn) : string := let 'Exn _ m := e in m.

Inductive result (A : Type) := Ok (a : A) | Raise (e : exn).
Arguments Ok {A} a.
Arguments Raise {A} e.

#[global] Instance result_ret : MRet result := fun A a => Ok a.
#[global] Instance result_bind : MBind result := fun A B f c =>
  match c with Ok a => f a | Raise e => Raise e end.

(** [a / b] on two ints: true division (exact model for [|a|, |b| <= 2^53]). *)
Definition truediv_int (a b : Z) : result spec_float :=
  if b =? 0 then Raise (Exn "ZeroDivisionError" "division by zero")
  else Ok (Float64.div (Float64.of_int a) (Float64.of_int b)).

(** [a / b] on a float and an int. *)
Definition truediv_float (a : spec_float) (b : Z) : result spec_float :=
  if b =? 0 then Raise (Exn "ZeroDivisionError" "float division by zero")
  else Ok (Float64.div a (Float64.of_int b)).

(** [a * b] on an int and a float. *)
Definition mul_int_float (a : Z) (b : spec_float) : spec_float :=
  Float64.mul (Float64.of_int a) b.

(** [int(f)]. *)
Definition int_ (f : spec_float) : result Z :=
  match Float64.to_int f with
  | Some z => Ok z
  | None =>
      match f with
      | S754_nan => Raise (Exn "ValueError" "cannot convert float NaN to integer")
      | _ => Raise (Exn "OverflowError" "cannot convert float infinity to integer")
      end
  end.

(** [a // b] on ints, for the positive divisor the scripts use. *)
Definition floordiv (a b : Z) : Z := a / b.

(** [s.lower()] on ASCII. *)
Definition ascii_lower (c : ascii) : ascii :=
  let n := nat_of_ascii c in
  if ((65 <=? n) && (n <=? 90))%nat then ascii_of_nat (n + 32) else c.

Fixpoint lower (s : string) : string :=
  match s with
  | EmptyString => EmptyString
  | String c s' => String (ascii_lower c) (lower s')
  end.

(** [s.endswith(suffix)] and [s.endswith((s1, ..., sn))]. *)
Definition endswith (s suffix : string) : bool :=
  let n := String.length s in
  let k := String.length suffix in
  ((k <=? n)%nat && String.eqb (substring (n - k) k s) suffix).

Definition endswith_any (s : string) (suffixes : list string) : bool :=
  existsb (endswith s) suffixes.

(** The index of the last ["."] of [s]. *)
Fixpoint rfind_dot (s : string) : option nat :=
  match s with
  | EmptyString => None
  | String c s' =>
      match rfind_dot s' with
      | Some i => Some (S i)
      | None => if Ascii.eqb c "." then Some 0%nat else None
      end
  end.

(** [s.rsplit(".", 1)[0]]: what precedes the last dot, or [s] without one. *)
Definition rsplit_dot_head (s : string) : string :=
  match rfind_dot s with
  | Some i => substring 0 i s
  | None => s
  end.

(** [os.path.join(a, b)] with the POSIX separator. *)
Definition path_join (a b : string) : string :=
  if String.prefix "/" b then b
  else if String.eqb a "" || endswith a "/" then a +:+ b
  else a +:+ "/" +:+ b.

(** [repr] of a pair of ints, as an f-string prints an image size. *)
Definition repr_size (s : Z * Z) : string :=
  "(" +:+ pretty (fst s) +:+ ", " +:+ pretty (snd s) +:+ ")".

(** [repr] of a [str], as the messages of [OSError] and of Pillow quote a
    path: single quotes unless the string has a single quote and no double
    quote; the backslash, the quote and the control characters are
    escaped.  Bytes above 127 are left as they are. *)
Definition hex_digit (n : nat) : ascii :=
  match String.get n "0123456789abcdef" with
  | Some c => c
  | None => "0"%char
  end.

Definition repr_char (quote c : ascii) : string :=
  let n := nat_of_ascii c in
  if Ascii.eqb c "\" then "\\"
  else if Ascii.eqb c quote then String "\" (String c "")
  else if (n =? 10)%nat then "\n"
  else if (n =? 13)%nat then "\r"
  else if (n =? 9)%nat then "\t"
  else if ((n <? 32) || (n =? 127))%nat
  then "\x" +:+ String (hex_digit (n / 16)) (String (hex_digit (n mod 16)) "")
  else String c "".

Fixpoint has_char (c : ascii) (s : string) : bool :=
  match s with
  | EmptyString => false
  | String d s' => Ascii.eqb c d || has_char c s'
  end.

Fixpoint repr_body (quote : ascii) (s : string) : string :=
  match s with
  | EmptyString => EmptyString
  | String c s' => repr_char quote c +:+ repr_body quote s'
  end.

Definition repr_str (s : string) : string :=
  let quote :=
    if has_char "'" s && negb (has_char (ascii_of_nat 34) s)
    then ascii_of_nat 34 else "'"%char in
  String quote (repr_body quote s +:+ String quote "").

End Py.
Export Py.

(** ** [os.path], with the POSIX separator *)

Module PyPath.

(** The index of the last ["/"] of [s]. *)
Fixpoint rfind_slash (s : string) : option nat :=
  match s with
  | EmptyString => None
  | String c s' =>
      match rfind_slash s' with
      | Some i => Some (S i)
      | None => if Ascii.eqb c "/" then Some 0%nat else None
      end
  end.

(** [s == "/" * len(s)] *)
Fixpoint all_slashes (s : string) : bool :=
  match s with
  | EmptyString => true
  | String c s' => Ascii.eqb c "/" && all_slashes s'
  end.

(** [s.rstrip("/")] *)
Fixpoint rstrip_slash (s : string) : string :=
  match s with
  | EmptyString => EmptyString
  | String c s' =>
      let r := rstrip_slash s' in
      if String.eqb r "" && Ascii.eqb c "/" then EmptyString else String c r
  end.

(** [os.path.dirname(p)] of [posixpath]: what precedes the last slash,
    without its trailing slashes unless it consists of slashes. *)
Definition dirname (p : string) : string :=
  let head :=
    match rfind_slash p with
    | Some i => substring 0 (S i) p
    | None => EmptyString
    end in
  if negb (String.eqb head "") && negb (all_slashes head)
  then rstrip_slash head
  else head.

(** [os.path.basename(p)] of [posixpath]: what follows the last slash. *)
Definition basename (p : string) : string :=
  match rfind_slash p with
  | Some i => substring (S i) (String.length p - S i) p
  | None => p
  end.

(** The line feed that the literals of the scripts write as a backslash
    and an n. *)
Definition nl : string := String (ascii_of_nat 10) EmptyString.

End PyPath.
Export PyPath.

(** ** The part of Pillow that the scripts call

    Pillow is not part of the repository; what follows is the behaviour of
    [PIL.Image] (release 9.1 or later, which [Image.Resampling] requires)
    as far as the scripts depend on it.  The pixel arithmetic of colour
    conversion and of Lanczos resampling is left open as [kernels].

    The failures of the library are part of the model.  [Image.open] reads
    the header only: it raises for a path that holds nothing or is a
    directory, for a file that is not an image, for a header with a side
    below one pixel and for more than [2 * MAX_IMAGE_PIXELS] pixels; pixel
    data that do not load raise when the pixels are first needed, in
    [convert] or in [resize].  [Image.new] refuses a negative side and a
    width above [INT_MAX / 4 - 1]; [resize] refuses a side below one pixel;
    [save] needs the directory of its path.  Permissions, disk space and
    memory are not modelled: a file or a directory that exists can be read
    and written, and an image that the library accepts can be held.

    Paths are strings: [.], [..] and links are not resolved, and two
    spellings of a path are two paths, except that trailing slashes do not
    matter for whether a directory exists. *)

Module PIL.

Record image := {
  mode : string;
  size : Z * Z;
  (** the bands of the pixel in column [x], row [y] *)
  getpixel : Z -> Z -> list Z
}.

Record kernels := {
  (** the pixels of [img.convert('RGB')] *)
  rgb_pixels : image -> Z -> Z -> list Z;
  (** the pixels of [img.resize(size, Image.Resampling.LANCZOS)] when
      [size] differs from the size of [img] *)
  lanczos_pixels : image -> Z * Z -> Z -> Z -> list Z
}.

(** What a path holds: a file that decodes to an image; a file whose header
    reads as that of [img] but whose pixel data fail to load, with the
    message of the [OSError] that loading raises; or other bytes. *)
Inductive file :=
  ImageFile (img : image) | TruncatedFile (img : image) (msg : string) | OtherFile.

(** The world the scripts run in: regular files by path, directory
    listings by path (as [os.listdir] returns them), and what was printed. *)
Record world := {
  files : gmap string file;
  dirs : gmap string (list string);
  stdout : list string
}.

(** A computation: it returns or raises, and it may change the world. *)
Definition M (A : Type) : Type := world -> result A * world.

#[global] Instance M_ret : MRet M := fun A a w => (Ok a, w).
#[global] Instance M_bind : MBind M := fun A B f c w =>
  match c w with
  | (Ok a, w') => f a w'
  | (Raise e, w') => (Raise e, w')
  end.

Definition lift {A : Type} (r : result A) : M A := fun w => (r, w).

(** [try: body except Exception as e: handler(e)]; every exception of the
    model is a subclass of [Exception]. *)
Definition try_except {A : Type} (body : M A) (handler : exn -> M A) : M A :=
  fun w =>
    match body w with
    | (Ok a, w') => (Ok a, w')
    | (Raise e, w') => handler e w'
    end.

(** [for x in xs: body(x)] *)
Fixpoint for_each {A : Type} (xs : list A) (body : A -> M unit) : M unit :=
  match xs with
  | [] => mret tt
  | x :: xs' => body x;; for_each xs' body
  end.

Definition print (line : string) : M unit := fun w =>
  (Ok tt, {| files := files w; dirs := dirs w; stdout := stdout w ++ [line] |}).

(** *** Directories

    A directory is known by the paths that the listings are kept under; a
    path that differs from one of them in trailing slashes only names the
    same directory.  The current directory (the empty [dirname]) and the
    root always exist. *)

Definition same_dir (a b : string) : bool :=
  String.eqb (rstrip_slash a) (rstrip_slash b).

Definition listed (w : world) (d : string) : bool :=
  existsb (fun kv => same_dir (fst kv) d) (map_to_list (dirs w)).

Definition is_dir (w : world) (d : string) : bool :=
  all_slashes d || listed w d.

(** The listings once [path] is created: its name is entered in the
    listing of the directory through which [path] is spelled. *)
Definition add_entry (path : string) (w : world) : gmap string (list string) :=
  map_imap
    (fun key names =>
       Some (if String.eqb (path_join key (basename path)) path
                && negb (existsb (String.eqb (basename path)) names)
             then names ++ [basename path]
             else names))
    (dirs w).

(** [OSError] messages: [[Errno n] text: 'path']. *)
Definition os_error (class : string) (errno text path : string) : exn :=
  Exn class ("[Errno " +:+ errno +:+ "] " +:+ text +:+ ": " +:+ repr_str path).

(** [os.listdir(path)] *)
Definition listdir (path : string) : M (list string) := fun w =>
  match dirs w !! path with
  | Some names => (Ok names, w)
  | None =>
      match files w !! path with
      | Some _ => (Raise (os_error "NotADirectoryError" "20" "Not a directory" path), w)
      | None =>
          (Raise (os_error "FileNotFoundError" "2" "No such file or directory" path), w)
      end
  end.

(** The parents of [p], the nearest first, up to the current directory or
    the root. *)
Fixpoint parents (fuel : nat) (p : string) : list string :=
  match fuel with
  | O => []
  | S fuel' =>
      let d := dirname p in
      if all_slashes d then [] else d :: parents fuel' d
  end.

(** The directory [d] is created, empty, and entered in the listing of its
    parent. *)
Definition add_dir (d : string) (w : world) : world :=
  {| files := files w;
     dirs := <[d := []]> (add_entry d w);
     stdout := stdout w |}.

(** [os.mkdir] on [path] and, as long as the parent is missing, on the
    parents first: a directory that exists ends the climb, a regular file
    in the way ends it with an error and nothing is created. *)
Fixpoint make_dirs (leaf : bool) (path : string) (ds : list string) (w : world)
  : result world :=
  match ds with
  | [] => Ok w
  | d :: rest =>
      if is_dir w d then Ok w
      else
        match files w !! d with
        | Some _ =>
            Raise (if leaf
                   then os_error "FileExistsError" "17" "File exists" path
                   else os_error "NotADirectoryError" "20" "Not a directory" path)
        | None => w' ← make_dirs false path rest w; Ok (add_dir d w')
        end
  end.

(** [Path(path).mkdir(parents=True, exist_ok=True)]; [pathlib] drops the
    trailing slashes of [path]. *)
Definition mkdir (path : string) : M unit := fun w =>
  let p := rstrip_slash path in
  match make_dirs true p (p :: parents (String.length p) p) w with
  | Ok w' => (Ok tt, w')
  | Raise e => (Raise e, w)
  end.

(** *** Images *)

(** [2 * Image.MAX_IMAGE_PIXELS]: [Image.open] refuses a larger image as a
    decompression bomb. *)
Definition max_pixels : Z := 178956970.

(** [INT_MAX / 4 - 1]: the widest image the library allocates. *)
Definition max_width : Z := 536870910.

(** [Image.open(path)]: the header is read, the pixels are not. *)
Definition Image_open (path : string) : M image := fun w =>
  match files w !! path with
  | Some (ImageFile img) | Some (TruncatedFile img _) =>
      let '(width, height) := size img in
      if (width <? 1) || (height <? 1)
      then (Raise (Exn "UnidentifiedImageError"
                     ("cannot identify image file " +:+ repr_str path)), w)
      else if max_pixels <? width * height
      then (Raise (Exn "DecompressionBombError"
                     ("Image size (" +:+ pretty (width * height) +:+
                      " pixels) exceeds limit of " +:+ pretty max_pixels +:+
                      " pixels, could be decompression bomb DOS attack.")), w)
      else (Ok img, w)
  | Some OtherFile =>
      (Raise (Exn "UnidentifiedImageError"
                ("cannot identify image file " +:+ repr_str path)), w)
  | None =>
      if is_dir w path && negb (String.eqb path "")
      then (Raise (os_error "IsADirectoryError" "21" "Is a directory" path), w)
      else (Raise (os_error "FileNotFoundError" "2" "No such file or directory" path), w)
  end.

(** [img.load()] for the image opened from [path], which the methods that
    read pixels call first. *)
Definition load (path : string) : M unit := fun w =>
  match files w !! path with
  | Some (TruncatedFile _ msg) => (Raise (Exn "OSError" msg), w)
  | _ => (Ok tt, w)
  end.

Section Kernels.
Variable K : kernels.

(** [img.convert('RGB')] *)
Definition convert_RGB (img : image) : image :=
  {| mode := "RGB"; size := size img; getpixel := rgb_pixels K img |}.

(** [Image.new('RGB', size, color)]: a negative side is refused, and so is
    a width that the library cannot allocate.  Running out of memory for a
    narrower image depends on the machine and is not modelled. *)
Definition Image_new (sz : Z * Z) (color : Z * Z * Z) : result image :=
  if (fst sz <? 0) || (snd sz <? 0)
  then Raise (Exn "ValueError" "Width and height must be >= 0")
  else if max_width <? fst sz
  then Raise (Exn "MemoryError" "")
  else
    let '(r, g, b) := color in
    Ok {| mode := "RGB"; size := sz; getpixel := fun _ _ => [r; g; b] |}.

(** [img.resize(size, Image.Resampling.LANCZOS)] on a loaded image: a
    request for the size the image has returns a copy; a side below one
    pixel is refused. *)
Definition resize (img : image) (sz : Z * Z) : result image :=
  if (fst sz =? fst (size img)) && (snd sz =? snd (size img)) then Ok img
  else if (fst sz <? 1) || (snd sz <? 1)
  then Raise (Exn "ValueError" "height and width must be > 0")
  else Ok {| mode := mode img; size := sz; getpixel := lanczos_pixels K img sz |}.

End Kernels.

(** [canvas.paste(im, (x, y))]: the box of [im] at [(x, y)] is overwritten,
    without blending. *)
Definition paste (canvas im : image) (pos : Z * Z) : image :=
  let '(x, y) := pos in
  let '(w, h) := size im in
  {| mode := mode canvas;
     size := size canvas;
     getpixel := fun i j =>
       if (x <=? i) && (i <? x + w) && (y <=? j) && (j <? y + h)
       then getpixel im (i - x) (j - y)
       else getpixel canvas i j |}.

(** [img.save(path, 'PNG', ...)]: the file is created, or replaced, in a
    directory that exists; PNG is lossless, the file decodes to [img]. *)
Definition save (img : image) (path : string) : M unit := fun w =>
  if is_dir w path && negb (String.eqb path "")
  then (Raise (os_error "IsADirectoryError" "21" "Is a directory" path), w)
  else if is_dir w (dirname path) && negb (String.eqb path "")
  then (Ok tt, {| files := <[path := ImageFile img]> (files w);
                  dirs := add_entry path w;
                  stdout := stdout w |})
  else
    match files w !! dirname path with
    | Some _ => (Raise (os_error "NotADirectoryError" "20" "Not a directory" path), w)
    | None =>
        (Raise (os_error "FileNotFoundError" "2" "No such file or directory" path), w)
    end.

End PIL.
Export PIL.

(** ** scripts/convert_feature_graphic.py *)

Module ConvertFeatureGraphic.

(** Lines 22 to 24: the scale factor and the scaled size. *)
Definition scaled_size (img_width img_height target_width target_height : Z)
  : result (spec_float * Z * Z) :=
  a ← truediv_int target_width img_width;
  b ← truediv_int target_height img_height;
  let scale := Float64.min a b in
  new_width ← int_ (mul_int_float img_width scale);
  new_height ← int_ (mul_int_float img_height scale);
  mret (scale, new_width, new_height).

(** Lines 30 and 31: where the scaled image is pasted. *)
Definition position (target_width target_height new_width new_height : Z) : Z * Z :=
  (floordiv (target_width - new_width) 2, floordiv (target_height - new_height) 2).

Definition convert_feature_graphic (K : kernels) (input_path output_path : string)
    (target_width target_height : Z) : M unit :=
  img ← Image_open input_path;
  img ← (if String.eqb (mode img) "RGB" then mret img
         else load input_path;; mret (convert_RGB K img));
  let '(img_width, img_height) := size img in
  new_img ← lift (Image_new (target_width, target_height) (23, 20, 41));
  '(scale, new_width, new_height) ←
    lift (scaled_size img_width img_height target_width target_height);
  load input_path;;
  resized_img ← lift (resize K img (new_width, new_height));
  let '(x, y) := position target_width target_height new_width new_height in
  let new_img := paste new_img resized_img (x, y) in
  save new_img output_path;;
  print ("Converted image size: " +:+ repr_size (size new_img)).

End ConvertFeatureGraphic.

(** ** scripts/convert_screenshots.py *)

Module ConvertScreenshots.

(** Lines 22 to 24: the scale factor and the scaled size. *)
Definition scaled_size (img_width img_height target_width target_height : Z)
  : result (spec_float * Z * Z) :=
  a ← truediv_float (mul_int_float target_width Float64.lit_0_8) img_width;
  b ← truediv_float (mul_int_float target_height Float64.lit_0_9) img_height;
  let scale := Float64.min a b in
  new_width ← int_ (mul_int_float img_width scale);
  new_height ← int_ (mul_int_float img_height scale);
  mret (scale, new_width, new_height).

(** Lines 30 and 31: where the scaled image is pasted. *)
Definition position (target_width target_height new_width new_height : Z) : Z * Z :=
  (floordiv (target_width - new_width) 2, floordiv (target_height - new_height) 2).

Definition create_tablet_screenshot (K : kernels) (input_path output_path : string)
    (target_width target_height : Z) : M unit :=
  img ← Image_open input_path;
  img ← (if String.eqb (mode img) "RGB" then mret img
         else load input_path;; mret (convert_RGB K img));
  let '(img_width, img_height) := size img in
  new_img ← lift (Image_new (target_width, target_height) (23, 20, 41));
  '(scale, new_width, new_height) ←
    lift (scaled_size img_width img_height target_width target_height);
  load input_path;;
  resized_img ← lift (resize K img (new_width, new_height));
  let '(x, y) := position target_width target_height new_width new_height in
  let new_img := paste new_img resized_img (x, y) in
  save new_img output_path.

(** Line 48: the names the batch takes for images. *)
Definition is_image_name (filename : string) : bool :=
  endswith_any (lower filename) [".png"; ".jpg"; ".jpeg"]%string.

(** Line 50: where the converted file goes. *)
Definition output_path_of (output_folder filename : string) : string :=
  path_join output_folder ("tablet_" +:+ rsplit_dot_head filename +:+ ".png").

(** Lines 48 to 57: the body of the loop for one name. *)
Definition process_one (K : kernels) (input_folder output_folder filename : string)
  : M unit :=
  if is_image_name filename then
    let input_path := path_join input_folder filename in
    let output_path := output_path_of output_folder filename in
    try_except
      (print ("Converting " +:+ filename +:+ "...");;
       create_tablet_screenshot K input_path output_path 1920 1080;;
       print ("Successfully converted " +:+ filename))
      (fun e => print ("Error converting " +:+ filename +:+ ": " +:+ exn_str e))
  else mret tt.

Definition process_screenshots (K : kernels) (input_folder output_folder : string)
  : M unit :=
  mkdir output_folder;;
  names ← listdir input_folder;
  for_each names (process_one K input_folder output_folder).

End ConvertScreenshots.

(** ** The formula of the specification *)

Module Spec.

(** Section 4.1: [scale = min(targetWidth * fillX / srcWidth,
    targetHeight * fillY / srcHeight)], then the scaled size truncated to
    integers; the fill fractions are floats. *)
Definition fit (fillX fillY : spec_float)
    (srcWidth srcHeight targetWidth targetHeight : Z)
  : result (spec_float * Z * Z) :=
  a ← truediv_float (mul_int_float targetWidth fillX) srcWidth;
  b ← truediv_float (mul_int_float targetHeight fillY) srcHeight;
  let scale := Float64.min a b in
  scaledWidth ← int_ (mul_int_float srcWidth scale);
  scaledHeight ← int_ (mul_int_float srcHeight scale);
  mret (scale, scaledWidth, scaledHeight).

End Spec.

(** ** What a run is observed to do *)

Module Observe.

(** A side that the arithmetic of the scripts is studied for: a positive C
    int.  What [Image.open] and [Image.new] accept is narrower, see
    [source_ok] and [canvas_ok]. *)
Definition dim_ok (n : Z) : Prop := 0 < n < 2 ^ 31.

(** The image the scripts work on after line 13. *)
Definition as_rgb (K : kernels) (img : image) : image :=
  if String.eqb (mode img) "RGB" then img else convert_RGB K img.

(** [Image.new] on a machine that can hold a canvas of any width: only a
    negative side is refused. *)
Definition blank_canvas (sz : Z * Z) (color : Z * Z * Z) : result image :=
  if (fst sz <? 0) || (snd sz <? 0)
  then Raise (Exn "ValueError" "Width and height must be >= 0")
  else
    let '(r, g, b) := color in
    Ok {| mode := "RGB"; size := sz; getpixel := fun _ _ => [r; g; b] |}.

(** Lines 16 to 34 on a decoded image, for either script, on such a
    machine: the canvas that is saved, or the exception that is raised.
    [scaled_size] and [position] are those of the script.  For a file that
    [Image.open] accepts and a width that the library allocates this is
    what the run computes ([canvas_from], lemma [canvas_from_of]). *)
Definition canvas_of (K : kernels)
    (scaled_size : Z -> Z -> Z -> Z -> result (spec_float * Z * Z))
    (position : Z -> Z -> Z -> Z -> Z * Z)
    (img : image) (target_width target_height : Z) : result image :=
  let img := as_rgb K img in
  new_img ← blank_canvas (target_width, target_height) (23, 20, 41);
  '(scale, new_width, new_height) ←
    scaled_size (fst (size img)) (snd (size img)) target_width target_height;
  resized_img ← resize K img (new_width, new_height);
  mret (paste new_img resized_img
          (position target_width target_height new_width new_height)).

(** Lines 10 to 34 of either script on the file at [path]: the canvas that
    is handed to [save], or the exception that is raised before. *)
Definition canvas_from (K : kernels)
    (scaled_size : Z -> Z -> Z -> Z -> result (spec_float * Z * Z))
    (position : Z -> Z -> Z -> Z -> Z * Z)
    (w : world) (path : string) (target_width target_height : Z) : result image :=
  img ← fst (Image_open path w);
  img ← (if String.eqb (mode img) "RGB" then Ok img
         else fst (load path w);; Ok (convert_RGB K img));
  new_img ← Image_new (target_width, target_height) (23, 20, 41);
  '(scale, new_width, new_height) ←
    scaled_size (fst (size img)) (snd (size img)) target_width target_height;
  fst (load path w);;
  resized_img ← resize K img (new_width, new_height);
  mret (paste new_img resized_img
          (position target_width target_height new_width new_height)).

(** A source that [Image.open] accepts: both sides of at least one pixel
    and no more pixels than the limit. *)
Definition source_ok (img : image) : Prop :=
  1 <= fst (size img) /\ 1 <= snd (size img) /\
  fst (size img) * snd (size img) <= max_pixels.

(** A canvas with positive sides that the library can allocate and that
    [Image.open] accepts again once it is saved.  That the machine has the
    memory for it is taken for granted. *)
Definition canvas_ok (target_width target_height : Z) : Prop :=
  0 < target_width /\ 0 < target_height /\
  target_width * target_height <= max_pixels.

(** [save] can create the file: the path is not a directory and its
    directory exists. *)
Definition can_save (w : world) (path : string) : Prop :=
  is_dir w path = false /\ is_dir w (dirname path) = true.



(** The path is a directory of the world and holds no regular file. *)
Definition made (w : world) (path : string) : Prop :=
  files w !! path = None /\ is_Some (dirs w !! path).


(** The lines of the batch that report a failure. *)
Definition is_error_line (line : string) : bool :=
  String.prefix "Error converting " line.

(** A kernel to run the model on concrete inputs: nearest neighbour, and
    the first three bands.  No statement depends on this choice. *)
Definition sample_kernels : kernels :=
  {| rgb_pixels := fun img x y => firstn 3 (getpixel img x y);
     lanczos_pixels := fun img sz x y =>
       getpixel img (x * fst (size img) / fst sz) (y * snd (size img) / snd sz) |}.

(** An image of one colour, to build concrete worlds. *)
Definition plain (m : string) (sz : Z * Z) : image :=
  {| mode := m; size := sz; getpixel := fun _ _ => [0; 0; 0] |}.


(** A world with the given files and directory listings, and nothing
    printed yet. *)
Definition world_of (fs : list (string * file)) (ds : list (string * list string))
  : world :=
  {| files := list_to_map fs; dirs := list_to_map ds; stdout := [] |}.

(** What the tablet script makes of the file at [path]: the canvas it would
    save, or the exception it would raise. *)
Definition converts (K : kernels) (w : world) (path : string) : result image :=
  canvas_from K ConvertScreenshots.scaled_size ConvertScreenshots.position
    w path 1920 1080.

(** What the tablet script does with the file at [input_path] when the
    canvas is to be saved at [output_path]: the canvas that it saves, or the
    exception that it raises. *)
Definition attempt (K : kernels) (w : world) (input_path output_path : string)
  : result image :=
  c ← converts K w input_path;
  fst (save c output_path w);;
  Ok c.


(** The lines a batch prints for a listing: every image name is announced,
    in the order of the listing, and is followed by one line that reports
    its success or its failure; other names print nothing. *)
Inductive batch_log : list string -> list string -> Prop :=
| log_done : batch_log [] []
| log_skip filename names lines :
    ConvertScreenshots.is_image_name filename = false ->
    batch_log names lines ->
    batch_log (filename :: names) lines
| log_success filename names lines :
    ConvertScreenshots.is_image_name filename = true ->
    batch_log names lines ->
    batch_log (filename :: names)
      (("Converting " +:+ filename +:+ "...")
         :: ("Successfully converted " +:+ filename) :: lines)
| log_failure filename msg names lines :
    ConvertScreenshots.is_image_name filename = true ->
    batch_log names lines ->
    batch_log (filename :: names)
      (("Converting " +:+ filename +:+ "...")
         :: ("Error converting " +:+ filename +:+ ": " +:+ msg) :: lines).






(** A folder with two screenshots of different stems and a file that is
    not an image. *)
Definition three_files_world : world :=
  world_of
    [("in/a.png"%string, ImageFile (plain "RGB" (1080, 2400)));
     ("in/b.jpg"%string, ImageFile (plain "RGB" (1080, 2400)));
     ("in/bad.png"%string, OtherFile)]
    [("in"%string, ["a.png"; "bad.png"; "b.jpg"]%string)].

(** A folder with one screenshot, where the path of the output folder holds
    a regular file. *)
Definition blocked_world : world :=
  world_of
    [("in/a.png"%string, ImageFile (plain "RGB" (1080, 2400)));
     ("out"%string, OtherFile)]
    [("in"%string, ["a.png"]%string)].

(** Concrete inputs: a landscape picture, a phone screenshot, a sliver one
    pixel wide, and worlds that hold one of them at ["in.png"]. *)
Definition landscape : image := plain "RGB" (2000, 1000).
Definition phone_shot : image := plain "RGB" (1080, 2400).
Definition sliver : image := plain "RGB" (1, 10000).
Definition world_with (img : image) : world :=
  world_of [("in.png"%string, ImageFile img)] [].

End Observe.
Export Observe.

(** ** What the proofs keep track of *)

Module Invariant.
Import Float64.

(** The quotient [a] computed for one axis: [t] is the target side, [s] the
    source side and [p / q] the fill fraction.  [a] is a normal number
    within [2^-53] of [X / s], where [X] is the numerator as computed,
    itself within [2^-51] of [(p / q) * t]. *)
Definition axis_facts (p q t s : Z) (a : spec_float) : Prop :=
  exists ea X,
    normal a ea /\ -200 <= ea <= 200 /\
    2 ^ 53 * Z.abs (num a * s - X) <= X /\
    (2 ^ 51 - 1) * (p * t * unit_) <= q * X * 2 ^ 51 /\
    q * X * 2 ^ 51 <= (2 ^ 51 + 1) * (p * t * unit_).

(** Lines 23 and 24 of either script, once the scale is known. *)
Definition scaled_by (scale : spec_float) (img_width img_height : Z)
  : result (spec_float * Z * Z) :=
  new_width ← int_ (mul_int_float img_width scale);
  new_height ← int_ (mul_int_float img_height scale);
  mret (scale, new_width, new_height).

End Invariant.
Export Invariant.

(** ** The [__main__] blocks *)

(** The [__main__] block of scripts/convert_feature_graphic.py, lines 40 to
    71; [main_body] is the block with the literal of line 42 as an
    argument. *)
Module FeatureGraphicMain.
Import ConvertFeatureGraphic.

Definition input_path : string :=
  "C:\Users\sharm\Downloads\DALL·E 2025-03-27 10.25.21 - A sleek and modern fitness app feature graphic with a minimalist design. The background transitions from deep navy blue to rich purple, creating a pre (1).png".

Definition verified_line : string :=
  "✓ Image meets Google Play Store requirements".

Definition warning_line : string :=
  "⚠ Warning: Image dimensions do not match requirements".

Definition main_body (K : kernels) (input_path : string) : M unit :=
  let output_dir := dirname input_path in
  let output_path := path_join output_dir "feature_graphic_1024x500.png" in
  print "Feature Graphic Converter for Google Play Store";;
  print "---------------------------------------------";;
  print ("1. Converting image: " +:+ basename input_path);;
  print ("2. Output will be saved as: " +:+ basename output_path);;
  print "3. Converting...";;
  try_except
    (convert_feature_graphic K input_path output_path 1024 500;;
     print (nl +:+ "Conversion complete!");;
     print ("Check the file: " +:+ output_path);;
     img ← Image_open output_path;
     let '(width, height) := size img in
     print (nl +:+ "Verification:");;
     print "Required dimensions: 1024x500";;
     print ("Actual dimensions: " +:+ pretty width +:+ "x" +:+ pretty height);;
     if (width =? 1024) && (height =? 500)
     then print verified_line
     else print warning_line)
    (fun e => print (nl +:+ "Error: " +:+ exn_str e)).

Definition main (K : kernels) : M unit := main_body K input_path.

End FeatureGraphicMain.

(** The [__main__] block of scripts/convert_screenshots.py, lines 59 to 73;
    [main_body] is the block with the literal of line 61 as an argument. *)
Module ScreenshotsMain.
Import ConvertScreenshots.

Definition input_folder : string :=
  "C:\Users\sharm\OneDrive\Desktop\app".

Definition main_body (K : kernels) (input_folder : string) : M unit :=
  let output_folder := path_join input_folder "tablet_screenshots" in
  print "Screenshot Converter for Google Play Store";;
  print "----------------------------------------";;
  print ("1. Reading screenshots from: " +:+ input_folder);;
  print ("2. Converted images will be saved in: " +:+ output_folder);;
  print "3. Converting...";;
  process_screenshots K input_folder output_folder;;
  print (nl +:+ "Conversion complete!");;
  print ("Check the folder: " +:+ output_folder +:+ " for your converted images.").

Definition main (K : kernels) : M unit := main_body K input_folder.

End ScreenshotsMain.

(** ** What the further properties speak of *)

Module Observe2.

(** A name of a listing: [os.listdir] returns no name with a slash. *)
Fixpoint has_slash (s : string) : bool :=
  match s with
  | EmptyString => false
  | String c s' => Ascii.eqb c "/" || has_slash s'
  end.

(** An extension that line 48 takes for an image, whatever its case. *)
Definition image_ext (ext : string) : Prop :=
  lower ext = ".png"%string \/ lower ext = ".jpg"%string \/ lower ext = ".jpeg"%string.

(** The background that both scripts fill the canvas with. *)
Definition background : list Z := [23; 20; 41].

(** The pixel [(i, j)] lies in the box of width [w] and height [h] whose
    corner is [(x, y)]. *)
Definition in_box (x y w h i j : Z) : bool :=
  (x <=? i) && (i <? x + w) && (y <=? j) && (j <? y + h).

(** What [os.path.join(a, b)] puts before a [b] that does not begin with a
    slash. *)
Definition join_prefix (a : string) : string :=
  if String.eqb a "" || endswith a "/" then a else a +:+ "/".


(** What the [__main__] block of the feature-graphic script prints: its
    five lines before the conversion; after a conversion that returned, the
    line of the conversion itself and the six lines of the report; after an
    exception, one line. *)
Definition feature_header (input_path : string) : list string :=
  ["Feature Graphic Converter for Google Play Store";
   "---------------------------------------------";
   "1. Converting image: " +:+ basename input_path;
   "2. Output will be saved as: feature_graphic_1024x500.png";
   "3. Converting..."]%string.

Definition feature_report (output_path : string) : list string :=
  ["Converted image size: (1024, 500)";
   nl +:+ "Conversion complete!";
   "Check the file: " +:+ output_path;
   nl +:+ "Verification:";
   "Required dimensions: 1024x500";
   "Actual dimensions: 1024x500";
   FeatureGraphicMain.verified_line]%string.

Definition feature_failure (e : exn) : list string :=
  [nl +:+ "Error: " +:+ exn_str e]%string.

End Observe2.
Export Observe2.


(** An absolute value in the goal is split into its two cases. *)
Ltac abs_nia :=
  match goal with
  | |- context [Z.abs ?x] =>
      let H := fresh in
      destruct (Z.abs_spec x) as [[? H] | [? H]]; rewrite H; clear H
  end; nia.

(** * Facts about the float arithmetic *)

Module Float64Facts.
Import Float64.

Example lit_0_8_nearest : div (of_int 4) (of_int 5) = lit_0_8.
Proof. vm_compute. reflexivity. Qed.

Example lit_0_9_nearest : div (of_int 9) (of_int 10) = lit_0_9.
Proof. vm_compute. reflexivity. Qed.

Example one_of_int : of_int 1 = one.
Proof. vm_compute. reflexivity. Qed.

(** *** Binary digits *)

Lemma digits2_bounds (p : positive) :
  2 ^ (Zpos (digits2_pos p) - 1) <= Zpos p < 2 ^ Zpos (digits2_pos p).
Proof.
  induction p as [p IH | p IH | ]; cbn [digits2_pos].
  - rewrite Pos2Z.inj_succ.
    replace (Z.succ (Zpos (digits2_pos p)) - 1) with (Z.succ (Zpos (digits2_pos p) - 1)) by lia.
    rewrite 2 Z.pow_succ_r; lia.
  - rewrite Pos2Z.inj_succ.
    replace (Z.succ (Zpos (digits2_pos p)) - 1) with (Z.succ (Zpos (digits2_pos p) - 1)) by lia.
    rewrite 2 Z.pow_succ_r; lia.
  - cbn. lia.
Qed.

Lemma digits2_unique (p : positive) (d : Z) :
  2 ^ (d - 1) <= Zpos p < 2 ^ d -> Zpos (digits2_pos p) = d.
Proof.
  intros [Hlo Hhi].
  pose proof (digits2_bounds p) as [Blo Bhi].
  assert (Hd : 0 < d).
  { destruct (Z_lt_le_dec 0 d) as [|Hn]; [assumption|].
    destruct (Z.eq_dec d 0) as [->|Hne].
    - cbn in Hhi. lia.
    - rewrite (Z.pow_neg_r 2 d) in Hhi by lia. lia. }
  destruct (Z_lt_le_dec (Zpos (digits2_pos p)) d) as [Hlt|Hge].
  - assert (2 ^ Zpos (digits2_pos p) <= 2 ^ (d - 1))
      by (apply Z.pow_le_mono_r; lia). lia.
  - destruct (Z.eq_dec (Zpos (digits2_pos p)) d) as [|Hne]; [assumption|].
    assert (2 ^ d <= 2 ^ (Zpos (digits2_pos p) - 1))
      by (apply Z.pow_le_mono_r; lia). lia.
Qed.

(** *** Shifting a mantissa right keeps track of the discarded bits *)

Lemma loc_ok_bounds N D m l :
  0 < D -> loc_ok N D m l -> m * D <= N < (m + 1) * D.
Proof.
  intros HD H. destruct l as [|[| |]]; cbn in H; nia.
Qed.

Lemma shr_1_loc N D mrs :
  0 < D -> 0 <= shr_m mrs ->
  loc_ok N D (shr_m mrs) (loc_of_shr_record mrs) ->
  0 <= shr_m (shr_1 mrs) /\
  loc_ok N (2 * D) (shr_m (shr_1 mrs)) (loc_of_shr_record (shr_1 mrs)).
Proof.
  intros HD Hm H. destruct mrs as [m r s]. cbn in Hm.
  destruct m as [|[p|p|]|p]; try lia;
    destruct r, s; cbn in H |- *; split; try lia; try nia.
Qed.

Lemma shr_iter_loc (n : positive) : forall N D mrs,
  0 < D -> 0 <= shr_m mrs ->
  loc_ok N D (shr_m mrs) (loc_of_shr_record mrs) ->
  0 <= shr_m (SpecFloat.iter_pos shr_1 n mrs) /\
  loc_ok N (2 ^ Zpos n * D) (shr_m (SpecFloat.iter_pos shr_1 n mrs))
         (loc_of_shr_record (SpecFloat.iter_pos shr_1 n mrs)).
Proof.
  induction n as [n IH | n IH | ]; intros N D mrs HD Hm H; cbn [SpecFloat.iter_pos].
  - destruct (shr_1_loc N D mrs HD Hm H) as [Hm1 H1].
    assert (HD1 : 0 < 2 * D) by lia.
    destruct (IH N (2 * D) _ HD1 Hm1 H1) as [Hm2 H2].
    assert (HD2 : 0 < 2 ^ Zpos n * (2 * D)) by (apply Z.mul_pos_pos; [apply Z.pow_pos_nonneg|]; lia).
    destruct (IH N _ _ HD2 Hm2 H2) as [Hm3 H3].
    split; [assumption|].
    replace (2 ^ Zpos n~1 * D) with (2 ^ Zpos n * (2 ^ Zpos n * (2 * D))); [assumption|].
    replace (Zpos n~1) with (Zpos n + Zpos n + 1) by lia.
    rewrite 2 Z.pow_add_r by lia. change (2 ^ 1) with 2. ring.
  - destruct (IH N D _ HD Hm H) as [Hm2 H2].
    assert (HD2 : 0 < 2 ^ Zpos n * D) by (apply Z.mul_pos_pos; [apply Z.pow_pos_nonneg|]; lia).
    destruct (IH N _ _ HD2 Hm2 H2) as [Hm3 H3].
    split; [assumption|].
    replace (2 ^ Zpos n~0 * D) with (2 ^ Zpos n * (2 ^ Zpos n * D)); [assumption|].
    replace (Zpos n~0) with (Zpos n + Zpos n) by lia.
    rewrite Z.pow_add_r by lia. ring.
  - change (2 ^ 1) with 2. apply shr_1_loc; assumption.
Qed.

Lemma shr_loc N D mrs e k :
  0 < D -> 0 <= k -> 0 <= shr_m mrs ->
  loc_ok N D (shr_m mrs) (loc_of_shr_record mrs) ->
  snd (shr mrs e k) = e + k /\
  0 <= shr_m (fst (shr mrs e k)) /\
  loc_ok N (2 ^ k * D) (shr_m (fst (shr mrs e k)))
         (loc_of_shr_record (fst (shr mrs e k))).
Proof.
  intros HD Hk Hm H. destruct k as [|n|n]; try lia; cbn [shr fst snd].
  - change (2 ^ 0) with 1. rewrite Z.mul_1_l. repeat split; try assumption; lia.
  - destruct (shr_iter_loc n N D mrs HD Hm H). repeat split; assumption.
Qed.

Lemma loc_of_record_of_loc m l :
  loc_of_shr_record (shr_record_of_loc m l) = l /\
  shr_m (shr_record_of_loc m l) = m.
Proof. destruct l as [|[| |]]; split; reflexivity. Qed.

Lemma round_nearest_even_loc N D m l :
  0 < D -> loc_ok N D m l ->
  m <= round_nearest_even m l <= m + 1 /\
  2 * Z.abs (round_nearest_even m l * D - N) <= D /\
  (N = m * D -> round_nearest_even m l = m).
Proof.
  intros HD H. destruct l as [|[| |]]; cbn in H |- *;
    try destruct (Z.even m); repeat split; try lia; try nia; abs_nia.
Qed.

(** *** Rounding to nearest-even in the normal range *)

Lemma fexp_normal (d e : Z) :
  -1074 <= d + e - 53 -> fexp prec emax (d + e) - e = d - 53.
Proof. unfold fexp, emin, prec, emax. lia. Qed.

Lemma pow2_pos (k : Z) : 0 <= k -> 0 < 2 ^ k.
Proof. intros. apply Z.pow_pos_nonneg; lia. Qed.

Lemma binary_round_aux_nearest (mx ex : Z) (lx : location) (N D k : Z) :
  0 < D -> 0 <= k ->
  2 ^ (52 + k) <= mx < 2 ^ (53 + k) ->
  loc_ok N D mx lx ->
  -1074 <= ex + k <= 970 ->
  exists (m : positive) (e : Z),
    binary_round_aux prec emax false mx ex lx = S754_finite false m e /\
    2 ^ 52 <= Zpos m < 2 ^ 53 /\
    (e = ex + k \/ e = ex + k + 1) /\
    2 * Z.abs (Zpos m * 2 ^ (e - ex) * D - N) <= 2 ^ k * D.
Proof.
  intros HD Hk Hmx Hloc Hex.
  pose proof (pow2_pos k Hk) as HPk.
  assert (H52 : 2 ^ (52 + k) = 2 ^ 52 * 2 ^ k) by (apply Z.pow_add_r; lia).
  assert (H53 : 2 ^ (53 + k) = 2 ^ 53 * 2 ^ k) by (apply Z.pow_add_r; lia).
  assert (Hpos : 0 < mx) by (pose proof (pow2_pos (52 + k)); lia).
  destruct mx as [|p|p]; try lia.
  assert (Hd : Zpos (digits2_pos p) = 53 + k).
  { apply digits2_unique. replace (53 + k - 1) with (52 + k) by lia. assumption. }
  unfold binary_round_aux, shr_fexp.
  cbn [Zdigits2]. rewrite Hd.
  rewrite (fexp_normal (53 + k) ex) by lia.
  replace (53 + k - 53) with k by lia.
  destruct (loc_of_record_of_loc (Zpos p) lx) as [Hl Hm].
  destruct (shr_loc N D (shr_record_of_loc (Zpos p) lx) ex k HD Hk) as (He' & Hm1 & Hloc1).
  { rewrite Hm. lia. }
  { rewrite Hl, Hm. assumption. }
  destruct (shr (shr_record_of_loc (Zpos p) lx) ex k) as [mrs' e'].
  cbn [fst snd] in He', Hm1, Hloc1. subst e'.
  set (m1 := shr_m mrs') in *.
  set (l1 := loc_of_shr_record mrs') in *.
  assert (HD1 : 0 < 2 ^ k * D) by nia.
  pose proof (loc_ok_bounds _ _ _ _ HD Hloc) as Hb.
  pose proof (loc_ok_bounds _ _ _ _ HD1 Hloc1) as Hb1.
  assert (Hm1r : 2 ^ 52 <= m1 < 2 ^ 53).
  { rewrite H52, H53 in Hmx. split; nia. }
  destruct (round_nearest_even_loc N (2 ^ k * D) m1 l1 HD1 Hloc1) as (Hr & Herr & _).
  set (m2 := round_nearest_even m1 l1) in *.
  destruct (Z_lt_le_dec m2 (2 ^ 53)) as [Hlt|Hge].
  - destruct m2 as [|q|q] eqn:Eq2; try lia.
    assert (Hdq : Zpos (digits2_pos q) = 53).
    { apply digits2_unique. change (53 - 1) with 52. lia. }
    cbn [Zdigits2]. rewrite Hdq.
    rewrite (fexp_normal 53 (ex + k)) by lia.
    change (53 - 53) with 0. cbn [shr shr_record_of_loc shr_m].
    replace (ex + k <=? emax - prec) with true
      by (symmetry; apply Z.leb_le; unfold emax, prec; lia).
    exists q, (ex + k). repeat split; try lia.
    replace (ex + k - ex) with k by lia.
    replace (Zpos q * 2 ^ k * D) with (Zpos q * (2 ^ k * D)) by ring.
    exact Herr.
  - assert (E2 : m2 = 2 ^ 53) by lia.
    rewrite E2 in *.
    change (Zdigits2 (2 ^ 53)) with 54.
    rewrite (fexp_normal 54 (ex + k)) by lia.
    change (54 - 53) with 1.
    change (2 ^ 53) with 9007199254740992 at 1.
    cbn [shr shr_record_of_loc shr_m SpecFloat.iter_pos shr_1 orb].
    replace (ex + k + 1 <=? emax - prec) with true
      by (symmetry; apply Z.leb_le; unfold emax, prec; lia).
    eexists _, (ex + k + 1). split; [reflexivity|].
    split; [cbn; lia|]. split; [lia|].
    replace (ex + k + 1 - ex) with (k + 1) by lia.
    rewrite Z.pow_add_r by lia. change (2 ^ 1) with 2.
    match goal with |- context [Zpos ?c * (2 ^ k * 2) * D] =>
      replace (Zpos c * (2 ^ k * 2) * D) with (2 ^ 53 * (2 ^ k * D)) by (change (2 ^ 53) with 9007199254740992; ring) end.
    exact Herr.
Qed.

(** *** The operations on positive normal numbers *)

Lemma unit_pos : 0 < unit_.
Proof. unfold unit_. apply pow2_pos. lia. Qed.

Lemma normal_num f e :
  normal f e -> -1074 <= e -> 2 ^ 52 * 2 ^ (e + 1074) <= num f < 2 ^ 53 * 2 ^ (e + 1074).
Proof.
  intros (m & -> & Hm) He. cbn [num cond_Zopp].
  pose proof (pow2_pos (e + 1074)). nia.
Qed.

Lemma normal_num_pos f e : normal f e -> -1074 <= e -> 0 < num f.
Proof.
  intros Hn He. pose proof (normal_num f e Hn He).
  pose proof (pow2_pos (e + 1074)). nia.
Qed.

Lemma iter_xO_pow (p d : positive) : Zpos (Pos.iter xO p d) = Zpos p * 2 ^ Zpos d.
Proof.
  change (Pos.iter xO p d) with (shift_pos d p).
  rewrite shift_pos_correct. change (Z.pow_pos 2 d) with (2 ^ Zpos d). ring.
Qed.

(** [float(z)] is exact up to [2^53]. *)
Lemma of_int_spec (z : Z) :
  0 < z < 2 ^ 53 ->
  exists e, normal (of_int z) e /\ -52 <= e <= 0 /\ num (of_int z) = z * unit_.
Proof.
  intros Hz. destruct z as [|p|p]; try lia.
  unfold of_int, binary_normalize, binary_round.
  pose proof (digits2_bounds p) as Hd.
  set (d := Zpos (digits2_pos p)) in *.
  assert (Hd53 : 1 <= d <= 53).
  { split; [subst d; lia|].
    destruct (Z_lt_le_dec 53 d) as [Hgt|]; [|assumption].
    assert (2 ^ 53 <= 2 ^ (d - 1)) by (apply Z.pow_le_mono_r; lia). lia. }
  assert (Hf : fexp prec emax (d + 0) = d - 53) by (unfold fexp, emin, prec, emax; lia).
  rewrite Hf.
  assert (Hal : exists mz, shl_align p 0 (d - 53) = (mz, d - 53) /\
                           Zpos mz = Zpos p * 2 ^ (53 - d)).
  { unfold shl_align. rewrite Z.sub_0_r.
    destruct (d - 53) as [|q|q] eqn:E; try lia.
    - exists p. split; [reflexivity|]. replace (53 - d) with 0 by lia. 
      change (2 ^ 0) with 1. lia.
    - exists (Pos.iter xO p q). split; [reflexivity|].
      rewrite iter_xO_pow. replace (53 - d) with (Zpos q) by lia. reflexivity. }
  destruct Hal as (mz & -> & Hmz).
  assert (Hsplit : 2 ^ (d - 1) * 2 ^ (53 - d) = 2 ^ 52 /\ 2 ^ d * 2 ^ (53 - d) = 2 ^ 53).
  { rewrite <- !Z.pow_add_r by lia. split; f_equal; lia. }
  pose proof (pow2_pos (53 - d)) as Hp.
  assert (Hmzr : 2 ^ (52 + 0) <= Zpos mz < 2 ^ (53 + 0)).
  { change (52 + 0) with 52. change (53 + 0) with 53. destruct Hsplit as [S1 S2]. rewrite <- S1, <- S2, Hmz. nia. }
  destruct (binary_round_aux_nearest (Zpos mz) (d - 53) loc_Exact (Zpos mz) 1 0)
    as (m & e & Heq & Hm & He & Herr); try lia.
  { cbn. lia. }
  rewrite Heq.
  assert (Hee : e = d - 53).
  { destruct He as [He|He]; [lia|]. exfalso. subst e.
    replace (d - 53 + 0 + 1 - (d - 53)) with 1 in Herr by lia.
    change (2 ^ 1) with 2 in Herr. change (2 ^ 0) with 1 in Herr.
    change (2 ^ (53 + 0)) with (2 ^ 53) in Hmzr. lia. }
  subst e. replace (d - 53 - (d - 53)) with 0 in Herr by lia.
  change (2 ^ 0) with 1 in Herr.
  assert (Hmm : Zpos m = Zpos mz) by lia.
  exists (d - 53). split; [exists m; split; [reflexivity | assumption]|].
  split; [lia|].
  cbn [num cond_Zopp]. rewrite Hmm, Hmz. unfold unit_.
  rewrite <- Z.mul_assoc, <- Z.pow_add_r by lia. do 2 f_equal. lia.
Qed.

Lemma scaled_error (a P T B : Z) :
  0 < T -> 2 ^ 53 * Z.abs (a - P) <= B ->
  2 ^ 53 * Z.abs (a * T - P * T) <= B * T.
Proof.
  intros HT H. replace (a * T - P * T) with ((a - P) * T) by ring.
  rewrite Z.abs_mul, (Z.abs_eq T) by lia. nia.
Qed.

(** A product of two normal numbers is rounded with a relative error of at
    most [2^-53]. *)
Lemma mul_spec x y e1 e2 :
  normal x e1 -> normal y e2 -> -1074 <= e1 -> -1074 <= e2 ->
  -1126 <= e1 + e2 <= 916 ->
  exists e, normal (mul x y) e /\ e1 + e2 + 52 <= e <= e1 + e2 + 54 /\
    2 ^ 53 * Z.abs (num (mul x y) * unit_ - num x * num y) <= num x * num y.
Proof.
  intros (m1 & -> & Hm1) (m2 & -> & Hm2) He1 He2 Hex.
  unfold mul, SFmul. cbn [xorb].
  set (P := Zpos (m1 * m2)).
  assert (HP : P = Zpos m1 * Zpos m2) by (subst P; apply Pos2Z.inj_mul).
  assert (HPr : 2 ^ 104 <= P < 2 ^ 106).
  { change (2 ^ 104) with (2 ^ 52 * 2 ^ 52). change (2 ^ 106) with (2 ^ 53 * 2 ^ 53).
    rewrite HP. nia. }
  assert (Hk : exists k, (k = 52 \/ k = 53) /\ 2 ^ (52 + k) <= P < 2 ^ (53 + k)).
  { destruct (Z_lt_le_dec P (2 ^ 105)).
    - exists 52. split; [auto|]. change (52 + 52) with 104. change (53 + 52) with 105. lia.
    - exists 53. split; [auto|]. change (52 + 53) with 105. change (53 + 53) with 106. lia. }
  destruct Hk as (k & Hk & HPk).
  destruct (binary_round_aux_nearest P (e1 + e2) loc_Exact P 1 k)
    as (m & e & Heq & Hm & He & Herr); try lia.
  { cbn. lia. }
  rewrite Heq. exists e.
  split; [exists m; split; [reflexivity | assumption]|].
  split; [lia|].
  cbn [num cond_Zopp]. unfold unit_.
  set (T := 2 ^ (e1 + e2 + 2148)).
  assert (HT : 0 < T) by (apply pow2_pos; lia).
  assert (E1 : 2 ^ (e + 1074) * 2 ^ 1074 = 2 ^ (e - (e1 + e2)) * T).
  { subst T. rewrite <- !Z.pow_add_r by lia. f_equal. lia. }
  assert (E2 : 2 ^ (e1 + 1074) * 2 ^ (e2 + 1074) = T).
  { subst T. rewrite <- !Z.pow_add_r by lia. f_equal. lia. }
  replace (Zpos m * 2 ^ (e + 1074) * 2 ^ 1074)
    with (Zpos m * 2 ^ (e - (e1 + e2)) * T)
    by (rewrite <- !Z.mul_assoc, E1; ring).
  replace (Zpos m1 * 2 ^ (e1 + 1074) * (Zpos m2 * 2 ^ (e2 + 1074))) with (P * T)
    by (rewrite HP, <- E2; ring).
  apply scaled_error; [assumption|].
  rewrite Z.mul_1_r in Herr.
  assert (2 ^ (52 + k) = 2 ^ 52 * 2 ^ k) by (apply Z.pow_add_r; lia).
  change (2 ^ 53) with (2 * 2 ^ 52). pose proof (pow2_pos k). nia.
Qed.

Lemma new_location_loc (D q r : Z) :
  0 < D -> 0 <= r < D -> loc_ok (D * q + r) D q (new_location D r).
Proof.
  intros HD Hr. unfold new_location, new_location_even, new_location_odd.
  destruct (Z.even D) eqn:Ev.
  - destruct (Z.eqb_spec r 0) as [->|Hne]; cbn; [ring|].
    destruct (Z.compare_spec (2 * r) D); cbn; nia.
  - destruct (Z.eqb_spec r 0) as [->|Hne]; cbn; [ring|].
    assert (Hodd : 2 * r <> D).
    { intros <-. rewrite Z.even_mul in Ev. discriminate. }
    destruct (Z.compare_spec (2 * r + 1) D); cbn; nia.
Qed.

(** A quotient of two normal numbers is rounded with a relative error of at
    most [2^-53]. *)
Lemma div_spec x y e1 e2 :
  normal x e1 -> normal y e2 -> -1074 <= e1 -> -1074 <= e2 ->
  -1021 <= e1 - e2 <= 1022 ->
  exists e, normal (div x y) e /\ e1 - e2 - 53 <= e <= e1 - e2 - 51 /\
    2 ^ 53 * Z.abs (num (div x y) * num y - num x * unit_) <= num x * unit_.
Proof.
  intros (m1 & -> & Hm1) (m2 & -> & Hm2) He1 He2 Hex.
  unfold div, SFdiv, SFdiv_core_binary. cbn [xorb Zdigits2].
  rewrite (digits2_unique m1 53), (digits2_unique m2 53) by (change (53 - 1) with 52; lia).
  assert (He' : Z.min (fexp prec emax (53 + e1 - (53 + e2))) (e1 - e2) = e1 - e2 - 53).
  { unfold fexp, emin, prec, emax. lia. }
  rewrite He'. replace (e1 - e2 - (e1 - e2 - 53)) with 53 by lia.
  rewrite Z.shiftl_mul_pow2 by lia.
  set (N := Zpos m1 * 2 ^ 53). set (D := Zpos m2).
  pose proof (Z_div_mod N D ltac:(subst D; lia)) as Hdm.
  destruct (Z.div_eucl N D) as [q r]. destruct Hdm as [HN Hr].
  assert (HNr : 2 ^ 105 <= N < 2 ^ 106).
  { change (2 ^ 105) with (2 ^ 52 * 2 ^ 53). change (2 ^ 106) with (2 ^ 53 * 2 ^ 53).
    subst N. lia. }
  assert (Hq : 2 ^ 52 <= q < 2 ^ 54).
  { change (2 ^ 105) with (2 ^ 52 * 2 ^ 53) in HNr.
    change (2 ^ 106) with (2 ^ 54 * 2 ^ 52) in HNr. subst D. split; nia. }
  assert (Hk : exists k, (k = 0 \/ k = 1) /\ 2 ^ (52 + k) <= q < 2 ^ (53 + k)).
  { destruct (Z_lt_le_dec q (2 ^ 53)).
    - exists 0. split; [auto|]. change (52 + 0) with 52. change (53 + 0) with 53. lia.
    - exists 1. split; [auto|]. change (52 + 1) with 53. change (53 + 1) with 54. lia. }
  destruct Hk as (k & Hk & Hqk).
  destruct (binary_round_aux_nearest q (e1 - e2 - 53) (new_location D r) N D k)
    as (m & e & Heq & Hm & He & Herr); try lia.
  { rewrite HN. apply new_location_loc; lia. }
  rewrite Heq. exists e.
  split; [exists m; split; [reflexivity | assumption]|].
  split; [lia|].
  cbn [num cond_Zopp]. unfold unit_. fold D.
  set (T := 2 ^ (e1 + 2095)).
  assert (HT : 0 < T) by (apply pow2_pos; lia).
  assert (E1 : 2 ^ (e + 1074) * 2 ^ (e2 + 1074) = 2 ^ (e - (e1 - e2 - 53)) * T).
  { subst T. rewrite <- !Z.pow_add_r by lia. f_equal. lia. }
  assert (E2 : 2 ^ (e1 + 1074) * 2 ^ 1074 = 2 ^ 53 * T).
  { subst T. rewrite <- !Z.pow_add_r by lia. f_equal. lia. }
  replace (Zpos m * 2 ^ (e + 1074) * (D * 2 ^ (e2 + 1074)))
    with (Zpos m * 2 ^ (e - (e1 - e2 - 53)) * D * T)
    by (transitivity (Zpos m * D * (2 ^ (e + 1074) * 2 ^ (e2 + 1074)));
        [rewrite E1|]; ring).
  replace (Zpos m1 * 2 ^ (e1 + 1074) * 2 ^ 1074) with (N * T)
    by (subst N; rewrite <- !Z.mul_assoc, E2; ring).
  apply scaled_error; [assumption|].
  assert (2 ^ (52 + k) = 2 ^ 52 * 2 ^ k) by (apply Z.pow_add_r; lia).
  change (2 ^ 53) with (2 * 2 ^ 52). pose proof (pow2_pos k). nia.
Qed.

(** *** Order, minimum and truncation *)

Lemma normal_lt_exp x y e1 e2 :
  normal x e1 -> normal y e2 -> -1074 <= e1 < e2 -> num x < num y.
Proof.
  intros (m1 & -> & Hm1) (m2 & -> & Hm2) He. cbn [num cond_Zopp].
  assert (E : 2 ^ (e2 + 1074) = 2 ^ (e2 - e1 - 1) * 2 * 2 ^ (e1 + 1074)).
  { change 2 with (2 ^ 1) at 3. rewrite <- !Z.pow_add_r by lia. f_equal. lia. }
  rewrite E. pose proof (pow2_pos (e1 + 1074)). pose proof (pow2_pos (e2 - e1 - 1)).
  change (2 ^ 53) with (2 * 2 ^ 52) in Hm1. nia.
Qed.

Lemma ltb_spec x y e1 e2 :
  normal x e1 -> normal y e2 -> -1074 <= e1 -> -1074 <= e2 ->
  ltb x y = true <-> num x < num y.
Proof.
  intros Hx Hy He1 He2.
  destruct (Z.compare_spec e1 e2) as [E|E|E].
  - destruct Hx as (m1 & -> & Hm1), Hy as (m2 & -> & Hm2). subst e2.
    unfold ltb, SFltb, SFcompare. rewrite Z.compare_refl.
    change (Pos.compare_cont Eq m1 m2) with (Pos.compare m1 m2).
    cbn [num cond_Zopp]. pose proof (pow2_pos (e1 + 1074)).
    destruct (Pos.compare_spec m1 m2) as [C|C|C]; split; intros; try discriminate; try reflexivity; try nia.
  - pose proof (normal_lt_exp x y e1 e2 Hx Hy ltac:(lia)).
    destruct Hx as (m1 & -> & Hm1), Hy as (m2 & -> & Hm2).
    unfold ltb, SFltb, SFcompare.
    replace (e1 ?= e2) with Lt by (symmetry; apply Z.compare_lt_iff; lia).
    split; auto.
  - pose proof (normal_lt_exp y x e2 e1 Hy Hx ltac:(lia)).
    destruct Hx as (m1 & -> & Hm1), Hy as (m2 & -> & Hm2).
    unfold ltb, SFltb, SFcompare.
    replace (e1 ?= e2) with Gt by (symmetry; apply Z.compare_gt_iff; lia).
    split; [discriminate | lia].
Qed.

Lemma normal_inj x y e1 e2 :
  normal x e1 -> normal y e2 -> -1074 <= e1 -> -1074 <= e2 ->
  num x = num y -> x = y.
Proof.
  intros Hx Hy He1 He2 Hn.
  destruct (Z.compare_spec e1 e2) as [E|E|E].
  - destruct Hx as (m1 & -> & Hm1), Hy as (m2 & -> & Hm2). subst e2.
    cbn [num cond_Zopp] in Hn. pose proof (pow2_pos (e1 + 1074)).
    assert (Zpos m1 = Zpos m2) by nia. congruence.
  - pose proof (normal_lt_exp x y e1 e2 Hx Hy ltac:(lia)). lia.
  - pose proof (normal_lt_exp y x e2 e1 Hy Hx ltac:(lia)). lia.
Qed.

Lemma min_spec a b ea eb :
  normal a ea -> normal b eb -> -1074 <= ea -> -1074 <= eb ->
  (min a b = a \/ min a b = b) /\
  num (min a b) = Z.min (num a) (num b).
Proof.
  intros Ha Hb Hea Heb. unfold min.
  pose proof (ltb_spec b a eb ea Hb Ha Heb Hea) as Hlt.
  destruct (ltb b a).
  - split; [auto|]. assert (num b < num a) by (apply Hlt; reflexivity). lia.
  - split; [auto|]. assert (~ num b < num a) by (intros H; apply Hlt in H; discriminate). lia.
Qed.

Lemma to_int_spec x e :
  normal x e -> -1074 <= e -> to_int x = Some (num x / unit_).
Proof.
  intros (m & -> & Hm) He. cbn [to_int num cond_Zopp]. f_equal.
  unfold trunc_mag, unit_.
  destruct (Z.leb_spec 0 e).
  - rewrite Z.pow_add_r, Z.mul_assoc by lia. symmetry. apply Z.div_mul.
    pose proof (pow2_pos 1074). lia.
  - replace (2 ^ 1074) with (2 ^ (- e) * 2 ^ (e + 1074))
      by (rewrite <- Z.pow_add_r by lia; f_equal; lia).
    symmetry. apply Z.div_mul_cancel_r.
    + pose proof (pow2_pos (- e)). lia.
    + pose proof (pow2_pos (e + 1074)). lia.
Qed.

(** *** Exact results *)

Lemma num_one : num one = unit_.
Proof. reflexivity. Qed.

Lemma normal_one : normal one (-52).
Proof. exists 4503599627370496%positive. split; [reflexivity|]. cbn. lia. Qed.

Lemma div_self x e : normal x e -> -1074 <= e -> div x x = one.
Proof.
  intros (m & -> & Hm) He.
  unfold div, SFdiv, SFdiv_core_binary. cbn [xorb Zdigits2].
  rewrite (digits2_unique m 53) by (change (53 - 1) with 52; lia).
  replace (53 + e - (53 + e)) with 0 by lia.
  replace (e - e) with 0 by lia.
  change (Z.min (fexp prec emax 0) 0) with (-53).
  change (0 - -53) with 53.
  rewrite Z.shiftl_mul_pow2 by lia.
  pose proof (Z_div_mod (Zpos m * 2 ^ 53) (Zpos m) ltac:(lia)) as Hdm.
  destruct (Z.div_eucl (Zpos m * 2 ^ 53) (Zpos m)) as [q r]. destruct Hdm as [HN Hr].
  assert (Hq : q = 2 ^ 53) by nia.
  assert (Hr0 : r = 0) by nia.
  subst q r.
  replace (new_location (Zpos m) 0) with loc_Exact
    by (unfold new_location, new_location_even, new_location_odd;
        destruct (Z.even (Zpos m)); reflexivity).
  vm_compute. reflexivity.
Qed.

Lemma mul_one x e : normal x e -> -1074 <= e <= 900 -> mul x one = x.
Proof.
  intros Hx He.
  destruct (mul_spec x one e (-52) Hx normal_one) as (ez & Hz & Hez & Herr); try lia.
  apply (normal_inj _ _ ez e Hz Hx); try lia.
  rewrite num_one in Herr.
  pose proof unit_pos as HU.
  replace (num (mul x one) * unit_ - num x * unit_)
    with ((num (mul x one) - num x) * unit_) in Herr by ring.
  rewrite Z.abs_mul, (Z.abs_eq unit_) in Herr by lia.
  assert (Herr' : 2 ^ 53 * Z.abs (num (mul x one) - num x) <= num x) by nia.
  pose proof (normal_num x e Hx ltac:(lia)) as Hnx.
  destruct Hz as (mz & Ez & Hmz), Hx as (mx & Ex & Hmx).
  rewrite Ez, Ex in *. cbn [num cond_Zopp] in *.
  assert (Hpow : 2 ^ (ez + 1074) = 2 ^ (ez - e) * 2 ^ (e + 1074)).
  { rewrite <- Z.pow_add_r by lia. f_equal. lia. }
  rewrite Hpow in *.
  pose proof (pow2_pos (e + 1074)) as Hp1. pose proof (pow2_pos (ez - e)) as Hp2.
  set (u := 2 ^ (e + 1074)) in *. set (c := 2 ^ (ez - e)) in *.
  replace (Zpos mz * (c * u) - Zpos mx * u) with ((Zpos mz * c - Zpos mx) * u) in Herr' by ring.
  rewrite Z.abs_mul, (Z.abs_eq u) in Herr' by lia.
  assert (Z.abs (Zpos mz * c - Zpos mx) < 1) by nia.
  nia.
Qed.

(** The least float above 1.0 is [1 + 2^-52]. *)
Lemma normal_above_one x e :
  normal x e -> -1074 <= e -> unit_ < num x ->
  (2 ^ 52 + 1) * unit_ <= 2 ^ 52 * num x.
Proof.
  intros Hx He Hgt.
  pose proof (normal_num x e Hx He) as Hn.
  destruct (Z.compare_spec e (-52)) as [E|E|E].
  - subst e. destruct Hx as (m & -> & Hm). cbn [num cond_Zopp] in *.
    change (-52 + 1074) with 1022 in *.
    assert (HU : unit_ = 2 ^ 52 * 2 ^ 1022) by reflexivity.
    rewrite HU in *. pose proof (pow2_pos 1022 ltac:(lia)). nia.
  - exfalso. pose proof normal_one as H1.
    pose proof (normal_lt_exp x one e (-52) Hx H1 ltac:(lia)) as Hlt.
    rewrite num_one in Hlt. lia.
  - assert (Hp : 2 ^ (e + 1074) = 2 ^ (e + 52 - 1) * 2 * 2 ^ 1022).
    { change 2 with (2 ^ 1) at 3. rewrite <- !Z.pow_add_r by lia. f_equal. lia. }
    assert (HU : unit_ = 2 ^ 52 * 2 ^ 1022) by reflexivity.
    rewrite Hp in Hn. rewrite HU.
    pose proof (pow2_pos 1022 ltac:(lia)). pose proof (pow2_pos (e + 52 - 1) ltac:(lia)).
    nia.
Qed.

End Float64Facts.

(** * Facts about the arithmetic of the scripts *)

Module FitFacts.
Import Float64 Float64Facts.

Lemma unscale_error (a b B : Z) :
  2 ^ 53 * Z.abs (a * unit_ - b * unit_) <= B * unit_ ->
  2 ^ 53 * Z.abs (a - b) <= B.
Proof.
  pose proof unit_pos as HU. intros H.
  replace (a * unit_ - b * unit_) with ((a - b) * unit_) in H by ring.
  rewrite Z.abs_mul, (Z.abs_eq unit_) in H by lia. nia.
Qed.

(** [t * c] for an int [t] and a float constant [c]. *)
Lemma mul_int_float_spec (t : Z) (c : spec_float) (ec : Z) :
  0 < t < 2 ^ 53 -> normal c ec -> -200 <= ec <= 200 ->
  exists e, normal (mul_int_float t c) e /\ ec <= e <= ec + 54 /\
    2 ^ 53 * Z.abs (num (mul_int_float t c) - t * num c) <= t * num c.
Proof.
  intros Ht Hc Hec.
  destruct (of_int_spec t Ht) as (et & Hnt & Het & Hnum).
  destruct (mul_spec (of_int t) c et ec Hnt Hc) as (e & Hn & He & Herr); try lia.
  exists e. split; [exact Hn|]. split; [lia|].
  apply unscale_error. rewrite Hnum in Herr.
  replace (t * num c * unit_) with (t * unit_ * num c) by ring. exact Herr.
Qed.

(** [a / s] for a float [a] and an int [s]. *)
Lemma truediv_float_spec (a : spec_float) (ea s : Z) :
  normal a ea -> -200 <= ea <= 200 -> 0 < s < 2 ^ 53 ->
  exists r e, truediv_float a s = Ok r /\ normal r e /\ ea - 53 <= e <= ea + 1 /\
    2 ^ 53 * Z.abs (num r * s - num a) <= num a.
Proof.
  intros Ha Hea Hs.
  destruct (of_int_spec s Hs) as (es & Hns & Hes & Hnum).
  destruct (div_spec a (of_int s) ea es Ha Hns) as (e & Hn & He & Herr); try lia.
  unfold truediv_float. replace (s =? 0) with false by (symmetry; apply Z.eqb_neq; lia).
  exists (div a (of_int s)), e. split; [reflexivity|]. split; [exact Hn|]. split; [lia|].
  apply unscale_error. rewrite Hnum in Herr.
  replace (num (div a (of_int s)) * s * unit_)
    with (num (div a (of_int s)) * (s * unit_)) by ring. exact Herr.
Qed.

(** [t / s] for two ints. *)
Lemma truediv_int_spec (t s : Z) :
  0 < t < 2 ^ 53 -> 0 < s < 2 ^ 53 ->
  exists r e, truediv_int t s = Ok r /\ normal r e /\ -105 <= e <= 1 /\
    2 ^ 53 * Z.abs (num r * s - t * unit_) <= t * unit_.
Proof.
  intros Ht Hs.
  destruct (of_int_spec t Ht) as (et & Hnt & Het & Hnum).
  destruct (truediv_float_spec (of_int t) et s Hnt ltac:(lia) Hs)
    as (r & e & Hr & Hn & He & Herr).
  exists r, e. unfold truediv_int. unfold truediv_float in Hr.
  destruct (s =? 0); [discriminate|].
  split; [exact Hr|]. split; [exact Hn|]. split; [lia|].
  rewrite Hnum in Herr. exact Herr.
Qed.

(** [int(s * scale)]: the truncation of a product rounded once. *)
Lemma int_mul_spec (s : Z) (scale : spec_float) (e : Z) :
  0 < s < 2 ^ 53 -> normal scale e -> -200 <= e <= 200 ->
  exists P, int_ (mul_int_float s scale) = Ok (P / unit_) /\
    2 ^ 53 * Z.abs (P - s * num scale) <= s * num scale.
Proof.
  intros Hs Hn He.
  destruct (mul_int_float_spec s scale e Hs Hn He) as (ep & Hnp & Hep & Herr).
  exists (num (mul_int_float s scale)). split; [|exact Herr].
  unfold int_. rewrite (to_int_spec _ ep Hnp) by lia. reflexivity.
Qed.

(** *** One axis of the fit, in integers

    [U] is the unit of [num]; [X] is the numerator [target * fill], [A] the
    quotient [X / s] as computed, [Sc] the scale that was chosen, [P] the
    product [s * Sc] as computed, and [p / q] the fill fraction. *)

Lemma axis_le (U s t p q Sc A X P : Z) :
  0 < U -> 0 < s < 2 ^ 31 -> 0 < t < 2 ^ 31 -> 0 < p <= 9 -> 0 < q <= 10 ->
  2 ^ 53 * Z.abs (A * s - X) <= X ->
  2 ^ 53 * Z.abs (P - s * Sc) <= s * Sc ->
  Sc <= A -> q * X * 2 ^ 51 <= (2 ^ 51 + 1) * (p * t * U) ->
  q * (P / U) <= p * t.
Proof.
  intros HU Hs Ht Hp Hq HA HP Hle HX.
  assert (H1 : s * Sc <= A * s) by nia.
  assert (H2 : 2 ^ 53 * P <= (2 ^ 53 + 1) * (A * s)) by lia.
  assert (H3 : 2 ^ 53 * (A * s) <= (2 ^ 53 + 1) * X) by lia.
  assert (H4 : p * t < 2 ^ 35) by (change (2 ^ 35) with (16 * 2 ^ 31); nia).
  assert (H5 : p * t * U < 2 ^ 35 * U) by nia.
  assert (H6 : q * P < (p * t + 1) * U).
  { assert (2 ^ 53 * (q * P) <= (2 ^ 53 + 1) * (q * (A * s))) by nia.
    assert (2 ^ 53 * (q * (A * s)) <= (2 ^ 53 + 1) * (q * X)) by nia.
    replace (q * X * 2 ^ 51) with (2 ^ 51 * (q * X)) in HX by ring.
    lia. }
  pose proof (Z.mul_div_le P U HU) as H7.
  assert (H8 : (q * (P / U)) * U < (p * t + 1) * U) by nia.
  apply Z.mul_lt_mono_pos_r in H8; lia.
Qed.

Lemma axis_ge (U s t p q Sc A X P : Z) :
  0 < U -> 0 < s < 2 ^ 31 -> 0 < t < 2 ^ 31 -> 0 < p <= 9 -> 0 < q <= 10 ->
  2 ^ 53 * Z.abs (A * s - X) <= X ->
  2 ^ 53 * Z.abs (P - s * Sc) <= s * Sc ->
  Sc = A -> (2 ^ 51 - 1) * (p * t * U) <= q * X * 2 ^ 51 ->
  p * t - q <= q * (P / U).
Proof.
  intros HU Hs Ht Hp Hq HA HP -> HX.
  assert (H2 : (2 ^ 53 - 1) * (s * A) <= 2 ^ 53 * P) by lia.
  assert (H3 : (2 ^ 53 - 1) * X <= 2 ^ 53 * (A * s)) by lia.
  assert (H4 : p * t < 2 ^ 35) by (change (2 ^ 35) with (16 * 2 ^ 31); nia).
  assert (H5 : p * t * U < 2 ^ 35 * U) by nia.
  assert (H6 : (p * t - 1) * U < q * P).
  { assert ((2 ^ 53 - 1) * (q * (s * A)) <= 2 ^ 53 * (q * P)) by nia.
    assert ((2 ^ 53 - 1) * (q * X) <= 2 ^ 53 * (q * (A * s))) by nia.
    replace (q * X * 2 ^ 51) with (2 ^ 51 * (q * X)) in HX by ring.
    replace (q * (s * A)) with (q * (A * s)) in * by ring.
    assert (0 < p * t * U) by nia.
    lia. }
  pose proof (Z.mod_pos_bound P U HU) as H7.
  pose proof (Z.div_mod P U ltac:(lia)) as H8.
  assert (H9 : (p * t - 1) * U < (q * (P / U) + q) * U) by nia.
  apply Z.mul_lt_mono_pos_r in H9; lia.
Qed.

Lemma axis_gt1 (U s t p q A X : Z) :
  0 < U -> 0 < s < 2 ^ 31 -> 0 < t < 2 ^ 31 -> 0 < p <= 9 -> 0 < q <= 10 ->
  2 ^ 53 * Z.abs (A * s - X) <= X ->
  q * s < p * t -> (2 ^ 51 - 1) * (p * t * U) <= q * X * 2 ^ 51 ->
  U < A.
Proof.
  intros HU Hs Ht Hp Hq HA Hlt HX.
  assert (H3 : (2 ^ 53 - 1) * X <= 2 ^ 53 * (A * s)) by lia.
  assert (H4 : (q * s + 1) * U <= p * t * U) by nia.
  assert (H5 : q * s < 2 ^ 35) by (change (2 ^ 35) with (16 * 2 ^ 31); nia).
  assert (H6 : q * s * U < 2 ^ 35 * U) by nia.
  assert (H7 : q * (s * U) < q * (A * s)).
  { assert ((2 ^ 53 - 1) * (q * X) <= 2 ^ 53 * (q * (A * s))) by nia.
    replace (q * X * 2 ^ 51) with (2 ^ 51 * (q * X)) in HX by ring.
    replace (q * (s * U)) with (q * s * U) by ring.
    lia. }
  nia.
Qed.

(** *** The two quotients of each script *)

Lemma dim_ok_53 (n : Z) : dim_ok n -> 0 < n < 2 ^ 53.
Proof. unfold dim_ok. intros [H1 H2]. split; [lia|]. change (2 ^ 53) with (2 ^ 22 * 2 ^ 31). lia. Qed.

Lemma feature_axis (t s : Z) :
  dim_ok t -> dim_ok s ->
  exists a, truediv_int t s = Ok a /\ axis_facts 1 1 t s a.
Proof.
  intros Ht Hs.
  destruct (truediv_int_spec t s (dim_ok_53 t Ht) (dim_ok_53 s Hs))
    as (a & e & Ha & Hn & He & Herr).
  exists a. split; [exact Ha|]. exists e, (t * unit_).
  pose proof unit_pos. destruct Ht.
  assert (0 < t * unit_) by nia.
  repeat split; try lia. exact Hn.
Qed.

Lemma fill_axis (c : spec_float) (p q t s : Z) :
  normal c (-53) -> 0 < p <= 9 -> 0 < q <= 10 ->
  q * num c * 2 ^ 52 = (p * 2 ^ 52 + 1) * unit_ ->
  dim_ok t -> dim_ok s ->
  exists a, truediv_float (mul_int_float t c) s = Ok a /\ axis_facts p q t s a.
Proof.
  intros Hc Hp Hq Hfill Ht Hs.
  destruct (mul_int_float_spec t c (-53) (dim_ok_53 t Ht) Hc ltac:(lia))
    as (ex & Hnx & Hex & Herrx).
  destruct (truediv_float_spec _ ex s Hnx ltac:(lia) (dim_ok_53 s Hs))
    as (a & e & Ha & Hn & He & Herr).
  exists a. split; [exact Ha|]. exists e, (num (mul_int_float t c)).
  split; [exact Hn|]. split; [lia|]. split; [exact Herr|].
  set (X := num (mul_int_float t c)) in *.
  pose proof unit_pos as HU. destruct Ht as [Ht0 Ht1].
  assert (HZ : 0 < t * unit_) by nia.
  assert (HW : t * unit_ <= p * t * unit_) by nia.
  assert (HY : q * (t * num c) * 2 ^ 52 = 2 ^ 52 * (p * t * unit_) + t * unit_) by nia.
  assert (H1 : 2 ^ 53 * (q * X) <= (2 ^ 53 + 1) * (q * (t * num c))) by nia.
  assert (H2 : (2 ^ 53 - 1) * (q * (t * num c)) <= 2 ^ 53 * (q * X)) by nia.
  replace (q * X * 2 ^ 51) with (2 ^ 51 * (q * X)) by ring.
  split; lia.
Qed.

Lemma lit_0_8_fill : 5 * num lit_0_8 * 2 ^ 52 = (4 * 2 ^ 52 + 1) * unit_.
Proof. vm_compute. reflexivity. Qed.

Lemma lit_0_9_fill : 10 * num lit_0_9 * 2 ^ 52 = (9 * 2 ^ 52 + 1) * unit_.
Proof. vm_compute. reflexivity. Qed.

Lemma normal_lit_0_8 : normal lit_0_8 (-53).
Proof. eexists. split; [reflexivity|]. cbn. lia. Qed.

Lemma normal_lit_0_9 : normal lit_0_9 (-53).
Proof. eexists. split; [reflexivity|]. cbn. lia. Qed.

(** *** The scaled size, for any fill fractions *)

Lemma scaled_by_bounds (pw qw ph qh w h tw th : Z) (a b : spec_float) :
  0 < pw <= 9 -> 0 < qw <= 10 -> 0 < ph <= 9 -> 0 < qh <= 10 ->
  dim_ok w -> dim_ok h -> dim_ok tw -> dim_ok th ->
  axis_facts pw qw tw w a -> axis_facts ph qh th h b ->
  exists new_width new_height,
    scaled_by (min a b) w h = Ok (min a b, new_width, new_height) /\
    qw * new_width <= pw * tw /\ qh * new_height <= ph * th /\
    (pw * tw - qw <= qw * new_width \/ ph * th - qh <= qh * new_height) /\
    (qw * w < pw * tw -> qh * h < ph * th ->
     ltb one (min a b) = true /\ w <= new_width /\ h <= new_height).
Proof.
  intros Hpw Hqw Hph Hqh Hw Hh Htw Hth
    (ea & Xa & Hna & Hea & Herra & Hloa & Hhia)
    (eb & Xb & Hnb & Heb & Herrb & Hlob & Hhib).
  destruct (min_spec a b ea eb Hna Hnb ltac:(lia) ltac:(lia)) as [Hsel Hmin].
  assert (Hsc : exists e, normal (min a b) e /\ -200 <= e <= 200).
  { destruct Hsel as [-> | ->]; eauto. }
  destruct Hsc as (e & Hn & He).
  destruct (int_mul_spec w (min a b) e (dim_ok_53 w Hw) Hn He) as (Pw & HPw & Herrw).
  destruct (int_mul_spec h (min a b) e (dim_ok_53 h Hh) Hn He) as (Ph & HPh & Herrh).
  exists (Pw / unit_), (Ph / unit_).
  pose proof unit_pos as HU.
  split.
  { unfold scaled_by. rewrite HPw. cbn. rewrite HPh. reflexivity. }
  split.
  { apply (axis_le unit_ w tw pw qw (num (min a b)) (num a) Xa Pw); try assumption; try (unfold dim_ok in *; lia). }
  split.
  { apply (axis_le unit_ h th ph qh (num (min a b)) (num b) Xb Ph); try assumption; try (unfold dim_ok in *; lia). }
  split.
  { destruct Hsel as [Hs | Hs].
    - left. apply (axis_ge unit_ w tw pw qw (num (min a b)) (num a) Xa Pw);
        try assumption; try (unfold dim_ok in *; lia). rewrite Hs. reflexivity.
    - right. apply (axis_ge unit_ h th ph qh (num (min a b)) (num b) Xb Ph);
        try assumption; try (unfold dim_ok in *; lia). rewrite Hs. reflexivity. }
  intros Hltw Hlth.
  assert (unit_ < num a)
    by (apply (axis_gt1 unit_ w tw pw qw (num a) Xa); assumption).
  assert (unit_ < num b)
    by (apply (axis_gt1 unit_ h th ph qh (num b) Xb); assumption).
  assert (Hgt : unit_ < num (min a b)) by lia.
  split.
  { apply (ltb_spec one (min a b) (-52) e normal_one Hn); try lia.
    rewrite num_one. exact Hgt. }
  pose proof (normal_above_one (min a b) e Hn ltac:(lia) Hgt) as Hnext.
  destruct Hw as [Hw0 _], Hh as [Hh0 _].
  split; apply Z.div_le_lower_bound; try assumption.
  - assert ((2 ^ 52 + 1) * (unit_ * w) <= 2 ^ 52 * (w * num (min a b))) by nia.
    lia.
  - assert ((2 ^ 52 + 1) * (unit_ * h) <= 2 ^ 52 * (h * num (min a b))) by nia.
    lia.
Qed.

(** *** The scaled size of each script *)

Lemma feature_scaled_size_eq (w h tw th : Z) (a b : spec_float) :
  truediv_int tw w = Ok a -> truediv_int th h = Ok b ->
  ConvertFeatureGraphic.scaled_size w h tw th = scaled_by (min a b) w h.
Proof.
  intros Ha Hb. unfold ConvertFeatureGraphic.scaled_size. rewrite Ha. cbn.
  rewrite Hb. reflexivity.
Qed.

Lemma tablet_scaled_size_eq (w h tw th : Z) (a b : spec_float) :
  truediv_float (mul_int_float tw lit_0_8) w = Ok a ->
  truediv_float (mul_int_float th lit_0_9) h = Ok b ->
  ConvertScreenshots.scaled_size w h tw th = scaled_by (min a b) w h.
Proof.
  intros Ha Hb. unfold ConvertScreenshots.scaled_size. rewrite Ha. cbn.
  rewrite Hb. reflexivity.
Qed.

Lemma feature_scaled_size_bounds (w h tw th : Z) :
  dim_ok w -> dim_ok h -> dim_ok tw -> dim_ok th ->
  exists scale new_width new_height,
    ConvertFeatureGraphic.scaled_size w h tw th = Ok (scale, new_width, new_height) /\
    new_width <= tw /\ new_height <= th /\
    (tw - 1 <= new_width \/ th - 1 <= new_height) /\
    (w < tw -> h < th -> ltb one scale = true /\ w <= new_width /\ h <= new_height).
Proof.
  intros Hw Hh Htw Hth.
  destruct (feature_axis tw w Htw Hw) as (a & Ha & Hfa).
  destruct (feature_axis th h Hth Hh) as (b & Hb & Hfb).
  destruct (scaled_by_bounds 1 1 1 1 w h tw th a b) as (nw & nh & Hs & H1 & H2 & H3 & H4);
    try assumption; try lia.
  exists (min a b), nw, nh.
  rewrite (feature_scaled_size_eq w h tw th a b Ha Hb).
  split; [exact Hs|]. split; [lia|]. split; [lia|]. split; [lia|].
  intros. apply H4; lia.
Qed.

Lemma tablet_scaled_size_bounds (w h tw th : Z) :
  dim_ok w -> dim_ok h -> dim_ok tw -> dim_ok th ->
  exists scale new_width new_height,
    ConvertScreenshots.scaled_size w h tw th = Ok (scale, new_width, new_height) /\
    5 * new_width <= 4 * tw /\ 10 * new_height <= 9 * th /\
    (4 * tw - 5 <= 5 * new_width \/ 9 * th - 10 <= 10 * new_height) /\
    (5 * w < 4 * tw -> 10 * h < 9 * th ->
     ltb one scale = true /\ w <= new_width /\ h <= new_height).
Proof.
  intros Hw Hh Htw Hth.
  destruct (fill_axis lit_0_8 4 5 tw w normal_lit_0_8 ltac:(lia) ltac:(lia)
              lit_0_8_fill Htw Hw) as (a & Ha & Hfa).
  destruct (fill_axis lit_0_9 9 10 th h normal_lit_0_9 ltac:(lia) ltac:(lia)
              lit_0_9_fill Hth Hh) as (b & Hb & Hfb).
  destruct (scaled_by_bounds 4 5 9 10 w h tw th a b) as (nw & nh & Hs & H1 & H2 & H3 & H4);
    try assumption; try lia.
  exists (min a b), nw, nh.
  rewrite (tablet_scaled_size_eq w h tw th a b Ha Hb).
  split; [exact Hs|]. split; [lia|]. split; [lia|]. split; [lia|].
  exact H4.
Qed.

End FitFacts.


(** * Facts about the runs *)

Module RunFacts.
Import Float64 Float64Facts FitFacts.

Lemma size_as_rgb (K : kernels) (img : image) : size (as_rgb K img) = size img.
Proof. unfold as_rgb. destruct (String.eqb (mode img) "RGB"); reflexivity. Qed.

(** *** The calls that read and write files *)

Lemma Image_open_world (path : string) (w : world) : snd (Image_open path w) = w.
Proof.
  unfold Image_open.
  destruct (files w !! path) as [[img|img msg|]|]; try reflexivity.
  - destruct (size img) as [a b].
    destruct ((a <? 1) || (b <? 1)); [reflexivity|].
    destruct (max_pixels <? a * b); reflexivity.
  - destruct (size img) as [a b].
    destruct ((a <? 1) || (b <? 1)); [reflexivity|].
    destruct (max_pixels <? a * b); reflexivity.
  - destruct (is_dir w path && negb (String.eqb path "")); reflexivity.
Qed.

Lemma load_world (path : string) (w : world) : snd (load path w) = w.
Proof. unfold load. destruct (files w !! path) as [[img|img msg|]|]; reflexivity. Qed.

Lemma Image_open_ok (path : string) (w : world) (img : image) :
  files w !! path = Some (ImageFile img) -> source_ok img ->
  Image_open path w = (Ok img, w).
Proof.
  intros Hf (H1 & H2 & H3). unfold Image_open. rewrite Hf.
  destruct (size img) as [a b]. cbn [fst snd] in *.
  replace (a <? 1) with false by (symmetry; apply Z.ltb_ge; lia).
  replace (b <? 1) with false by (symmetry; apply Z.ltb_ge; lia).
  replace (max_pixels <? a * b) with false by (symmetry; apply Z.ltb_ge; lia).
  reflexivity.
Qed.

Lemma load_ok (path : string) (w : world) (img : image) :
  files w !! path = Some (ImageFile img) -> load path w = (Ok tt, w).
Proof. intros Hf. unfold load. rewrite Hf. reflexivity. Qed.

(** [save] writes the file, or raises and changes nothing. *)
Lemma save_cases (img : image) (path : string) (w : world) :
  (exists e, save img path w = (Raise e, w)) \/
  save img path w =
    (Ok tt, {| files := <[path := ImageFile img]> (files w);
               dirs := add_entry path w;
               stdout := stdout w |}).
Proof.
  unfold save.
  destruct (is_dir w path && negb (String.eqb path "")); [left; eauto|].
  destruct (is_dir w (dirname path) && negb (String.eqb path "")); [right; reflexivity|].
  destruct (files w !! dirname path); left; eauto.
Qed.

Lemma is_dir_empty (w : world) : is_dir w "" = true.
Proof. reflexivity. Qed.

Lemma save_ok (img : image) (path : string) (w : world) :
  can_save w path ->
  save img path w =
    (Ok tt, {| files := <[path := ImageFile img]> (files w);
               dirs := add_entry path w;
               stdout := stdout w |}).
Proof.
  intros [H1 H2]. unfold save. rewrite H1, H2. cbn [andb].
  destruct (String.eqb_spec path "") as [->|_]; [|reflexivity].
  rewrite is_dir_empty in H1. discriminate H1.
Qed.

(** *** Either script, from the canvas that it builds *)

Lemma convert_feature_graphic_from (K : kernels) (input_path output_path : string)
    (tw th : Z) (w : world) :
  ConvertFeatureGraphic.convert_feature_graphic K input_path output_path tw th w =
  match canvas_from K ConvertFeatureGraphic.scaled_size ConvertFeatureGraphic.position
          w input_path tw th with
  | Ok out =>
      match save out output_path w with
      | (Ok _, w') =>
          (Ok tt,
           {| files := files w'; dirs := dirs w';
              stdout := stdout w' ++ ["Converted image size: " +:+ repr_size (size out)] |})
      | (Raise e, w') => (Raise e, w')
      end
  | Raise e => (Raise e, w)
  end.
Proof.
  unfold ConvertFeatureGraphic.convert_feature_graphic, canvas_from.
  unfold mbind at 1. unfold M_bind at 1.
  pose proof (Image_open_world input_path w) as Ho.
  destruct (Image_open input_path w) as [[img|e] w0]; cbn [fst snd] in *; subst w0;
    [|reflexivity].
  cbn [mbind result_bind]. unfold mbind at 1. unfold M_bind at 1.
  pose proof (load_world input_path w) as Hl.
  destruct (load input_path w) as [[[]|e] w0] eqn:El; cbn [fst snd] in *; subst w0.
  - assert (Hrgb : (if String.eqb (mode img) "RGB" then mret img
                    else load input_path;; mret (convert_RGB K img)) w =
                   (Ok (if String.eqb (mode img) "RGB" then img else convert_RGB K img), w)).
    { destruct (String.eqb (mode img) "RGB"); [reflexivity|].
      unfold mbind, M_bind. rewrite El. reflexivity. }
    rewrite Hrgb.
    replace (if String.eqb (mode img) "RGB" then Ok img
             else Ok tt;; Ok (convert_RGB K img))
      with (Ok (if String.eqb (mode img) "RGB" then img else convert_RGB K img))
      by (destruct (String.eqb (mode img) "RGB"); reflexivity).
    cbn [result_bind].
    set (im := if String.eqb (mode img) "RGB" then img else convert_RGB K img).
    destruct (size im) as [iw ih] eqn:Es. cbn [fst snd].
    unfold mbind, M_bind, lift, result_bind. rewrite ?Es. cbn [fst snd].
    destruct (Image_new (tw, th) (23, 20, 41)) as [new_img|e]; [|reflexivity].
    destruct (ConvertFeatureGraphic.scaled_size iw ih tw th) as [[[s nw] nh]|e];
      [|reflexivity].
    rewrite El.
    destruct (resize K im (nw, nh)) as [r|e]; [|reflexivity].
    destruct (ConvertFeatureGraphic.position tw th nw nh) as [x y].
    unfold mret, result_ret.
    destruct (save (paste new_img r (x, y)) output_path w) as [[[]|e] w']; reflexivity.
  - destruct (String.eqb (mode img) "RGB") eqn:Em.
    + cbn [mret M_ret result_bind].
      destruct (size img) as [iw ih] eqn:Es. cbn [fst snd].
      unfold mbind, M_bind, lift, result_bind. rewrite ?Es. cbn [fst snd].
      destruct (Image_new (tw, th) (23, 20, 41)) as [new_img|e0]; [|reflexivity].
      destruct (ConvertFeatureGraphic.scaled_size iw ih tw th) as [[[s nw] nh]|e0];
        [|reflexivity].
      rewrite El. reflexivity.
    + unfold mbind, M_bind. rewrite El. reflexivity.
Qed.

Lemma create_tablet_screenshot_from (K : kernels) (input_path output_path : string)
    (tw th : Z) (w : world) :
  ConvertScreenshots.create_tablet_screenshot K input_path output_path tw th w =
  match canvas_from K ConvertScreenshots.scaled_size ConvertScreenshots.position
          w input_path tw th with
  | Ok out =>
      save out output_path w
  | Raise e => (Raise e, w)
  end.
Proof.
  unfold ConvertScreenshots.create_tablet_screenshot, canvas_from.
  unfold mbind at 1. unfold M_bind at 1.
  pose proof (Image_open_world input_path w) as Ho.
  destruct (Image_open input_path w) as [[img|e] w0]; cbn [fst snd] in *; subst w0;
    [|reflexivity].
  cbn [mbind result_bind]. unfold mbind at 1. unfold M_bind at 1.
  pose proof (load_world input_path w) as Hl.
  destruct (load input_path w) as [[[]|e] w0] eqn:El; cbn [fst snd] in *; subst w0.
  - assert (Hrgb : (if String.eqb (mode img) "RGB" then mret img
                    else load input_path;; mret (convert_RGB K img)) w =
                   (Ok (if String.eqb (mode img) "RGB" then img else convert_RGB K img), w)).
    { destruct (String.eqb (mode img) "RGB"); [reflexivity|].
      unfold mbind, M_bind. rewrite El. reflexivity. }
    rewrite Hrgb.
    replace (if String.eqb (mode img) "RGB" then Ok img
             else Ok tt;; Ok (convert_RGB K img))
      with (Ok (if String.eqb (mode img) "RGB" then img else convert_RGB K img))
      by (destruct (String.eqb (mode img) "RGB"); reflexivity).
    cbn [result_bind].
    set (im := if String.eqb (mode img) "RGB" then img else convert_RGB K img).
    destruct (size im) as [iw ih] eqn:Es. cbn [fst snd].
    unfold mbind, M_bind, lift, result_bind. rewrite ?Es. cbn [fst snd].
    destruct (Image_new (tw, th) (23, 20, 41)) as [new_img|e]; [|reflexivity].
    destruct (ConvertScreenshots.scaled_size iw ih tw th) as [[[s nw] nh]|e];
      [|reflexivity].
    rewrite El.
    destruct (resize K im (nw, nh)) as [r|e]; [|reflexivity].
    destruct (ConvertScreenshots.position tw th nw nh) as [x y].
    unfold mret, result_ret.
    reflexivity.
  - destruct (String.eqb (mode img) "RGB") eqn:Em.
    + cbn [mret M_ret result_bind].
      destruct (size img) as [iw ih] eqn:Es. cbn [fst snd].
      unfold mbind, M_bind, lift, result_bind. rewrite ?Es. cbn [fst snd].
      destruct (Image_new (tw, th) (23, 20, 41)) as [new_img|e0]; [|reflexivity].
      destruct (ConvertScreenshots.scaled_size iw ih tw th) as [[[s nw] nh]|e0];
        [|reflexivity].
      rewrite El. reflexivity.
    + unfold mbind, M_bind. rewrite El. reflexivity.
Qed.

(** On a file that decodes, with a canvas that the library allocates, the
    canvas is the one that the scaled size and the position determine. *)
Lemma Image_new_blank (tw th : Z) (color : Z * Z * Z) :
  tw <= max_width -> Image_new (tw, th) color = blank_canvas (tw, th) color.
Proof.
  intros H. unfold Image_new, blank_canvas. cbn [fst snd].
  destruct ((tw <? 0) || (th <? 0)); [reflexivity|].
  replace (max_width <? tw) with false by (symmetry; apply Z.ltb_ge; lia).
  reflexivity.
Qed.

Lemma canvas_from_of (K : kernels)
    (scaled_size : Z -> Z -> Z -> Z -> result (spec_float * Z * Z))
    (position : Z -> Z -> Z -> Z -> Z * Z)
    (w : world) (path : string) (img : image) (tw th : Z) :
  files w !! path = Some (ImageFile img) -> source_ok img -> tw <= max_width ->
  canvas_from K scaled_size position w path tw th =
  canvas_of K scaled_size position img tw th.
Proof.
  intros Hf Hs Htw. unfold canvas_from, canvas_of.
  rewrite (Image_open_ok path w img Hf Hs), (load_ok path w img Hf). cbn [fst].
  rewrite (Image_new_blank tw th _ Htw). unfold as_rgb.
  cbn [mbind result_bind].
  destruct (String.eqb (mode img) "RGB"); cbn [mbind result_bind];
    (destruct (blank_canvas (tw, th) (23, 20, 41)) as [c|e]; [|reflexivity]);
    match goal with |- context [scaled_size ?a ?b tw th] =>
      destruct (scaled_size a b tw th) as [[[s nw] nh]|e] end; reflexivity.
Qed.

(** Either script on a file that decodes: the canvas is saved, or the
    exception of lines 16 to 34 leaves the world as it was. *)
Lemma convert_feature_graphic_run (K : kernels) (input_path output_path : string)
    (tw th : Z) (w : world) (img : image) :
  files w !! input_path = Some (ImageFile img) -> source_ok img -> tw <= max_width ->
  can_save w output_path ->
  ConvertFeatureGraphic.convert_feature_graphic K input_path output_path tw th w =
  match canvas_of K ConvertFeatureGraphic.scaled_size ConvertFeatureGraphic.position
          img tw th with
  | Ok out =>
      (Ok tt,
       {| files := <[output_path := ImageFile out]> (files w);
          dirs := add_entry output_path w;
          stdout := stdout w ++ ["Converted image size: " +:+ repr_size (size out)] |})
  | Raise e => (Raise e, w)
  end.
Proof.
  intros Hf Hs Htw Hsave. rewrite convert_feature_graphic_from.
  rewrite (canvas_from_of K _ _ w input_path img tw th Hf Hs Htw).
  destruct (canvas_of _ _ _ _ _ _) as [out|e]; [|reflexivity].
  rewrite (save_ok out output_path w Hsave). reflexivity.
Qed.


(** When the canvas cannot be built the run raises, wherever the output
    was to go. *)
Lemma convert_feature_graphic_refused (K : kernels) (input_path output_path : string)
    (tw th : Z) (w : world) (img : image) (e : exn) :
  files w !! input_path = Some (ImageFile img) -> source_ok img -> tw <= max_width ->
  canvas_of K ConvertFeatureGraphic.scaled_size ConvertFeatureGraphic.position
    img tw th = Raise e ->
  ConvertFeatureGraphic.convert_feature_graphic K input_path output_path tw th w =
  (Raise e, w).
Proof.
  intros Hf Hs Htw Hc. rewrite convert_feature_graphic_from.
  rewrite (canvas_from_of K _ _ w input_path img tw th Hf Hs Htw), Hc. reflexivity.
Qed.

Lemma create_tablet_screenshot_refused (K : kernels) (input_path output_path : string)
    (tw th : Z) (w : world) (img : image) (e : exn) :
  files w !! input_path = Some (ImageFile img) -> source_ok img -> tw <= max_width ->
  canvas_of K ConvertScreenshots.scaled_size ConvertScreenshots.position
    img tw th = Raise e ->
  ConvertScreenshots.create_tablet_screenshot K input_path output_path tw th w =
  (Raise e, w).
Proof.
  intros Hf Hs Htw Hc. rewrite create_tablet_screenshot_from.
  rewrite (canvas_from_of K _ _ w input_path img tw th Hf Hs Htw), Hc. reflexivity.
Qed.


(** *** The canvas *)

Section Canvas.
Variable K : kernels.
Variable scaled_size : Z -> Z -> Z -> Z -> result (spec_float * Z * Z).
Variable position : Z -> Z -> Z -> Z -> Z * Z.
Variables (img : image) (tw th : Z) (scale : spec_float) (nw nh : Z).
Hypothesis Hscaled :
  scaled_size (fst (size img)) (snd (size img)) tw th = Ok (scale, nw, nh).
Hypothesis Htw : 0 <= tw.
Hypothesis Hth : 0 <= th.

Lemma blank_canvas_ok :
  blank_canvas (tw, th) (23, 20, 41) =
  Ok {| mode := "RGB"; size := (tw, th); getpixel := fun _ _ => [23; 20; 41] |}.
Proof using Htw Hth.
  unfold blank_canvas. cbn [fst snd].
  replace (tw <? 0) with false by (symmetry; apply Z.ltb_ge; lia).
  replace (th <? 0) with false by (symmetry; apply Z.ltb_ge; lia).
  reflexivity.
Qed.

Lemma canvas_of_resized :
  canvas_of K scaled_size position img tw th =
  match resize K (as_rgb K img) (nw, nh) with
  | Ok resized =>
      Ok (paste {| mode := "RGB"; size := (tw, th);
                   getpixel := fun _ _ => [23; 20; 41] |}
                resized (position tw th nw nh))
  | Raise e => Raise e
  end.
Proof using Hscaled Htw Hth.
  unfold canvas_of. rewrite blank_canvas_ok. cbn [mbind result_bind].
  rewrite size_as_rgb, Hscaled. cbn [mbind result_bind].
  destruct (resize K (as_rgb K img) (nw, nh)); reflexivity.
Qed.

Lemma size_paste (canvas im : image) (pos : Z * Z) : size (paste canvas im pos) = size canvas.
Proof. unfold paste. destruct pos, (size im). reflexivity. Qed.


Lemma canvas_of_refused :
  0 < fst (size img) -> 0 < snd (size img) -> nw < 1 \/ nh < 1 ->
  canvas_of K scaled_size position img tw th =
  Raise (Exn "ValueError" "height and width must be > 0").
Proof using Hscaled Htw Hth.
  intros Hw Hh Hz. rewrite canvas_of_resized. unfold resize. cbn [fst snd].
  rewrite size_as_rgb.
  replace ((nw =? fst (size img)) && (nh =? snd (size img))) with false.
  2:{ symmetry. apply andb_false_iff.
      destruct Hz; [left | right]; apply Z.eqb_neq; lia. }
  replace ((nw <? 1) || (nh <? 1)) with true.
  2:{ symmetry. apply orb_true_iff.
      destruct Hz; [left | right]; apply Z.ltb_lt; lia. }
  reflexivity.
Qed.

End Canvas.

(** *** Degenerate sizes *)








Lemma feature_scaled_size_zero_source (w h tw th : Z) :
  w = 0 \/ h = 0 ->
  exists msg, ConvertFeatureGraphic.scaled_size w h tw th =
              Raise (Exn "ZeroDivisionError" msg).
Proof.
  intros Hz. unfold ConvertFeatureGraphic.scaled_size, truediv_int.
  destruct (Z.eqb_spec w 0) as [|Hw]; [eexists; reflexivity|].
  destruct (Z.eqb_spec h 0) as [|Hh]; [eexists; reflexivity|]. lia.
Qed.

Lemma tablet_scaled_size_zero_source (w h tw th : Z) :
  w = 0 \/ h = 0 ->
  exists msg, ConvertScreenshots.scaled_size w h tw th =
              Raise (Exn "ZeroDivisionError" msg).
Proof.
  intros Hz. unfold ConvertScreenshots.scaled_size, truediv_float.
  destruct (Z.eqb_spec w 0) as [|Hw]; [eexists; reflexivity|].
  destruct (Z.eqb_spec h 0) as [|Hh]; [eexists; reflexivity|]. lia.
Qed.

(** When the scaled size cannot be computed its exception is that of the
    canvas, and a negative target side is refused before anything else. *)
Lemma canvas_of_scaled_raises (K : kernels)
    (scaled_size : Z -> Z -> Z -> Z -> result (spec_float * Z * Z))
    (position : Z -> Z -> Z -> Z -> Z * Z) (img : image) (tw th : Z) (e : exn) :
  0 <= tw -> 0 <= th ->
  scaled_size (fst (size img)) (snd (size img)) tw th = Raise e ->
  canvas_of K scaled_size position img tw th = Raise e.
Proof.
  intros Htw Hth Hs. unfold canvas_of. rewrite (blank_canvas_ok tw th Htw Hth).
  cbn [mbind result_bind]. rewrite size_as_rgb, Hs. reflexivity.
Qed.

Lemma canvas_of_negative_target (K : kernels)
    (scaled_size : Z -> Z -> Z -> Z -> result (spec_float * Z * Z))
    (position : Z -> Z -> Z -> Z -> Z * Z) (img : image) (tw th : Z) :
  tw < 0 \/ th < 0 ->
  canvas_of K scaled_size position img tw th =
  Raise (Exn "ValueError" "Width and height must be >= 0").
Proof.
  intros Hz. unfold canvas_of, blank_canvas. cbn [fst snd].
  replace ((tw <? 0) || (th <? 0)) with true; [reflexivity|].
  symmetry. apply orb_true_iff. destruct Hz; [left | right]; apply Z.ltb_lt; lia.
Qed.


End RunFacts.

(** * Facts about the directories *)

Module DirFacts.

Lemma lookup_add_entry (path : string) (w : world) (k : string) :
  add_entry path w !! k =
  match dirs w !! k with
  | Some names =>
      Some (if String.eqb (path_join k (basename path)) path
               && negb (existsb (String.eqb (basename path)) names)
            then names ++ [basename path]
            else names)
  | None => None
  end.
Proof. unfold add_entry. rewrite map_lookup_imap. destruct (dirs w !! k); reflexivity. Qed.

Lemma dom_add_entry (path : string) (w : world) : dom (add_entry path w) = dom (dirs w).
Proof.
  apply set_eq. intros k. rewrite !elem_of_dom, lookup_add_entry.
  destruct (dirs w !! k); split; intros [x H]; eauto; discriminate H.
Qed.

Lemma listed_iff (w : world) (d : string) :
  listed w d = true <-> exists k, k ∈ dom (dirs w) /\ same_dir k d = true.
Proof.
  unfold listed. rewrite existsb_exists. split.
  - intros ([k l] & Hin & Hs). exists k. split; [|exact Hs].
    apply elem_of_dom. exists l. apply elem_of_map_to_list, list_elem_of_In. exact Hin.
  - intros (k & Hk & Hs). apply elem_of_dom in Hk as [l Hl].
    exists (k, l). split; [|exact Hs].
    apply list_elem_of_In, elem_of_map_to_list. exact Hl.
Qed.

Lemma listed_mono (w w' : world) (d : string) :
  dom (dirs w) ⊆ dom (dirs w') -> listed w d = true -> listed w' d = true.
Proof.
  intros Hsub H. apply listed_iff in H as (k & Hk & Hs).
  apply listed_iff. exists k. split; [apply Hsub; exact Hk | exact Hs].
Qed.

Lemma listed_dom (w w' : world) (d : string) :
  dom (dirs w) = dom (dirs w') -> listed w d = listed w' d.
Proof.
  intros H. apply eq_true_iff_eq. split; apply listed_mono; rewrite H; reflexivity.
Qed.

Lemma is_dir_dom (w w' : world) (d : string) :
  dom (dirs w) = dom (dirs w') -> is_dir w d = is_dir w' d.
Proof. intros H. unfold is_dir. rewrite (listed_dom w w' d H). reflexivity. Qed.

Lemma is_dir_mono (w w' : world) (d : string) :
  dom (dirs w) ⊆ dom (dirs w') -> is_dir w d = true -> is_dir w' d = true.
Proof.
  intros Hsub H. unfold is_dir in *. apply orb_true_iff in H as [H|H].
  - rewrite H. reflexivity.
  - rewrite (listed_mono w w' d Hsub H). apply orb_true_r.
Qed.

Lemma same_dir_refl (d : string) : same_dir d d = true.
Proof. unfold same_dir. apply String.eqb_refl. Qed.

Lemma listed_key (w : world) (d : string) : is_Some (dirs w !! d) -> listed w d = true.
Proof.
  intros H. apply listed_iff. exists d. split; [apply elem_of_dom; exact H|].
  apply same_dir_refl.
Qed.

Lemma is_dir_key (w : world) (d : string) : is_Some (dirs w !! d) -> is_dir w d = true.
Proof. intros H. unfold is_dir. rewrite (listed_key w d H). apply orb_true_r. Qed.

(** Printing changes neither the files nor the directories. *)
Lemma is_dir_stdout (w : world) (lines : list string) (d : string) :
  is_dir {| files := files w; dirs := dirs w; stdout := lines |} d = is_dir w d.
Proof. reflexivity. Qed.

(** A directory that holds no file stays one when a file is saved: [save]
    refuses its path. *)
Lemma save_keeps_made (img : image) (path : string) (w w' : world) (q : string) :
  save img path w = (Ok tt, w') -> made w q -> made w' q.
Proof.
  intros Hsave [Hq1 Hq2]. unfold save in Hsave.
  destruct (is_dir w path && negb (String.eqb path "")) eqn:E1; [discriminate Hsave|].
  destruct (is_dir w (dirname path) && negb (String.eqb path "")) eqn:E2.
  2:{ destruct (files w !! dirname path); discriminate Hsave. }
  injection Hsave as <-. unfold made. cbn [files dirs].
  assert (Hne : path <> q).
  { intros ->. rewrite (is_dir_key w q Hq2) in E1.
    apply andb_true_iff in E2 as [_ E2]. rewrite E2 in E1. discriminate E1. }
  rewrite lookup_insert_ne by exact Hne. split; [exact Hq1|].
  apply elem_of_dom. rewrite dom_add_entry. apply elem_of_dom. exact Hq2.
Qed.

(** *** [mkdir] *)

(** [mkdir] writes no file and prints nothing; a name that it enters in a
    listing is that of a directory it has made. *)
Lemma make_dirs_spec (path : string) (ds : list string) :
  forall leaf w w1,
    make_dirs leaf path ds w = Ok w1 ->
    files w1 = files w /\ stdout w1 = stdout w /\
    dom (dirs w) ⊆ dom (dirs w1) /\
    forall k names1, dirs w1 !! k = Some names1 ->
      forall f, In f names1 ->
        (exists names, dirs w !! k = Some names /\ In f names) \/ made w1 (path_join k f).
Proof.
  induction ds as [|d rest IH]; intros leaf w w1 H; cbn [make_dirs] in H.
  - injection H as <-. split; [reflexivity|]. split; [reflexivity|].
    split; [reflexivity|]. intros k names1 Hk f Hf. left. eauto.
  - destruct (is_dir w d) eqn:Ed.
    { injection H as <-. split; [reflexivity|]. split; [reflexivity|].
      split; [reflexivity|]. intros k names1 Hk f Hf. left. eauto. }
    destruct (files w !! d) eqn:Efd; [discriminate H|].
    destruct (make_dirs false path rest w) as [w'|e] eqn:Er; [|discriminate H].
    cbn [mbind result_bind] in H. injection H as <-.
    destruct (IH false w w' Er) as (Hf' & Hs' & Hsub & Hnew).
    unfold add_dir. cbn [files dirs stdout].
    split; [exact Hf'|]. split; [exact Hs'|].
    split.
    { rewrite dom_insert, dom_add_entry. set_solver. }
    intros k names1 Hk f Hf.
    destruct (decide (k = d)) as [->|Hne].
    { rewrite lookup_insert_eq in Hk. injection Hk as <-. destruct Hf. }
    rewrite lookup_insert_ne in Hk by congruence.
    rewrite lookup_add_entry in Hk.
    destruct (dirs w' !! k) as [l|] eqn:El; [|discriminate Hk].
    injection Hk as <-.
    assert (Hkeep : forall q, made w' q ->
              made {| files := files w';
                      dirs := <[d := []]> (add_entry d w');
                      stdout := stdout w' |} q).
    { intros q [Hq1 Hq2]. split; [exact Hq1|]. cbn [dirs].
      apply elem_of_dom. rewrite dom_insert, dom_add_entry.
      apply elem_of_union_r, elem_of_dom. exact Hq2. }
    assert (Hold : In f l ->
              (exists names, dirs w !! k = Some names /\ In f names) \/
              made {| files := files w';
                      dirs := <[d := []]> (add_entry d w');
                      stdout := stdout w' |} (path_join k f)).
    { intros Hin. destruct (Hnew k l El f Hin) as [H|H]; [left; exact H|].
      right. apply Hkeep. exact H. }
    destruct (String.eqb (path_join k (basename d)) d
                && negb (existsb (String.eqb (basename d)) l)) eqn:Ec.
    + apply in_app_or in Hf as [Hf | [<- | []]]; [apply Hold; exact Hf|].
      right. apply andb_true_iff in Ec as [Ec _]. apply String.eqb_eq in Ec.
      rewrite Ec. split; cbn [files dirs].
      * rewrite Hf'. exact Efd.
      * rewrite lookup_insert_eq. eauto.
    + apply Hold. exact Hf.
Qed.

Lemma mkdir_spec (path : string) (w : world) :
  (exists e, mkdir path w = (Raise e, w) /\
     (exn_class e = "FileExistsError"%string \/
      exn_class e = "NotADirectoryError"%string)) \/
  (exists w1, mkdir path w = (Ok tt, w1) /\
     files w1 = files w /\ stdout w1 = stdout w /\
     dom (dirs w) ⊆ dom (dirs w1) /\
     is_dir w1 (rstrip_slash path) = true /\
     forall k names1, dirs w1 !! k = Some names1 ->
       forall f, In f names1 ->
         (exists names, dirs w !! k = Some names /\ In f names) \/
         made w1 (path_join k f)).
Proof.
  unfold mkdir.
  destruct (make_dirs true (rstrip_slash path) _ w) as [w1|e] eqn:E.
  - right. exists w1. split; [reflexivity|].
    destruct (make_dirs_spec _ _ _ _ _ E) as (H1 & H2 & H3 & H4).
    repeat (split; [assumption|]). split; [|exact H4].
    cbn [make_dirs] in E.
    destruct (is_dir w (rstrip_slash path)) eqn:Ed.
    + injection E as <-. exact Ed.
    + destruct (files w !! rstrip_slash path); [discriminate E|].
      destruct (make_dirs false _ _ w) as [w'|e']; [|discriminate E].
      cbn [mbind result_bind] in E. injection E as <-.
      apply is_dir_key. unfold add_dir. cbn [dirs]. rewrite lookup_insert_eq. eauto.
  - left. exists e. split; [reflexivity|].
    assert (G : forall ds leaf w0 e0,
              make_dirs leaf (rstrip_slash path) ds w0 = Raise e0 ->
              exn_class e0 = "FileExistsError"%string \/
              exn_class e0 = "NotADirectoryError"%string).
    { induction ds as [|d rest IH]; intros leaf w0 e0 H0; cbn [make_dirs] in H0.
      - discriminate H0.
      - destruct (is_dir w0 d); [discriminate H0|].
        destruct (files w0 !! d).
        + injection H0 as <-. destruct leaf; [left | right]; reflexivity.
        + destruct (make_dirs false _ rest w0) as [w'|e'] eqn:Er.
          * discriminate H0.
          * cbn [mbind result_bind] in H0. injection H0 as <-. exact (IH _ _ _ Er). }
    exact (G _ _ _ _ E).
Qed.

End DirFacts.

(** * Facts about the batch *)

Module BatchFacts.
Import Float64 Float64Facts FitFacts RunFacts DirFacts.
Import ConvertScreenshots.

Lemma create_tablet_screenshot_attempt (K : kernels) (input_path output_path : string)
    (w : world) :
  create_tablet_screenshot K input_path output_path 1920 1080 w =
  match attempt K w input_path output_path with
  | Ok c =>
      (Ok tt,
       {| files := <[output_path := ImageFile c]> (files w);
          dirs := add_entry output_path w; stdout := stdout w |})
  | Raise e => (Raise e, w)
  end.
Proof.
  rewrite create_tablet_screenshot_from. unfold attempt, converts.
  destruct (canvas_from _ _ _ _ _ _ _) as [c|e]; [|reflexivity].
  cbn [mbind result_bind].
  destruct (save_cases c output_path w) as [(e & H) | H]; rewrite H; reflexivity.
Qed.

Lemma process_one_skip (K : kernels) (inp out filename : string) (w : world) :
  is_image_name filename = false -> process_one K inp out filename w = (Ok tt, w).
Proof. intros H. unfold process_one. rewrite H. reflexivity. Qed.

Lemma converts_ext (K : kernels) (w w0 : world) (path : string) :
  files w !! path = files w0 !! path -> dom (dirs w) = dom (dirs w0) ->
  converts K w path = converts K w0 path.
Proof.
  intros Hf Hd. unfold converts, canvas_from.
  assert (Ho : fst (Image_open path w) = fst (Image_open path w0)).
  { unfold Image_open. rewrite Hf, (is_dir_dom w w0 path Hd).
    destruct (files w0 !! path) as [[img|img msg|]|]; try reflexivity.
    - destruct (size img) as [a b]. destruct ((a <? 1) || (b <? 1)); [reflexivity|].
      destruct (max_pixels <? a * b); reflexivity.
    - destruct (size img) as [a b]. destruct ((a <? 1) || (b <? 1)); [reflexivity|].
      destruct (max_pixels <? a * b); reflexivity.
    - destruct (is_dir w0 path && negb (String.eqb path "")); reflexivity. }
  assert (Hl : fst (load path w) = fst (load path w0)).
  { unfold load. rewrite Hf.
    destruct (files w0 !! path) as [[img|img msg|]|]; reflexivity. }
  rewrite Ho, Hl. reflexivity.
Qed.


Lemma attempt_stdout (K : kernels) (w : world) (lines : list string)
    (input_path output_path : string) :
  attempt K {| files := files w; dirs := dirs w; stdout := lines |}
    input_path output_path =
  attempt K w input_path output_path.
Proof.
  unfold attempt.
  rewrite (converts_ext K {| files := files w; dirs := dirs w; stdout := lines |} w
             input_path eq_refl eq_refl).
  destruct (converts K w input_path) as [c|e]; [|reflexivity].
  cbn [mbind result_bind]. unfold save. rewrite !is_dir_stdout. cbn [files].
  destruct (is_dir w output_path && negb (String.eqb output_path "")); [reflexivity|].
  destruct (is_dir w (dirname output_path) && negb (String.eqb output_path ""));
    [reflexivity|].
  destruct (files w !! dirname output_path); reflexivity.
Qed.

Lemma process_one_image (K : kernels) (inp out filename : string) (w : world) :
  is_image_name filename = true ->
  process_one K inp out filename w =
  match attempt K w (path_join inp filename) (output_path_of out filename) with
  | Ok c =>
      (Ok tt,
       {| files := <[output_path_of out filename := ImageFile c]> (files w);
          dirs := add_entry (output_path_of out filename) w;
          stdout := stdout w ++ [("Converting " +:+ filename +:+ "...")%string;
                                 ("Successfully converted " +:+ filename)%string] |})
  | Raise e =>
      (Ok tt,
       {| files := files w;
          dirs := dirs w;
          stdout := stdout w ++ [("Converting " +:+ filename +:+ "...")%string;
                                 ("Error converting " +:+ filename +:+ ": "
                                    +:+ exn_str e)%string] |})
  end.
Proof.
  intros H. unfold process_one. rewrite H.
  unfold try_except, mbind, M_bind, print. cbn [files dirs stdout].
  rewrite create_tablet_screenshot_attempt, attempt_stdout.
  destruct (attempt K w (path_join inp filename) (output_path_of out filename));
    cbn [files dirs stdout]; rewrite <- app_assoc; reflexivity.
Qed.





(** The loop never raises, whatever the files are. *)
Lemma for_each_total (K : kernels) (inp out : string) (names : list string) :
  forall w, exists w' lines,
    for_each names (process_one K inp out) w = (Ok tt, w') /\
    dom (dirs w') = dom (dirs w) /\ stdout w' = stdout w ++ lines /\
    batch_log names lines.
Proof.
  induction names as [|f names IH]; intros w.
  - exists w, []. cbn. rewrite app_nil_r. repeat split. constructor.
  - cbn [for_each]. unfold mbind, M_bind.
    destruct (is_image_name f) eqn:Him.
    + rewrite (process_one_image K inp out f w Him).
      destruct (attempt K w (path_join inp f) (output_path_of out f)) as [c|e].
      * match goal with |- context [for_each names _ ?w1] =>
          destruct (IH w1) as (w' & lines & Hrun & Hd & Hs & Hl) end.
        exists w', (("Converting " +:+ f +:+ "...")%string
                      :: ("Successfully converted " +:+ f)%string :: lines).
        rewrite Hrun. cbn [dirs stdout] in Hd, Hs.
        split; [reflexivity|]. split; [rewrite Hd; apply dom_add_entry|].
        split; [rewrite Hs, <- app_assoc; reflexivity|].
        apply log_success; assumption.
      * match goal with |- context [for_each names _ ?w1] =>
          destruct (IH w1) as (w' & lines & Hrun & Hd & Hs & Hl) end.
        exists w', (("Converting " +:+ f +:+ "...")%string
                      :: ("Error converting " +:+ f +:+ ": " +:+ exn_str e)%string :: lines).
        rewrite Hrun. cbn [dirs stdout] in Hd, Hs.
        split; [reflexivity|]. split; [exact Hd|].
        split; [rewrite Hs, <- app_assoc; reflexivity|].
        apply log_failure; assumption.
    + rewrite (process_one_skip K inp out f w Him).
      destruct (IH w) as (w' & lines & Hrun & Hd & Hs & Hl).
      exists w', lines. rewrite Hrun. repeat split; try assumption.
      apply log_skip; assumption.
Qed.




End BatchFacts.

Import Float64 Float64Facts FitFacts RunFacts DirFacts BatchFacts.

(** * The claims of the specification *)


Lemma canvas_ok_dim (tw th : Z) :
  canvas_ok tw th -> dim_ok tw /\ dim_ok th /\ tw <= max_width.
Proof.
  intros (H1 & H2 & H3). unfold dim_ok, max_pixels, max_width in *.
  repeat split; nia.
Qed.

Lemma canvas_ok_source (img : image) (tw th : Z) :
  size img = (tw, th) -> canvas_ok tw th -> source_ok img.
Proof. intros Hs (H1 & H2 & H3). unfold source_ok. rewrite Hs. cbn. lia. Qed.






(** C2.  For every source and canvas with positive sides, the scaled size of
    either script is the formula of the specification, with fill fractions
    1.0 and 1.0 for the feature graphic and 0.8 and 0.9 for the tablet
    screenshot. *)
Theorem scaled_size_is_formula (w h tw th : Z) :
  dim_ok w -> dim_ok h -> dim_ok tw -> dim_ok th ->
  ConvertFeatureGraphic.scaled_size w h tw th = Spec.fit one one w h tw th /\
  ConvertScreenshots.scaled_size w h tw th = Spec.fit lit_0_8 lit_0_9 w h tw th.
Proof.
  intros Hw Hh Htw Hth. split; [|reflexivity].
  assert (Hone : forall t, dim_ok t -> mul_int_float t one = of_int t).
  { intros t Ht. destruct (of_int_spec t (dim_ok_53 t Ht)) as (e & Hn & He & _).
    unfold mul_int_float. apply (mul_one _ e Hn). lia. }
  unfold ConvertFeatureGraphic.scaled_size, Spec.fit, truediv_int, truediv_float.
  rewrite (Hone tw Htw), (Hone th Hth).
  destruct Hw, Hh.
  replace (w =? 0) with false by (symmetry; apply Z.eqb_neq; lia).
  replace (h =? 0) with false by (symmetry; apply Z.eqb_neq; lia).
  reflexivity.
Qed.

Lemma scaled_size_is_formula_witness :
  (dim_ok 2000 /\ dim_ok 1000 /\ dim_ok 1024 /\ dim_ok 500) /\
  ConvertFeatureGraphic.scaled_size 2000 1000 1024 500 = Spec.fit one one 2000 1000 1024 500 /\
  ConvertScreenshots.scaled_size 2000 1000 1024 500 =
    Spec.fit lit_0_8 lit_0_9 2000 1000 1024 500.
Proof.
  assert (H : dim_ok 2000 /\ dim_ok 1000 /\ dim_ok 1024 /\ dim_ok 500)
    by (unfold dim_ok; lia).
  split; [exact H|]. destruct H as (H1 & H2 & H3 & H4).
  exact (scaled_size_is_formula 2000 1000 1024 500 H1 H2 H3 H4).
Defined.

(** C3 (as amended).  For every source and canvas with positive sides, the
    scaled width is at most the target width times the horizontal fill
    fraction and the scaled height at most the target height times the
    vertical one, and one of the two is less than its bound by at most one
    pixel (the fractions are 1 and 1, or 4/5 and 9/10). *)
Theorem scaled_size_within_fill (w h tw th : Z) :
  dim_ok w -> dim_ok h -> dim_ok tw -> dim_ok th ->
  (exists scale new_width new_height,
     ConvertFeatureGraphic.scaled_size w h tw th = Ok (scale, new_width, new_height) /\
     new_width <= tw /\ new_height <= th /\
     (tw - 1 <= new_width \/ th - 1 <= new_height)) /\
  (exists scale new_width new_height,
     ConvertScreenshots.scaled_size w h tw th = Ok (scale, new_width, new_height) /\
     5 * new_width <= 4 * tw /\ 10 * new_height <= 9 * th /\
     (4 * tw - 5 <= 5 * new_width \/ 9 * th - 10 <= 10 * new_height)).
Proof.
  intros Hw Hh Htw Hth. split.
  - destruct (feature_scaled_size_bounds w h tw th Hw Hh Htw Hth)
      as (s & nw & nh & Hs & H1 & H2 & H3 & _).
    exists s, nw, nh. auto.
  - destruct (tablet_scaled_size_bounds w h tw th Hw Hh Htw Hth)
      as (s & nw & nh & Hs & H1 & H2 & H3 & _).
    exists s, nw, nh. auto.
Qed.

Lemma scaled_size_within_fill_witness :
  (dim_ok 1080 /\ dim_ok 2400 /\ dim_ok 1920 /\ dim_ok 1080) /\
  (exists scale new_width new_height,
     ConvertFeatureGraphic.scaled_size 1080 2400 1920 1080 =
       Ok (scale, new_width, new_height) /\
     new_width <= 1920 /\ new_height <= 1080 /\
     (1920 - 1 <= new_width \/ 1080 - 1 <= new_height)) /\
  (exists scale new_width new_height,
     ConvertScreenshots.scaled_size 1080 2400 1920 1080 =
       Ok (scale, new_width, new_height) /\
     5 * new_width <= 4 * 1920 /\ 10 * new_height <= 9 * 1080 /\
     (4 * 1920 - 5 <= 5 * new_width \/ 9 * 1080 - 10 <= 10 * new_height)).
Proof.
  assert (H : dim_ok 1080 /\ dim_ok 2400 /\ dim_ok 1920 /\ dim_ok 1080)
    by (unfold dim_ok; lia).
  split; [exact H|]. destruct H as (H1 & H2 & H3 & H4).
  exact (scaled_size_within_fill 1080 2400 1920 1080 H1 H2 H3 H4).
Defined.

(** C3, counterexample.  For a source of 49 by 1 pixels on the 1024 by 500
    canvas the scaled size is 1023 by 20: neither side touches its bound
    exactly. *)
Lemma limiting_side_not_exact :
  ~ (exists scale new_width new_height,
       ConvertFeatureGraphic.scaled_size 49 1 1024 500 =
         Ok (scale, new_width, new_height) /\
       (new_width = 1024 \/ new_height = 500)).
Proof.
  intros (s & nw & nh & Hs & Hex).
  vm_compute in Hs. injection Hs as _ <- <-. lia.
Qed.

Lemma centred (t n : Z) :
  Z.abs ((t - n) / 2 + n + (t - n) / 2 - t) <= 1 /\
  0 <= (t - n - (t - n) / 2) - (t - n) / 2 <= 1 /\
  (n <= t -> 0 <= (t - n) / 2).
Proof.
  pose proof (Z.div_mod (t - n) 2 ltac:(lia)).
  pose proof (Z.mod_pos_bound (t - n) 2 ltac:(lia)).
  repeat split; lia.
Qed.

(** C4.  For every source and canvas with positive sides, both scripts paste
    the scaled image at the offsets [(target - scaled) // 2] of each axis;
    the offsets are not negative, and twice the offset plus the scaled side
    differs from the target side by at most one pixel, so that the padding
    before and after the image differs by at most one pixel. *)
Theorem offsets_centre (K : kernels) (img : image) (tw th : Z) :
  dim_ok (fst (size img)) -> dim_ok (snd (size img)) -> dim_ok tw -> dim_ok th ->
  (exists scale new_width new_height,
     ConvertFeatureGraphic.scaled_size (fst (size img)) (snd (size img)) tw th =
       Ok (scale, new_width, new_height) /\
     ConvertFeatureGraphic.position tw th new_width new_height =
       ((tw - new_width) / 2, (th - new_height) / 2) /\
     canvas_of K ConvertFeatureGraphic.scaled_size ConvertFeatureGraphic.position
       img tw th =
       match resize K (as_rgb K img) (new_width, new_height) with
       | Ok resized =>
           Ok (paste {| mode := "RGB"; size := (tw, th);
                        getpixel := fun _ _ => [23; 20; 41] |}
                 resized ((tw - new_width) / 2, (th - new_height) / 2))
       | Raise e => Raise e
       end /\
     0 <= (tw - new_width) / 2 /\ 0 <= (th - new_height) / 2 /\
     Z.abs ((tw - new_width) / 2 + new_width + (tw - new_width) / 2 - tw) <= 1 /\
     Z.abs ((th - new_height) / 2 + new_height + (th - new_height) / 2 - th) <= 1) /\
  (exists scale new_width new_height,
     ConvertScreenshots.scaled_size (fst (size img)) (snd (size img)) tw th =
       Ok (scale, new_width, new_height) /\
     ConvertScreenshots.position tw th new_width new_height =
       ((tw - new_width) / 2, (th - new_height) / 2) /\
     canvas_of K ConvertScreenshots.scaled_size ConvertScreenshots.position
       img tw th =
       match resize K (as_rgb K img) (new_width, new_height) with
       | Ok resized =>
           Ok (paste {| mode := "RGB"; size := (tw, th);
                        getpixel := fun _ _ => [23; 20; 41] |}
                 resized ((tw - new_width) / 2, (th - new_height) / 2))
       | Raise e => Raise e
       end /\
     0 <= (tw - new_width) / 2 /\ 0 <= (th - new_height) / 2 /\
     Z.abs ((tw - new_width) / 2 + new_width + (tw - new_width) / 2 - tw) <= 1 /\
     Z.abs ((th - new_height) / 2 + new_height + (th - new_height) / 2 - th) <= 1).
Proof.
  intros Hw Hh Htw Hth. split.
  - destruct (feature_scaled_size_bounds _ _ tw th Hw Hh Htw Hth)
      as (s & nw & nh & Hs & H1 & H2 & _).
    exists s, nw, nh. split; [exact Hs|]. split; [reflexivity|].
    split.
    { rewrite (canvas_of_resized K _ ConvertFeatureGraphic.position img tw th s nw nh Hs);
        try (unfold dim_ok in *; lia). reflexivity. }
    destruct (centred tw nw) as (A1 & _ & A3), (centred th nh) as (B1 & _ & B3).
    repeat split; auto.
  - destruct (tablet_scaled_size_bounds _ _ tw th Hw Hh Htw Hth)
      as (s & nw & nh & Hs & H1 & H2 & _).
    exists s, nw, nh. split; [exact Hs|]. split; [reflexivity|].
    split.
    { rewrite (canvas_of_resized K _ ConvertScreenshots.position img tw th s nw nh Hs);
        try (unfold dim_ok in *; lia). reflexivity. }
    destruct (centred tw nw) as (A1 & _ & A3), (centred th nh) as (B1 & _ & B3).
    unfold dim_ok in *. repeat split; auto; [apply A3 | apply B3]; lia.
Qed.

Lemma offsets_centre_witness :
  (dim_ok (fst (size phone_shot)) /\ dim_ok (snd (size phone_shot)) /\
   dim_ok 1920 /\ dim_ok 1080) /\
  (exists scale new_width new_height,
     ConvertFeatureGraphic.scaled_size (fst (size phone_shot)) (snd (size phone_shot))
       1920 1080 = Ok (scale, new_width, new_height) /\
     ConvertFeatureGraphic.position 1920 1080 new_width new_height =
       ((1920 - new_width) / 2, (1080 - new_height) / 2) /\
     canvas_of sample_kernels ConvertFeatureGraphic.scaled_size
       ConvertFeatureGraphic.position phone_shot 1920 1080 =
       match resize sample_kernels (as_rgb sample_kernels phone_shot)
               (new_width, new_height) with
       | Ok resized =>
           Ok (paste {| mode := "RGB"; size := (1920, 1080);
                        getpixel := fun _ _ => [23; 20; 41] |}
                 resized ((1920 - new_width) / 2, (1080 - new_height) / 2))
       | Raise e => Raise e
       end /\
     0 <= (1920 - new_width) / 2 /\ 0 <= (1080 - new_height) / 2 /\
     Z.abs ((1920 - new_width) / 2 + new_width + (1920 - new_width) / 2 - 1920) <= 1 /\
     Z.abs ((1080 - new_height) / 2 + new_height + (1080 - new_height) / 2 - 1080) <= 1) /\
  (exists scale new_width new_height,
     ConvertScreenshots.scaled_size (fst (size phone_shot)) (snd (size phone_shot))
       1920 1080 = Ok (scale, new_width, new_height) /\
     ConvertScreenshots.position 1920 1080 new_width new_height =
       ((1920 - new_width) / 2, (1080 - new_height) / 2) /\
     canvas_of sample_kernels ConvertScreenshots.scaled_size
       ConvertScreenshots.position phone_shot 1920 1080 =
       match resize sample_kernels (as_rgb sample_kernels phone_shot)
               (new_width, new_height) with
       | Ok resized =>
           Ok (paste {| mode := "RGB"; size := (1920, 1080);
                        getpixel := fun _ _ => [23; 20; 41] |}
                 resized ((1920 - new_width) / 2, (1080 - new_height) / 2))
       | Raise e => Raise e
       end /\
     0 <= (1920 - new_width) / 2 /\ 0 <= (1080 - new_height) / 2 /\
     Z.abs ((1920 - new_width) / 2 + new_width + (1920 - new_width) / 2 - 1920) <= 1 /\
     Z.abs ((1080 - new_height) / 2 + new_height + (1080 - new_height) / 2 - 1080) <= 1).
Proof.
  assert (H : dim_ok (fst (size phone_shot)) /\ dim_ok (snd (size phone_shot)) /\
              dim_ok 1920 /\ dim_ok 1080) by (cbn; unfold dim_ok; lia).
  split; [exact H|]. destruct H as (H1 & H2 & H3 & H4).
  exact (offsets_centre sample_kernels phone_shot 1920 1080 H1 H2 H3 H4).
Defined.

(** C8.  The two worked examples of the specification: 2000 by 1000 on the
    1024 by 500 canvas gives scale 0.5, size 1000 by 500 and offset (12, 0);
    1080 by 2400 on the 1920 by 1080 canvas with fill 0.8 and 0.9 gives
    scale 972/2400 (the double nearest to 0.405), size 437 by 972 and
    offset (741, 54).  The scales are written as mantissa and exponent:
    2^52 * 2^-53 is 0.5, and 7295831396340204 * 2^-54 is the double that
    both 972/2400 and 405/1000 round to. *)
Theorem worked_examples :
  ConvertFeatureGraphic.scaled_size 2000 1000 1024 500 =
    Ok (S754_finite false 4503599627370496 (-53), 1000, 500) /\
  S754_finite false 4503599627370496 (-53) = div (of_int 1) (of_int 2) /\
  ConvertFeatureGraphic.position 1024 500 1000 500 = (12, 0) /\
  ConvertScreenshots.scaled_size 1080 2400 1920 1080 =
    Ok (S754_finite false 7295831396340204 (-54), 437, 972) /\
  S754_finite false 7295831396340204 (-54) = div (of_int 972) (of_int 2400) /\
  S754_finite false 7295831396340204 (-54) = div (of_int 405) (of_int 1000) /\
  ConvertScreenshots.position 1920 1080 437 972 = (741, 54).
Proof. repeat split; vm_compute; reflexivity. Qed.

(** C9 (as amended).  For every source whose width is strictly less than
    the target width times the horizontal fill fraction and whose height is
    strictly less than the target height times the vertical one, the scale
    is strictly greater than 1.0: it is not clamped.  Neither scaled side is
    smaller than the side of the source or larger than its bound, one of
    them is within one pixel of its bound, and so the image is enlarged
    along some side whenever both sides of the source are more than one
    pixel short of their bounds. *)
Theorem small_source_is_upscaled (w h tw th : Z) :
  dim_ok w -> dim_ok h -> dim_ok tw -> dim_ok th ->
  (w < tw -> h < th ->
   exists scale new_width new_height,
     ConvertFeatureGraphic.scaled_size w h tw th = Ok (scale, new_width, new_height) /\
     ltb one scale = true /\
     w <= new_width <= tw /\ h <= new_height <= th /\
     (tw - 1 <= new_width \/ th - 1 <= new_height) /\
     (w + 1 < tw -> h + 1 < th -> w < new_width \/ h < new_height)) /\
  (5 * w < 4 * tw -> 10 * h < 9 * th ->
   exists scale new_width new_height,
     ConvertScreenshots.scaled_size w h tw th = Ok (scale, new_width, new_height) /\
     ltb one scale = true /\
     w <= new_width /\ 5 * new_width <= 4 * tw /\
     h <= new_height /\ 10 * new_height <= 9 * th /\
     (4 * tw - 5 <= 5 * new_width \/ 9 * th - 10 <= 10 * new_height) /\
     (5 * w + 5 < 4 * tw -> 10 * h + 10 < 9 * th -> w < new_width \/ h < new_height)).
Proof.
  intros Hw Hh Htw Hth. split; intros Hlw Hlh.
  - destruct (feature_scaled_size_bounds w h tw th Hw Hh Htw Hth)
      as (s & nw & nh & Hs & H1 & H2 & H3 & H4).
    destruct (H4 Hlw Hlh) as (G1 & G2 & G3).
    exists s, nw, nh. repeat split; try assumption. lia.
  - destruct (tablet_scaled_size_bounds w h tw th Hw Hh Htw Hth)
      as (s & nw & nh & Hs & H1 & H2 & H3 & H4).
    destruct (H4 Hlw Hlh) as (G1 & G2 & G3).
    exists s, nw, nh. repeat split; try assumption. lia.
Qed.

Lemma small_source_is_upscaled_witness :
  (dim_ok 100 /\ dim_ok 100 /\ dim_ok 1024 /\ dim_ok 500 /\
   100 < 1024 /\ 100 < 500 /\ 5 * 100 < 4 * 1024 /\ 10 * 100 < 9 * 500) /\
  (exists scale new_width new_height,
     ConvertFeatureGraphic.scaled_size 100 100 1024 500 =
       Ok (scale, new_width, new_height) /\
     ltb one scale = true /\
     100 <= new_width <= 1024 /\ 100 <= new_height <= 500 /\
     (1024 - 1 <= new_width \/ 500 - 1 <= new_height) /\
     (100 + 1 < 1024 -> 100 + 1 < 500 -> 100 < new_width \/ 100 < new_height)) /\
  (exists scale new_width new_height,
     ConvertScreenshots.scaled_size 100 100 1024 500 =
       Ok (scale, new_width, new_height) /\
     ltb one scale = true /\
     100 <= new_width /\ 5 * new_width <= 4 * 1024 /\
     100 <= new_height /\ 10 * new_height <= 9 * 500 /\
     (4 * 1024 - 5 <= 5 * new_width \/ 9 * 500 - 10 <= 10 * new_height) /\
     (5 * 100 + 5 < 4 * 1024 -> 10 * 100 + 10 < 9 * 500 ->
      100 < new_width \/ 100 < new_height)).
Proof.
  assert (H : dim_ok 100 /\ dim_ok 100 /\ dim_ok 1024 /\ dim_ok 500 /\
              100 < 1024 /\ 100 < 500 /\ 5 * 100 < 4 * 1024 /\ 10 * 100 < 9 * 500)
    by (unfold dim_ok; lia).
  split; [exact H|]. destruct H as (H1 & H2 & H3 & H4 & H5 & H6 & H7 & H8).
  destruct (small_source_is_upscaled 100 100 1024 500 H1 H2 H3 H4) as [Hf Ht].
  split; [exact (Hf H5 H6) | exact (Ht H7 H8)].
Defined.

(** C9, counterexample.  A source of 100 by 499 pixels is smaller than the
    1024 by 500 canvas on both axes and its scale, 500/499, is greater than
    one; yet its scaled size is 100 by 499: the source is not enlarged. *)
Lemma small_source_not_enlarged :
  (exists scale,
     ConvertFeatureGraphic.scaled_size 100 499 1024 500 = Ok (scale, 100, 499) /\
     ltb one scale = true) /\
  ~ (exists scale new_width new_height,
       ConvertFeatureGraphic.scaled_size 100 499 1024 500 =
         Ok (scale, new_width, new_height) /\
       (100 < new_width \/ 499 < new_height)).
Proof.
  split.
  - eexists. split; vm_compute; reflexivity.
  - intros (s & nw & nh & Hs & Hex).
    vm_compute in Hs. injection Hs as _ <- <-. lia.
Qed.

Lemma int_of_int (t : Z) : dim_ok t -> int_ (mul_int_float t one) = Ok t.
Proof.
  intros Ht. destruct (of_int_spec t (dim_ok_53 t Ht)) as (e & Hn & He & Hnum).
  unfold mul_int_float. rewrite (mul_one _ e Hn) by lia.
  unfold int_. rewrite (to_int_spec _ e Hn) by lia.
  rewrite Hnum, Z.div_mul; [reflexivity|]. pose proof unit_pos. lia.
Qed.

Lemma feature_scaled_size_same (tw th : Z) :
  dim_ok tw -> dim_ok th ->
  ConvertFeatureGraphic.scaled_size tw th tw th = Ok (one, tw, th).
Proof.
  intros Htw Hth.
  destruct (of_int_spec tw (dim_ok_53 tw Htw)) as (e1 & Hn1 & He1 & _).
  destruct (of_int_spec th (dim_ok_53 th Hth)) as (e2 & Hn2 & He2 & _).
  unfold ConvertFeatureGraphic.scaled_size, truediv_int.
  destruct Htw, Hth.
  replace (tw =? 0) with false by (symmetry; apply Z.eqb_neq; lia).
  replace (th =? 0) with false by (symmetry; apply Z.eqb_neq; lia).
  rewrite (div_self _ e1 Hn1), (div_self _ e2 Hn2) by lia.
  cbn [mbind result_bind]. change (min one one) with one.
  rewrite !int_of_int by (split; assumption). reflexivity.
Qed.


(** * Facts about the exceptions *)

Module ErrorFacts.
Import Float64 Float64Facts FitFacts RunFacts DirFacts.



















End ErrorFacts.

Import ErrorFacts.

(** C6 (as amended).  In the feature-graphic script, a source that already
    has the size of the canvas gets scale 1.0 and offsets (0, 0), and, for a
    canvas that the library accepts and an output path in a directory that
    exists, the saved image has at every pixel of the canvas the pixel of
    the source (after its conversion to RGB, when it was not RGB).  In the
    tablet script a source of 1920 by 1080 pixels on the canvas of that size
    gets scale 0.8, size 1536 by 864 and offsets (192, 108). *)
Theorem same_size_is_identity (K : kernels) (input_path output_path : string)
    (w : world) (img : image) (tw th : Z) :
  files w !! input_path = Some (ImageFile img) ->
  size img = (tw, th) -> canvas_ok tw th -> can_save w output_path ->
  ConvertFeatureGraphic.scaled_size tw th tw th = Ok (one, tw, th) /\
  ConvertFeatureGraphic.position tw th tw th = (0, 0) /\
  (exists w' out,
     ConvertFeatureGraphic.convert_feature_graphic K input_path output_path tw th w =
       (Ok tt, w') /\
     files w' !! output_path = Some (ImageFile out) /\
     size out = (tw, th) /\
     forall x y, 0 <= x < tw -> 0 <= y < th ->
       getpixel out x y = getpixel (as_rgb K img) x y) /\
  ConvertScreenshots.scaled_size 1920 1080 1920 1080 = Ok (lit_0_8, 1536, 864) /\
  ConvertScreenshots.position 1920 1080 1536 864 = (192, 108).
Proof.
  intros Hf Hsz Hcan Hsave.
  destruct (canvas_ok_dim tw th Hcan) as (Htw & Hth & Hmax).
  pose proof (canvas_ok_source img tw th Hsz Hcan) as Hsrc.
  pose proof (feature_scaled_size_same tw th Htw Hth) as Hs.
  split; [exact Hs|].
  assert (Hpos : ConvertFeatureGraphic.position tw th tw th = (0, 0)).
  { unfold ConvertFeatureGraphic.position, floordiv. rewrite !Z.sub_diag. reflexivity. }
  split; [exact Hpos|].
  split; [|split; vm_compute; reflexivity].
  rewrite (convert_feature_graphic_run K _ _ tw th w img Hf Hsrc Hmax Hsave).
  rewrite (canvas_of_resized K ConvertFeatureGraphic.scaled_size
             ConvertFeatureGraphic.position img tw th one tw th);
    [| rewrite Hsz; exact Hs | unfold dim_ok in *; lia | unfold dim_ok in *; lia].
  unfold resize. rewrite size_as_rgb, Hsz. cbn [fst snd]. rewrite !Z.eqb_refl.
  cbn [andb]. rewrite Hpos.
  eexists _, _. split; [reflexivity|]. split; [cbn [files]; apply lookup_insert_eq|].
  split; [apply size_paste|].
  intros x y Hx Hy. unfold paste. rewrite size_as_rgb, Hsz. cbn [getpixel].
  replace ((0 <=? x) && (x <? 0 + tw) && (0 <=? y) && (y <? 0 + th)) with true.
  - rewrite !Z.sub_0_r. reflexivity.
  - symmetry. rewrite !andb_true_iff.
    repeat split; try (apply Z.leb_le; lia); apply Z.ltb_lt; lia.
Qed.

Lemma same_size_is_identity_witness :
  (files (world_with (plain "RGB" (1024, 500))) !! "in.png"%string =
     Some (ImageFile (plain "RGB" (1024, 500))) /\
   size (plain "RGB" (1024, 500)) = (1024, 500) /\ canvas_ok 1024 500 /\
   can_save (world_with (plain "RGB" (1024, 500))) "out.png") /\
  ConvertFeatureGraphic.scaled_size 1024 500 1024 500 = Ok (one, 1024, 500) /\
  ConvertFeatureGraphic.position 1024 500 1024 500 = (0, 0) /\
  (exists w' out,
     ConvertFeatureGraphic.convert_feature_graphic sample_kernels "in.png" "out.png"
       1024 500 (world_with (plain "RGB" (1024, 500))) = (Ok tt, w') /\
     files w' !! "out.png"%string = Some (ImageFile out) /\
     size out = (1024, 500) /\
     forall x y, 0 <= x < 1024 -> 0 <= y < 500 ->
       getpixel out x y =
       getpixel (as_rgb sample_kernels (plain "RGB" (1024, 500))) x y) /\
  ConvertScreenshots.scaled_size 1920 1080 1920 1080 = Ok (lit_0_8, 1536, 864) /\
  ConvertScreenshots.position 1920 1080 1536 864 = (192, 108).
Proof.
  assert (H : files (world_with (plain "RGB" (1024, 500))) !! "in.png"%string =
                Some (ImageFile (plain "RGB" (1024, 500))) /\
              size (plain "RGB" (1024, 500)) = (1024, 500) /\ canvas_ok 1024 500 /\
              can_save (world_with (plain "RGB" (1024, 500))) "out.png").
  { split; [reflexivity|]. split; [reflexivity|].
    split; [unfold canvas_ok, max_pixels; lia|]. split; reflexivity. }
  split; [exact H|]. destruct H as (H1 & H2 & H3 & H4).
  exact (same_size_is_identity sample_kernels "in.png" "out.png"
           (world_with (plain "RGB" (1024, 500))) (plain "RGB" (1024, 500))
           1024 500 H1 H2 H3 H4).
Defined.

(** C6, counterexample.  In the tablet script a source of 1920 by 1080 on the
    1920 by 1080 canvas gets scale 0.8, size 1536 by 864 and offsets
    (192, 108): neither scale 1 nor offsets 0. *)
Lemma same_size_is_scaled_by_tablet :
  ~ (exists new_width new_height,
       ConvertScreenshots.scaled_size 1920 1080 1920 1080 =
         Ok (one, new_width, new_height) /\
       ConvertScreenshots.position 1920 1080 new_width new_height = (0, 0)).
Proof.
  intros (nw & nh & Hs & _). vm_compute in Hs. discriminate Hs.
Qed.

(** C10.  A source of 1 by 10000 pixels has positive sides, its scaled size
    is 0 by 500 on the 1024 by 500 canvas and 0 by 972 on the 1920 by 1080
    one, and both scripts hand that size to [resize] as it is: the run ends
    with the exception that [resize] raises for it. *)
Theorem zero_side_reaches_resize (K : kernels) (input_path output_path : string)
    (w : world) (img : image) :
  files w !! input_path = Some (ImageFile img) ->
  size img = (1, 10000) ->
  (exists scale e,
     ConvertFeatureGraphic.scaled_size 1 10000 1024 500 = Ok (scale, 0, 500) /\
     resize K (as_rgb K img) (0, 500) = Raise e /\
     ConvertFeatureGraphic.convert_feature_graphic K input_path output_path 1024 500 w =
       (Raise e, w)) /\
  (exists scale e,
     ConvertScreenshots.scaled_size 1 10000 1920 1080 = Ok (scale, 0, 972) /\
     resize K (as_rgb K img) (0, 972) = Raise e /\
     ConvertScreenshots.create_tablet_screenshot K input_path output_path 1920 1080 w =
       (Raise e, w)).
Proof.
  intros Hf Hsz.
  assert (Hsrc : source_ok img).
  { unfold source_ok, max_pixels. rewrite Hsz. cbn. lia. }
  split.
  - eexists _, (Exn "ValueError" "height and width must be > 0").
    split; [vm_compute; reflexivity|].
    split; [unfold resize; rewrite size_as_rgb, Hsz; reflexivity|].
    apply (convert_feature_graphic_refused K _ _ _ _ w img _ Hf Hsrc);
      [unfold max_width; lia|].
    erewrite canvas_of_refused; [reflexivity | rewrite Hsz; vm_compute; reflexivity
      | lia | lia | rewrite Hsz; cbn; lia | rewrite Hsz; cbn; lia | left; lia].
  - eexists _, (Exn "ValueError" "height and width must be > 0").
    split; [vm_compute; reflexivity|].
    split; [unfold resize; rewrite size_as_rgb, Hsz; reflexivity|].
    apply (create_tablet_screenshot_refused K _ _ _ _ w img _ Hf Hsrc);
      [unfold max_width; lia|].
    erewrite canvas_of_refused; [reflexivity | rewrite Hsz; vm_compute; reflexivity
      | lia | lia | rewrite Hsz; cbn; lia | rewrite Hsz; cbn; lia | left; lia].
Qed.

Lemma zero_side_reaches_resize_witness :
  (files (world_with sliver) !! "in.png"%string = Some (ImageFile sliver) /\
   size sliver = (1, 10000)) /\
  (exists scale e,
     ConvertFeatureGraphic.scaled_size 1 10000 1024 500 = Ok (scale, 0, 500) /\
     resize sample_kernels (as_rgb sample_kernels sliver) (0, 500) = Raise e /\
     ConvertFeatureGraphic.convert_feature_graphic sample_kernels "in.png" "out.png"
       1024 500 (world_with sliver) = (Raise e, world_with sliver)) /\
  (exists scale e,
     ConvertScreenshots.scaled_size 1 10000 1920 1080 = Ok (scale, 0, 972) /\
     resize sample_kernels (as_rgb sample_kernels sliver) (0, 972) = Raise e /\
     ConvertScreenshots.create_tablet_screenshot sample_kernels "in.png" "out.png"
       1920 1080 (world_with sliver) = (Raise e, world_with sliver)).
Proof.
  assert (H : files (world_with sliver) !! "in.png"%string = Some (ImageFile sliver) /\
              size sliver = (1, 10000)) by (split; reflexivity).
  split; [exact H|]. destruct H as (H1 & H2).
  exact (zero_side_reaches_resize sample_kernels "in.png" "out.png"
           (world_with sliver) sliver H1 H2).
Defined.







(** The scenario of the specification, on a folder whose two screenshots
    have different stems: two new files, one error line, no exception. *)
Example three_files_two_outputs :
  exists w' lines,
    ConvertScreenshots.process_screenshots sample_kernels "in" "out" three_files_world =
      (Ok tt, w') /\
    stdout w' = lines /\
    dom (files w') ∖ dom (files three_files_world) =
      ({["out/tablet_a.png"; "out/tablet_b.png"]}%string : gset string) /\
    base.size (dom (files w') ∖ dom (files three_files_world)) = 2%nat /\
    List.filter is_error_line lines =
      ["Error converting bad.png: cannot identify image file 'in/bad.png'"%string] /\
    dirs w' !! "out"%string = Some ["tablet_a.png"; "tablet_b.png"]%string.
Proof.
  eexists _, _. split; [vm_compute; reflexivity|].
  split; [reflexivity|]. repeat split; vm_compute; reflexivity.
Qed.

(** When the path of the output folder holds a regular file, the batch
    raises before it lists the input folder: nothing is converted. *)
Example output_folder_is_a_file :
  ConvertScreenshots.process_screenshots sample_kernels "in" "out" blocked_world =
    (Raise (Exn "FileExistsError" "[Errno 17] File exists: 'out'"), blocked_world).
Proof. vm_compute. reflexivity. Qed.


(** * Facts about the strings of the batch *)

Module StringFacts.
Import ConvertScreenshots.

Lemma str_app_cons (c : ascii) (s t : string) : String c s +:+ t = String c (s +:+ t).
Proof. reflexivity. Qed.

Lemma str_app_nil_l (t : string) : "" +:+ t = t.
Proof. reflexivity. Qed.

Lemma str_app_nil_r (s : string) : s +:+ "" = s.
Proof. induction s as [|c s IH]; [reflexivity|]. rewrite str_app_cons, IH. reflexivity. Qed.

Lemma str_app_assoc (a b c : string) : (a +:+ b) +:+ c = a +:+ (b +:+ c).
Proof. induction a as [|x a IH]; [reflexivity|]. rewrite !str_app_cons, IH. reflexivity. Qed.

Lemma str_length_app (a b : string) :
  String.length (a +:+ b) = (String.length a + String.length b)%nat.
Proof. induction a as [|x a IH]; [reflexivity|]. rewrite str_app_cons. cbn. rewrite IH. reflexivity. Qed.

Lemma str_app_inv_tail (a b t : string) : a +:+ t = b +:+ t -> a = b.
Proof.
  revert b. induction a as [|x a IH]; intros b H.
  - destruct b as [|y b]; [reflexivity|]. exfalso.
    apply (f_equal String.length) in H. rewrite str_app_nil_l, str_app_cons in H.
    cbn in H. rewrite str_length_app in H. lia.
  - destruct b as [|y b].
    + exfalso. apply (f_equal String.length) in H. rewrite str_app_nil_l, str_app_cons in H.
      cbn in H. rewrite str_length_app in H. lia.
    + rewrite !str_app_cons in H. injection H as -> H. f_equal. apply IH. exact H.
Qed.

Lemma substring_0_length (s : string) : substring 0 (String.length s) s = s.
Proof. induction s as [|c s IH]; [reflexivity|]. cbn. rewrite IH. reflexivity. Qed.

Lemma substring_0_app (a b : string) : substring 0 (String.length a) (a +:+ b) = a.
Proof.
  induction a as [|c a IH].
  - cbn. destruct b; reflexivity.
  - rewrite str_app_cons. cbn. rewrite IH. reflexivity.
Qed.

Lemma substring_skip_app (a b : string) (k : nat) :
  substring (String.length a) k (a +:+ b) = substring 0 k b.
Proof. induction a as [|c a IH]; [reflexivity|]. rewrite str_app_cons. cbn. exact IH. Qed.

Lemma substring_split (s : string) (i : nat) :
  (i <= String.length s)%nat ->
  substring 0 i s +:+ substring i (String.length s - i) s = s.
Proof.
  revert i. induction s as [|c s IH]; intros i Hi.
  - destruct i; [reflexivity | cbn in Hi; lia].
  - destruct i as [|i].
    + change (substring 0 0 (String c s)) with ""%string.
      rewrite str_app_nil_l, Nat.sub_0_r. apply substring_0_length.
    + cbn [substring String.length Nat.sub]. rewrite str_app_cons. f_equal.
      apply IH. cbn in Hi. lia.
Qed.

(** [s.endswith(suffix)] holds exactly when [s] is something followed by
    [suffix]. *)
Lemma endswith_iff (s suffix : string) :
  endswith s suffix = true <-> exists pre, s = pre +:+ suffix.
Proof.
  unfold endswith. split.
  - intros H. apply andb_true_iff in H as [Hk He].
    apply Nat.leb_le in Hk. apply String.eqb_eq in He.
    exists (substring 0 (String.length s - String.length suffix) s).
    pose proof (substring_split s (String.length s - String.length suffix)
                  ltac:(lia)) as Hsplit.
    replace (String.length s - (String.length s - String.length suffix))%nat
      with (String.length suffix) in Hsplit by lia.
    rewrite He in Hsplit. symmetry. exact Hsplit.
  - intros (pre & ->). rewrite str_length_app. apply andb_true_iff. split.
    + apply Nat.leb_le. lia.
    + replace (String.length pre + String.length suffix - String.length suffix)%nat
        with (String.length pre) by lia.
      rewrite substring_skip_app, substring_0_length. apply String.eqb_refl.
Qed.

Lemma lower_app (a b : string) : lower (a +:+ b) = lower a +:+ lower b.
Proof. induction a as [|c a IH]; [reflexivity|]. rewrite str_app_cons. cbn [lower]. rewrite IH. reflexivity. Qed.

Lemma lower_split (f a b : string) :
  lower f = a +:+ b -> exists f1 f2, f = f1 +:+ f2 /\ lower f1 = a /\ lower f2 = b.
Proof.
  revert f. induction a as [|c a IH]; intros f H.
  - exists ""%string, f. repeat split. exact H.
  - destruct f as [|d f]; [discriminate H|].
    rewrite str_app_cons in H. cbn [lower] in H. injection H as Hc H.
    destruct (IH f H) as (f1 & f2 & -> & H1 & H2).
    exists (String d f1), f2. rewrite str_app_cons. cbn [lower]. rewrite Hc, H1. auto.
Qed.


Lemma path_join_relative (a b : string) :
  String.prefix "/" b = false -> path_join a b = join_prefix a +:+ b.
Proof.
  intros H. unfold path_join, join_prefix. rewrite H.
  destruct (String.eqb a "" || endswith a "/"); [reflexivity|].
  rewrite str_app_assoc. reflexivity.
Qed.



Lemma no_slash_relative (g : string) : has_slash g = false -> String.prefix "/" g = false.
Proof.
  destruct g as [|c g]; [reflexivity|]. cbn [has_slash String.prefix].
  intros H. apply orb_false_iff in H as [H _].
  destruct (ascii_dec "/" c) as [<-|]; [discriminate H | reflexivity].
Qed.

(** *** The names of the batch *)

Lemma rfind_dot_app (s e : string) :
  rfind_dot e = None -> rfind_dot (s +:+ "." +:+ e) = Some (String.length s).
Proof.
  intros He. induction s as [|c s IH].
  - rewrite str_app_nil_l, str_app_cons, str_app_nil_l. cbn [rfind_dot]. rewrite He. reflexivity.
  - rewrite str_app_cons. cbn [rfind_dot]. rewrite IH. reflexivity.
Qed.

Lemma rsplit_dot_head_app (s e : string) :
  rfind_dot e = None -> rsplit_dot_head (s +:+ "." +:+ e) = s.
Proof.
  intros He. unfold rsplit_dot_head. rewrite (rfind_dot_app s e He).
  apply substring_0_app.
Qed.

Lemma output_path_of_eq (out filename : string) :
  output_path_of out filename =
  join_prefix out +:+ "tablet_" +:+ rsplit_dot_head filename +:+ ".png".
Proof. unfold output_path_of. apply path_join_relative. reflexivity. Qed.


(** [is_image_name] in words: the name is a stem followed by an extension
    that reads [.png], [.jpg] or [.jpeg] in lower case. *)
Lemma is_image_name_iff (filename : string) :
  is_image_name filename = true <->
  exists stem ext, filename = stem +:+ ext /\ image_ext ext.
Proof.
  unfold is_image_name, endswith_any, image_ext. cbn [existsb].
  rewrite orb_false_r, !orb_true_iff, !endswith_iff. split.
  - intros [(pre & H) | [(pre & H) | (pre & H)]];
      apply lower_split in H as (f1 & f2 & -> & _ & H2); exists f1, f2; auto.
  - intros (stem & ext & -> & H). rewrite lower_app.
    destruct H as [-> | [-> | ->]]; [left | right; left | right; right]; eauto.
Qed.

End StringFacts.

(** * Facts about what a batch leaves untouched *)

Module FrameFacts.
Import ConvertScreenshots StringFacts RunFacts DirFacts BatchFacts.

Lemma canvas_of_shape (K : kernels)
    (scaled_size : Z -> Z -> Z -> Z -> result (spec_float * Z * Z))
    (position : Z -> Z -> Z -> Z -> Z * Z) (img : image) (tw th : Z) (c : image) :
  canvas_of K scaled_size position img tw th = Ok c ->
  size c = (tw, th) /\ mode c = "RGB"%string.
Proof.
  unfold canvas_of, blank_canvas. cbn [fst snd].
  destruct ((tw <? 0) || (th <? 0)); [discriminate 1|].
  cbn [mbind result_bind].
  destruct (scaled_size _ _ tw th) as [[[s nw] nh]|e]; [|discriminate 1].
  cbn [mbind result_bind].
  destruct (resize K (as_rgb K img) (nw, nh)) as [r|e]; [|discriminate 1].
  cbn [mbind result_bind mret result_ret]. intros H. injection H as <-.
  split; [apply size_paste|].
  unfold paste. destruct (position tw th nw nh), (size r). reflexivity.
Qed.

(** The canvas that a run hands to [save] has the target size and is RGB,
    and its source was opened. *)
Lemma canvas_from_shape (K : kernels)
    (scaled_size : Z -> Z -> Z -> Z -> result (spec_float * Z * Z))
    (position : Z -> Z -> Z -> Z -> Z * Z)
    (w : world) (path : string) (tw th : Z) (c : image) :
  canvas_from K scaled_size position w path tw th = Ok c ->
  size c = (tw, th) /\ mode c = "RGB"%string /\ files w !! path <> None.
Proof.
  unfold canvas_from.
  destruct (Image_open path w) as [[img|e0] w0] eqn:Eo; cbn [fst mbind result_bind];
    [|discriminate 1].
  assert (Hfile : files w !! path <> None).
  { unfold Image_open in Eo. destruct (files w !! path); [discriminate|].
    destruct (is_dir w path && negb (String.eqb path "")); discriminate Eo. }
  destruct (if String.eqb (mode img) "RGB" then Ok img
            else fst (load path w);; Ok (convert_RGB K img)) as [im|e1];
    cbn [mbind result_bind]; [|discriminate 1].
  unfold Image_new. cbn [fst snd].
  destruct ((tw <? 0) || (th <? 0)); [discriminate 1|].
  destruct (max_width <? tw); [discriminate 1|].
  cbn [mbind result_bind].
  destruct (scaled_size _ _ tw th) as [[[s nw] nh]|e]; [|discriminate 1].
  cbn [mbind result_bind].
  destruct (fst (load path w)) as [[]|e]; cbn [mbind result_bind]; [|discriminate 1].
  destruct (resize K im (nw, nh)) as [r|e]; [|discriminate 1].
  cbn [mbind result_bind mret result_ret]. intros H. injection H as <-.
  split; [apply size_paste|]. split; [|exact Hfile].
  unfold paste. destruct (position tw th nw nh), (size r). reflexivity.
Qed.

Lemma converts_shape (K : kernels) (w : world) (path : string) (c : image) :
  converts K w path = Ok c ->
  size c = (1920, 1080) /\ mode c = "RGB"%string /\ files w !! path <> None.
Proof. unfold converts. apply canvas_from_shape. Qed.

(** A name that converts: its canvas is that of [converts], its file was
    there and [save] wrote it. *)
Lemma attempt_ok (K : kernels) (w : world) (input_path output_path : string) (c : image) :
  attempt K w input_path output_path = Ok c ->
  converts K w input_path = Ok c /\
  save c output_path w =
    (Ok tt, {| files := <[output_path := ImageFile c]> (files w);
               dirs := add_entry output_path w;
               stdout := stdout w |}).
Proof.
  unfold attempt. destruct (converts K w input_path) as [c0|e]; [|discriminate 1].
  cbn [mbind result_bind].
  destruct (save_cases c0 output_path w) as [(e & H) | H]; rewrite H; cbn [fst];
    [discriminate 1|].
  intros E. injection E as <-. split; [reflexivity | exact H].
Qed.

Lemma made_stdout (fs : gmap string file) (ds : gmap string (list string))
    (l1 l2 : list string) (q : string) :
  made {| files := fs; dirs := ds; stdout := l1 |} q ->
  made {| files := fs; dirs := ds; stdout := l2 |} q.
Proof. intros H. exact H. Qed.

(** Whatever the listing is, a path either keeps what it held or is the
    output path of an image name of the listing, whose file was there to be
    opened, and holds a canvas. *)
Lemma for_each_frame (K : kernels) (inp out : string) (names : list string) :
  forall w w',
    for_each names (process_one K inp out) w = (Ok tt, w') ->
    forall p,
      files w' !! p = files w !! p \/
      exists f c, In f names /\ is_image_name f = true /\
        ~ made w (path_join inp f) /\ p = output_path_of out f /\
        files w' !! p = Some (ImageFile c) /\ size c = (1920, 1080) /\
        mode c = "RGB"%string.
Proof.
  induction names as [|f names IH]; intros w w' Hrun p.
  - cbn in Hrun. injection Hrun as <-. left. reflexivity.
  - cbn [for_each] in Hrun. unfold mbind, M_bind in Hrun.
    destruct (is_image_name f) eqn:Him.
    + rewrite (process_one_image K inp out f w Him) in Hrun.
      destruct (attempt K w (path_join inp f) (output_path_of out f)) as [c|e] eqn:Hc.
      * destruct (attempt_ok K w _ _ c Hc) as [Hconv Hsave].
        destruct (converts_shape K w _ c Hconv) as (Hs & Hm & Hfile).
        assert (Hkeep : forall q, made w q ->
                  made {| files := <[output_path_of out f := ImageFile c]> (files w);
                          dirs := add_entry (output_path_of out f) w;
                          stdout := stdout w ++
                            [("Converting " +:+ f +:+ "...")%string;
                             ("Successfully converted " +:+ f)%string] |} q).
        { intros q Hq. apply (made_stdout _ _ (stdout w)).
          exact (save_keeps_made c _ w _ q Hsave Hq). }
        destruct (IH _ _ Hrun p) as [Hp | (g & d & Hg & Hgi & Hgm & Hpg & Hd)].
        -- cbn [files] in Hp.
           destruct (decide (p = output_path_of out f)) as [->|Hne].
           ++ right. exists f, c. rewrite lookup_insert_eq in Hp.
              split; [left; reflexivity|]. split; [exact Him|].
              split; [intros [Hq _]; contradiction|]. auto.
           ++ left. rewrite lookup_insert_ne in Hp by congruence. exact Hp.
        -- right. exists g, d. split; [right; exact Hg|]. split; [exact Hgi|].
           split; [intros Hq; apply Hgm, Hkeep; exact Hq|]. tauto.
      * destruct (IH _ _ Hrun p) as [Hp | (g & d & Hg & Hgi & Hgm & Hpg & Hd)].
        -- left. exact Hp.
        -- right. exists g, d. split; [right; exact Hg|]. split; [exact Hgi|].
           split; [exact Hgm|]. tauto.
    + rewrite (process_one_skip K inp out f w Him) in Hrun.
      destruct (IH _ _ Hrun p) as [Hp | (g & d & Hg & Hgi & Hgm & Hpg & Hd)].
      * left. exact Hp.
      * right. exists g, d. split; [right; exact Hg|]. tauto.
Qed.



End FrameFacts.

(** * Facts about the proportions of the scaled image *)

Module RatioFacts.
Import Float64 Float64Facts FitFacts.

(** One direction of the proportion, in integers: [Pw] and [Ph] are the
    products [w * scale] and [h * scale] as computed, in units of [U]. *)
Lemma ratio_le (U w h Sc Pw Ph : Z) :
  0 < U -> 0 < w -> 0 < h -> 0 <= Sc ->
  2 ^ 53 * Z.abs (Pw - w * Sc) <= w * Sc ->
  2 ^ 53 * Z.abs (Ph - h * Sc) <= h * Sc ->
  h * (Pw / U + 1) <= 2 ^ 51 ->
  (Pw / U) * h <= (Ph / U + 1) * w.
Proof.
  intros HU Hw Hh HSc HPw HPh Hsmall.
  set (n := Pw / U) in *. set (m := Ph / U).
  pose proof (Z.mul_div_le Pw U HU) as Hn1. fold n in Hn1.
  pose proof (Z.mod_pos_bound Pw U HU) as Hn2.
  pose proof (Z.div_mod Pw U ltac:(lia)) as Hn3. fold n in Hn3.
  pose proof (Z.mod_pos_bound Ph U HU) as Hm2.
  pose proof (Z.div_mod Ph U ltac:(lia)) as Hm3. fold m in Hm3.
  assert (F1 : 2 ^ 53 * Pw <= (2 ^ 53 + 1) * (w * Sc)) by lia.
  assert (F2 : (2 ^ 53 - 1) * (h * Sc) <= 2 ^ 53 * Ph) by lia.
  assert (F5 : (2 ^ 53 - 1) * (w * Sc) <= 2 ^ 53 * Pw) by lia.
  set (T := w * Sc * h).
  assert (G1 : 2 ^ 53 * (Pw * h) <= (2 ^ 53 + 1) * T) by (unfold T; nia).
  assert (G2 : (2 ^ 53 - 1) * T <= 2 ^ 53 * (Ph * w)) by (unfold T; nia).
  assert (G3 : n * h * U <= Pw * h) by nia.
  assert (G4 : Ph * w < (m + 1) * w * U) by nia.
  assert (G5 : (2 ^ 53 - 1) * T < 2 ^ 53 * ((n + 1) * h * U)) by (unfold T; nia).
  assert (G6 : (n + 1) * h * U <= 2 ^ 51 * U) by nia.
  destruct (Z_le_gt_dec (n * h) ((m + 1) * w)) as [Hle | Hgt]; [exact Hle|].
  exfalso.
  assert (G7 : (m + 1) * w * U + U <= n * h * U) by nia.
  lia.
Qed.

(** Lines 23 and 24 keep the proportions of the source, up to the
    truncation of each side. *)
Lemma scaled_by_ratio (scale : spec_float) (e w h nw nh : Z) :
  normal scale e -> -200 <= e <= 200 -> dim_ok w -> dim_ok h ->
  scaled_by scale w h = Ok (scale, nw, nh) ->
  (h * (nw + 1) <= 2 ^ 51 -> nw * h <= (nh + 1) * w) /\
  (w * (nh + 1) <= 2 ^ 51 -> nh * w <= (nw + 1) * h).
Proof.
  intros Hn He Hw Hh Hs.
  destruct (int_mul_spec w scale e (dim_ok_53 w Hw) Hn He) as (Pw & HPw & Herrw).
  destruct (int_mul_spec h scale e (dim_ok_53 h Hh) Hn He) as (Ph & HPh & Herrh).
  unfold scaled_by in Hs. rewrite HPw in Hs. cbn [mbind result_bind] in Hs.
  rewrite HPh in Hs. cbn [mbind result_bind mret result_ret] in Hs.
  injection Hs as <- <-.
  pose proof unit_pos as HU.
  pose proof (normal_num_pos scale e Hn) as Hpos.
  unfold dim_ok in Hw, Hh.
  split; intros Hsmall.
  - apply (ratio_le unit_ w h (num scale) Pw Ph); try lia; assumption.
  - apply (ratio_le unit_ h w (num scale) Ph Pw); try lia; assumption.
Qed.

End RatioFacts.

(** * Facts about the saved canvas *)

Module CanvasFacts.
Import StringFacts RunFacts DirFacts FrameFacts RatioFacts.

Lemma resize_ok (K : kernels) (im : image) (nw nh : Z) :
  1 <= nw -> 1 <= nh ->
  exists r, resize K im (nw, nh) = Ok r /\ size r = (nw, nh) /\ mode r = mode im.
Proof.
  intros H1 H2. unfold resize. cbn [fst snd].
  destruct ((nw =? fst (size im)) && (nh =? snd (size im))) eqn:E.
  - exists im. split; [reflexivity|]. split; [|reflexivity].
    apply andb_true_iff in E as [E1 E2]. apply Z.eqb_eq in E1, E2.
    destruct (size im) as [a b]. cbn [fst snd] in *. congruence.
  - replace (nw <? 1) with false by (symmetry; apply Z.ltb_ge; lia).
    replace (nh <? 1) with false by (symmetry; apply Z.ltb_ge; lia).
    eexists. split; [reflexivity|]. split; reflexivity.
Qed.

Lemma getpixel_paste (r : image) (tw th x y nw nh i j : Z) :
  size r = (nw, nh) ->
  getpixel (paste {| mode := "RGB"; size := (tw, th);
                     getpixel := fun _ _ => [23; 20; 41] |} r (x, y)) i j =
  if in_box x y nw nh i j then getpixel r (i - x) (j - y) else background.
Proof. intros Hs. unfold paste, in_box, background. rewrite Hs. reflexivity. Qed.


(** Either conversion: nothing changes when it raises, and otherwise a
    canvas of the target size is stored. *)
Lemma feature_run_cases (K : kernels) (input_path output_path : string)
    (tw th : Z) (w : world) :
  (exists e,
     ConvertFeatureGraphic.convert_feature_graphic K input_path output_path tw th w =
       (Raise e, w)) \/
  (exists out,
     ConvertFeatureGraphic.convert_feature_graphic K input_path output_path tw th w =
       (Ok tt,
        {| files := <[output_path := ImageFile out]> (files w);
           dirs := add_entry output_path w;
           stdout := stdout w ++ ["Converted image size: " +:+ repr_size (tw, th)] |}) /\
     canvas_from K ConvertFeatureGraphic.scaled_size ConvertFeatureGraphic.position
       w input_path tw th = Ok out /\
     size out = (tw, th) /\ mode out = "RGB"%string).
Proof.
  rewrite convert_feature_graphic_from.
  destruct (canvas_from _ _ _ _ _ _ _) as [out|e] eqn:Hc; [|left; eauto].
  destruct (canvas_from_shape _ _ _ _ _ _ _ _ Hc) as (Hs & Hm & _).
  destruct (save_cases out output_path w) as [(e & H) | H]; rewrite H.
  - left. eauto.
  - right. exists out. cbn [files dirs stdout]. rewrite Hs. auto.
Qed.

Lemma tablet_run_cases (K : kernels) (input_path output_path : string)
    (tw th : Z) (w : world) :
  (exists e,
     ConvertScreenshots.create_tablet_screenshot K input_path output_path tw th w =
       (Raise e, w)) \/
  (exists out,
     ConvertScreenshots.create_tablet_screenshot K input_path output_path tw th w =
       (Ok tt,
        {| files := <[output_path := ImageFile out]> (files w);
           dirs := add_entry output_path w;
           stdout := stdout w |}) /\
     canvas_from K ConvertScreenshots.scaled_size ConvertScreenshots.position
       w input_path tw th = Ok out /\
     size out = (tw, th) /\ mode out = "RGB"%string).
Proof.
  rewrite create_tablet_screenshot_from.
  destruct (canvas_from _ _ _ _ _ _ _) as [out|e] eqn:Hc; [|left; eauto].
  destruct (canvas_from_shape _ _ _ _ _ _ _ _ Hc) as (Hs & Hm & _).
  destruct (save_cases out output_path w) as [(e & H) | H]; rewrite H.
  - left. eauto.
  - right. exists out. auto.
Qed.

(** The canvas of a source whose scaled size is known and fits. *)
Lemma canvas_of_letterbox (K : kernels)
    (scaled_size : Z -> Z -> Z -> Z -> result (spec_float * Z * Z))
    (position : Z -> Z -> Z -> Z -> Z * Z)
    (img : image) (tw th : Z) (scale : spec_float) (nw nh : Z) :
  scaled_size (fst (size img)) (snd (size img)) tw th = Ok (scale, nw, nh) ->
  position tw th nw nh = ((tw - nw) / 2, (th - nh) / 2) ->
  0 <= tw -> 0 <= th -> 1 <= nw -> 1 <= nh ->
  exists out resized,
    canvas_of K scaled_size position img tw th = Ok out /\
    resize K (as_rgb K img) (nw, nh) = Ok resized /\
    size resized = (nw, nh) /\
    forall i j,
      getpixel out i j =
      if in_box ((tw - nw) / 2) ((th - nh) / 2) nw nh i j
      then getpixel resized (i - (tw - nw) / 2) (j - (th - nh) / 2)
      else background.
Proof.
  intros Hs Hpos Htw Hth H1 H2.
  destruct (resize_ok K (as_rgb K img) nw nh H1 H2) as (r & Hr & Hsz & _).
  rewrite (canvas_of_resized K scaled_size position img tw th scale nw nh Hs Htw Hth).
  rewrite Hr, Hpos. eexists _, r. split; [reflexivity|]. split; [reflexivity|].
  split; [exact Hsz|].
  intros i j. apply getpixel_paste. exact Hsz.
Qed.

(** A source that has the size of the canvas is pasted as it is. *)
Lemma feature_canvas_same_size (K : kernels) (img : image) (tw th : Z) :
  size img = (tw, th) -> dim_ok tw -> dim_ok th ->
  exists out,
    canvas_of K ConvertFeatureGraphic.scaled_size ConvertFeatureGraphic.position
      img tw th = Ok out /\
    size out = (tw, th) /\ mode out = "RGB"%string /\
    forall x y, 0 <= x < tw -> 0 <= y < th ->
      getpixel out x y = getpixel (as_rgb K img) x y.
Proof.
  intros Hsz Htw Hth.
  pose proof (feature_scaled_size_same tw th Htw Hth) as Hs.
  destruct (canvas_of_letterbox K ConvertFeatureGraphic.scaled_size
              ConvertFeatureGraphic.position img tw th one tw th)
    as (out & r & Hc & Hr & _ & Hpix);
    try (unfold dim_ok in *; lia).
  { rewrite Hsz. exact Hs. }
  { reflexivity. }
  exists out. split; [exact Hc|].
  destruct (canvas_of_shape _ _ _ _ _ _ _ Hc) as [Hso Hmo].
  split; [exact Hso|]. split; [exact Hmo|].
  intros x y Hx Hy. rewrite Hpix.
  unfold resize in Hr. rewrite size_as_rgb, Hsz in Hr. cbn [fst snd] in Hr.
  rewrite !Z.eqb_refl in Hr. cbn [andb] in Hr. injection Hr as <-.
  rewrite !Z.sub_diag. change (0 / 2) with 0. unfold in_box.
  replace ((0 <=? x) && (x <? 0 + tw) && (0 <=? y) && (y <? 0 + th)) with true.
  - rewrite !Z.sub_0_r. reflexivity.
  - symmetry. rewrite !andb_true_iff.
    repeat split; try (apply Z.leb_le; lia); apply Z.ltb_lt; lia.
Qed.

(** The proportions of the scaled size, for any fill fractions of at most
    one. *)
Lemma scaled_by_proportions (pw qw ph qh w h tw th : Z) (a b : spec_float) :
  0 < pw <= 9 -> 0 < qw <= 10 -> 0 < ph <= 9 -> 0 < qh <= 10 ->
  pw <= qw -> ph <= qh ->
  0 < w < 2 ^ 25 -> 0 < h < 2 ^ 25 -> 0 < tw < 2 ^ 25 -> 0 < th < 2 ^ 25 ->
  axis_facts pw qw tw w a -> axis_facts ph qh th h b ->
  exists nw nh,
    scaled_by (min a b) w h = Ok (min a b, nw, nh) /\
    nw * h <= (nh + 1) * w /\ nh * w <= (nw + 1) * h.
Proof.
  intros Hpw Hqw Hph Hqh Hfw Hfh Hw Hh Htw Hth Ha Hb.
  assert (D : forall n, 0 < n < 2 ^ 25 -> dim_ok n).
  { intros n Hn. unfold dim_ok. change (2 ^ 31) with (2 ^ 25 * 64). lia. }
  destruct (scaled_by_bounds pw qw ph qh w h tw th a b)
    as (nw & nh & Hs & Bw & Bh & _); auto.
  exists nw, nh. split; [exact Hs|].
  destruct Ha as (ea & Xa & Hna & Hea & _), Hb as (eb & Xb & Hnb & Heb & _).
  destruct (min_spec a b ea eb Hna Hnb ltac:(lia) ltac:(lia)) as [Hsel _].
  assert (Hsc : exists e, normal (min a b) e /\ -200 <= e <= 200).
  { destruct Hsel as [-> | ->]; eauto. }
  destruct Hsc as (e & Hn & He).
  destruct (scaled_by_ratio (min a b) e w h nw nh Hn He (D w Hw) (D h Hh) Hs)
    as [R1 R2].
  assert (Nw : nw <= tw) by nia.
  assert (Nh : nh <= th) by nia.
  change (2 ^ 51) with (2 ^ 25 * 2 ^ 25 * 2) in R1, R2.
  split; [apply R1 | apply R2]; nia.
Qed.

End CanvasFacts.

(** * Facts about the paths of the [__main__] blocks *)

Module PathFacts.
Import StringFacts DirFacts.

Lemma rfind_slash_none (b : string) : has_slash b = false -> rfind_slash b = None.
Proof.
  induction b as [|c b IH]; [reflexivity|]. cbn [has_slash rfind_slash].
  intros H. apply orb_false_iff in H as [Hc Hb]. rewrite (IH Hb), Hc. reflexivity.
Qed.

Lemma rfind_slash_app (pre b : string) :
  has_slash b = false -> rfind_slash (pre +:+ "/" +:+ b) = Some (String.length pre).
Proof.
  intros Hb. induction pre as [|c pre IH].
  - rewrite str_app_nil_l, str_app_cons, str_app_nil_l. cbn [rfind_slash].
    rewrite (rfind_slash_none b Hb). reflexivity.
  - rewrite str_app_cons. cbn [rfind_slash]. rewrite IH. reflexivity.
Qed.

Lemma basename_after_slash (pre b : string) :
  has_slash b = false -> basename (pre +:+ "/" +:+ b) = b.
Proof.
  intros Hb. unfold basename. rewrite (rfind_slash_app pre b Hb).
  rewrite <- str_app_assoc.
  replace (S (String.length pre)) with (String.length (pre +:+ "/"))
    by (rewrite str_length_app; cbn; lia).
  rewrite substring_skip_app.
  rewrite str_length_app.
  replace (String.length (pre +:+ "/") + String.length b - String.length (pre +:+ "/"))%nat
    with (String.length b) by lia.
  apply substring_0_length.
Qed.

Lemma join_prefix_cases (a : string) :
  join_prefix a = ""%string \/ exists pre, join_prefix a = (pre +:+ "/")%string.
Proof.
  unfold join_prefix. destruct (String.eqb a "") eqn:E.
  - left. apply String.eqb_eq in E. exact E.
  - cbn [orb]. destruct (endswith a "/") eqn:F.
    + right. apply endswith_iff in F. exact F.
    + right. exists a. reflexivity.
Qed.

(** [os.path.basename(os.path.join(a, b))] is [b] when [b] has no slash. *)
Lemma basename_join (a b : string) :
  has_slash b = false -> basename (path_join a b) = b.
Proof.
  intros Hb. rewrite path_join_relative by (apply no_slash_relative; exact Hb).
  destruct (join_prefix_cases a) as [-> | (pre & ->)].
  - rewrite str_app_nil_l. unfold basename. rewrite (rfind_slash_none b Hb). reflexivity.
  - rewrite str_app_assoc. apply basename_after_slash. exact Hb.
Qed.

(** *** Trailing slashes and the directory of a joined path *)





Lemma all_slashes_empty : all_slashes "" = true.
Proof. reflexivity. Qed.





End PathFacts.


Import StringFacts FrameFacts RatioFacts CanvasFacts PathFacts.

(** * Further properties of the batch *)

(** X1.  The batch takes a name for an image exactly when the name is a
    stem, possibly empty, followed by an extension that reads [.png],
    [.jpg] or [.jpeg] once it is put in lower case.  In particular the name
    [tablet_<stem>.png] that it writes for a file is itself an image name,
    and its stem is [tablet_<stem>]. *)
Theorem image_name_is_stem_and_extension (filename : string) :
  (ConvertScreenshots.is_image_name filename = true <->
   exists stem ext, filename = stem +:+ ext /\ image_ext ext) /\
  ConvertScreenshots.is_image_name
    ("tablet_" +:+ rsplit_dot_head filename +:+ ".png") = true /\
  rsplit_dot_head ("tablet_" +:+ rsplit_dot_head filename +:+ ".png") =
    ("tablet_" +:+ rsplit_dot_head filename)%string.
Proof.
  split; [apply is_image_name_iff|]. split.
  - apply is_image_name_iff.
    exists ("tablet_" +:+ rsplit_dot_head filename)%string, ".png"%string.
    split; [rewrite str_app_assoc; reflexivity | left; reflexivity].
  - rewrite <- str_app_assoc.
    apply (rsplit_dot_head_app ("tablet_" +:+ rsplit_dot_head filename) "png").
    reflexivity.
Qed.

(** X2.  Two names [stem.ext], with no dot in the extension, are saved at
    the same output path exactly when their stems are equal, whatever the
    extensions are. *)
Theorem outputs_collide_iff_same_stem (out s1 e1 s2 e2 : string) :
  rfind_dot e1 = None -> rfind_dot e2 = None ->
  ConvertScreenshots.output_path_of out (s1 +:+ "." +:+ e1) =
    ConvertScreenshots.output_path_of out (s2 +:+ "." +:+ e2) <->
  s1 = s2.
Proof.
  intros H1 H2. rewrite !output_path_of_eq.
  rewrite (rsplit_dot_head_app s1 e1 H1), (rsplit_dot_head_app s2 e2 H2). split.
  - intros H.
    apply String.app_inj in H. apply String.app_inj in H.
    apply str_app_inv_tail in H. exact H.
  - intros ->. reflexivity.
Qed.

Lemma outputs_collide_iff_same_stem_witness :
  (rfind_dot "png" = None /\ rfind_dot "jpg" = None) /\
  (ConvertScreenshots.output_path_of "out" ("a" +:+ "." +:+ "png") =
     ConvertScreenshots.output_path_of "out" ("a" +:+ "." +:+ "jpg") <->
   "a"%string = "a"%string).
Proof.
  assert (H : rfind_dot "png" = None /\ rfind_dot "jpg" = None) by (split; reflexivity).
  split; [exact H|]. destruct H as (H1 & H2).
  exact (outputs_collide_iff_same_stem "out" "a" "png" "a" "jpg" H1 H2).
Defined.

(** X3.  Whatever the folders hold, after the batch a path holds what it
    held before, unless it is the output path of an image name of the
    listing; then it holds an RGB image of 1920 by 1080 pixels. *)
Theorem batch_touches_only_outputs (K : kernels) (input_folder output_folder : string)
    (w : world) (p : string) :
  files (snd (ConvertScreenshots.process_screenshots K input_folder output_folder w)) !! p =
    files w !! p \/
  exists names f c,
    dirs w !! input_folder = Some names /\ In f names /\
    ConvertScreenshots.is_image_name f = true /\
    p = ConvertScreenshots.output_path_of output_folder f /\
    files (snd (ConvertScreenshots.process_screenshots K input_folder output_folder w)) !! p =
      Some (ImageFile c) /\
    size c = (1920, 1080) /\ mode c = "RGB"%string.
Proof.
  unfold ConvertScreenshots.process_screenshots, mbind, M_bind.
  destruct (mkdir_spec output_folder w)
    as [(e & Hm & _) | (w1 & Hm & Hf1 & _ & _ & _ & Hnew)]; rewrite Hm.
  { left. reflexivity. }
  unfold listdir.
  destruct (dirs w1 !! input_folder) as [names1|] eqn:Hd.
  2:{ left. destruct (files w1 !! input_folder); cbn [snd]; rewrite Hf1; reflexivity. }
  destruct (for_each_total K input_folder output_folder names1 w1)
    as (w' & lines & Hrun & _).
  rewrite Hrun. cbn [snd].
  destruct (for_each_frame K input_folder output_folder names1 w1 w' Hrun p)
    as [Hp | (f & c & Hf & Hi & Hmade & Hpf & Hc & Hs & Hmo)].
  - left. rewrite Hp, Hf1. reflexivity.
  - destruct (Hnew input_folder names1 Hd f Hf) as [(names & Hold & Hin) | Hm'];
      [|contradiction].
    right. exists names, f, c. auto 10.
Qed.



(** * Further properties of the conversions *)

(** X5.  Either conversion is all or nothing, whatever the paths, the
    target size and the files are: when it raises, no file is written and
    nothing is printed; when it returns, the only file that changes is the
    output path, which holds an RGB image of exactly the target size, and
    the feature-graphic script prints the one line that reports that size
    while the tablet script prints nothing. *)
Theorem conversion_is_all_or_nothing (K : kernels) (input_path output_path : string)
    (tw th : Z) (w : world) :
  ((exists e,
      ConvertFeatureGraphic.convert_feature_graphic K input_path output_path tw th w =
        (Raise e, w)) \/
   (exists w' out,
      ConvertFeatureGraphic.convert_feature_graphic K input_path output_path tw th w =
        (Ok tt, w') /\
      files w' = <[output_path := ImageFile out]> (files w) /\
      stdout w' = stdout w ++ ["Converted image size: " +:+ repr_size (tw, th)] /\
      size out = (tw, th) /\ mode out = "RGB"%string)) /\
  ((exists e,
      ConvertScreenshots.create_tablet_screenshot K input_path output_path tw th w =
        (Raise e, w)) \/
   (exists w' out,
      ConvertScreenshots.create_tablet_screenshot K input_path output_path tw th w =
        (Ok tt, w') /\
      files w' = <[output_path := ImageFile out]> (files w) /\
      stdout w' = stdout w /\
      size out = (tw, th) /\ mode out = "RGB"%string)).
Proof.
  split.
  - destruct (feature_run_cases K input_path output_path tw th w)
      as [(e & H) | (out & H & _ & Hs & Hm)].
    + left. eauto.
    + right. eexists _, out. split; [exact H|]. cbn [files stdout]. auto.
  - destruct (tablet_run_cases K input_path output_path tw th w)
      as [(e & H) | (out & H & _ & Hs & Hm)].
    + left. eauto.
    + right. eexists _, out. split; [exact H|]. cbn [files stdout]. auto.
Qed.



(** X7.  For sources and canvases whose sides are positive and below 2^25
    pixels, both scripts keep the proportions of the source up to the
    truncation of each side: the scaled width over the source width is at
    most the scaled height plus one over the source height, and the same
    with width and height exchanged. *)
Theorem scaled_size_keeps_proportions (w h tw th : Z) :
  0 < w < 2 ^ 25 -> 0 < h < 2 ^ 25 -> 0 < tw < 2 ^ 25 -> 0 < th < 2 ^ 25 ->
  (exists scale new_width new_height,
     ConvertFeatureGraphic.scaled_size w h tw th = Ok (scale, new_width, new_height) /\
     new_width * h <= (new_height + 1) * w /\
     new_height * w <= (new_width + 1) * h) /\
  (exists scale new_width new_height,
     ConvertScreenshots.scaled_size w h tw th = Ok (scale, new_width, new_height) /\
     new_width * h <= (new_height + 1) * w /\
     new_height * w <= (new_width + 1) * h).
Proof.
  intros Hw Hh Htw Hth.
  assert (D : forall n, 0 < n < 2 ^ 25 -> dim_ok n).
  { intros n Hn. unfold dim_ok. change (2 ^ 31) with (2 ^ 25 * 64). lia. }
  split.
  - destruct (feature_axis tw w (D tw Htw) (D w Hw)) as (a & Ha & Hfa).
    destruct (feature_axis th h (D th Hth) (D h Hh)) as (b & Hb & Hfb).
    destruct (scaled_by_proportions 1 1 1 1 w h tw th a b)
      as (nw & nh & Hs & R1 & R2); try assumption; try lia.
    exists (min a b), nw, nh.
    rewrite (feature_scaled_size_eq w h tw th a b Ha Hb). auto.
  - destruct (fill_axis lit_0_8 4 5 tw w normal_lit_0_8 ltac:(lia) ltac:(lia)
                lit_0_8_fill (D tw Htw) (D w Hw)) as (a & Ha & Hfa).
    destruct (fill_axis lit_0_9 9 10 th h normal_lit_0_9 ltac:(lia) ltac:(lia)
                lit_0_9_fill (D th Hth) (D h Hh)) as (b & Hb & Hfb).
    destruct (scaled_by_proportions 4 5 9 10 w h tw th a b)
      as (nw & nh & Hs & R1 & R2); try assumption; try lia.
    exists (min a b), nw, nh.
    rewrite (tablet_scaled_size_eq w h tw th a b Ha Hb). auto.
Qed.

Lemma scaled_size_keeps_proportions_witness :
  (0 < 1080 < 2 ^ 25 /\ 0 < 2400 < 2 ^ 25 /\ 0 < 1920 < 2 ^ 25 /\ 0 < 1080 < 2 ^ 25) /\
  (exists scale new_width new_height,
     ConvertFeatureGraphic.scaled_size 1080 2400 1920 1080 =
       Ok (scale, new_width, new_height) /\
     new_width * 2400 <= (new_height + 1) * 1080 /\
     new_height * 1080 <= (new_width + 1) * 2400) /\
  (exists scale new_width new_height,
     ConvertScreenshots.scaled_size 1080 2400 1920 1080 =
       Ok (scale, new_width, new_height) /\
     new_width * 2400 <= (new_height + 1) * 1080 /\
     new_height * 1080 <= (new_width + 1) * 2400).
Proof.
  assert (H : 0 < 1080 < 2 ^ 25 /\ 0 < 2400 < 2 ^ 25 /\ 0 < 1920 < 2 ^ 25 /\
              0 < 1080 < 2 ^ 25) by lia.
  split; [exact H|]. destruct H as (H1 & H2 & H3 & H4).
  exact (scaled_size_keeps_proportions 1080 2400 1920 1080 H1 H2 H3 H4).
Defined.

(** X8.  The borders around the scaled image, for every source and canvas
    with positive sides.  In the feature-graphic script the image fills one
    axis of the canvas up to one pixel and starts at offset 0 on that axis:
    at the left edge when the width is the limiting side, at the top edge
    when the height is.  The other axis may have bars on both sides, and
    the far side of the filled axis may keep one row or column of
    background.  In the tablet script the image keeps a border of at least
    a tenth of the canvas width on its left and on its right, and of at
    least a twentieth of the canvas height above and below it, up to the
    rounding of the offsets; on the default canvas of 1920 by 1080 these
    borders are at least 192 and 54 pixels. *)
Theorem borders_of_each_script (w h tw th : Z) :
  dim_ok w -> dim_ok h -> dim_ok tw -> dim_ok th ->
  (exists scale new_width new_height x y,
     ConvertFeatureGraphic.scaled_size w h tw th = Ok (scale, new_width, new_height) /\
     ConvertFeatureGraphic.position tw th new_width new_height = (x, y) /\
     0 <= x /\ x + new_width <= tw /\ 0 <= y /\ y + new_height <= th /\
     (x = 0 /\ tw - 1 <= new_width \/ y = 0 /\ th - 1 <= new_height)) /\
  (exists scale new_width new_height x y,
     ConvertScreenshots.scaled_size w h tw th = Ok (scale, new_width, new_height) /\
     ConvertScreenshots.position tw th new_width new_height = (x, y) /\
     tw - 5 <= 10 * x /\ tw <= 10 * (tw - (x + new_width)) /\
     th - 10 <= 20 * y /\ th <= 20 * (th - (y + new_height)) /\
     (tw = 1920 -> th = 1080 ->
      192 <= x /\ x + new_width <= 1920 - 192 /\
      54 <= y /\ y + new_height <= 1080 - 54)).
Proof.
  intros Hw Hh Htw Hth. split.
  - destruct (feature_scaled_size_bounds w h tw th Hw Hh Htw Hth)
      as (s & nw & nh & Hs & B1 & B2 & B3 & _).
    exists s, nw, nh, ((tw - nw) / 2), ((th - nh) / 2).
    split; [exact Hs|]. split; [reflexivity|].
    pose proof (Z.div_mod (tw - nw) 2 ltac:(lia)).
    pose proof (Z.mod_pos_bound (tw - nw) 2 ltac:(lia)).
    pose proof (Z.div_mod (th - nh) 2 ltac:(lia)).
    pose proof (Z.mod_pos_bound (th - nh) 2 ltac:(lia)).
    repeat split; lia.
  - destruct (tablet_scaled_size_bounds w h tw th Hw Hh Htw Hth)
      as (s & nw & nh & Hs & B1 & B2 & _).
    exists s, nw, nh, ((tw - nw) / 2), ((th - nh) / 2).
    split; [exact Hs|]. split; [reflexivity|].
    pose proof (Z.div_mod (tw - nw) 2 ltac:(lia)).
    pose proof (Z.mod_pos_bound (tw - nw) 2 ltac:(lia)).
    pose proof (Z.div_mod (th - nh) 2 ltac:(lia)).
    pose proof (Z.mod_pos_bound (th - nh) 2 ltac:(lia)).
    repeat split; lia.
Qed.

Lemma borders_of_each_script_witness :
  (dim_ok 19 /\ dim_ok 19 /\ dim_ok 1024 /\ dim_ok 500) /\
  (exists scale new_width new_height x y,
     ConvertFeatureGraphic.scaled_size 19 19 1024 500 =
       Ok (scale, new_width, new_height) /\
     ConvertFeatureGraphic.position 1024 500 new_width new_height = (x, y) /\
     0 <= x /\ x + new_width <= 1024 /\ 0 <= y /\ y + new_height <= 500 /\
     (x = 0 /\ 1024 - 1 <= new_width \/ y = 0 /\ 500 - 1 <= new_height)) /\
  (exists scale new_width new_height x y,
     ConvertScreenshots.scaled_size 19 19 1024 500 =
       Ok (scale, new_width, new_height) /\
     ConvertScreenshots.position 1024 500 new_width new_height = (x, y) /\
     1024 - 5 <= 10 * x /\ 1024 <= 10 * (1024 - (x + new_width)) /\
     500 - 10 <= 20 * y /\ 500 <= 20 * (500 - (y + new_height)) /\
     (1024 = 1920 -> 500 = 1080 ->
      192 <= x /\ x + new_width <= 1920 - 192 /\
      54 <= y /\ y + new_height <= 1080 - 54)).
Proof.
  assert (H : dim_ok 19 /\ dim_ok 19 /\ dim_ok 1024 /\ dim_ok 500)
    by (unfold dim_ok; lia).
  split; [exact H|]. destruct H as (H1 & H2 & H3 & H4).
  exact (borders_of_each_script 19 19 1024 500 H1 H2 H3 H4).
Defined.

(** The source of 19 by 19 pixels on the 1024 by 500 canvas: the scaled
    image is 499 by 499 at (262, 0), with bars on its left and on its right
    and one row of background below it. *)
Example square_on_feature_canvas :
  exists scale,
    ConvertFeatureGraphic.scaled_size 19 19 1024 500 = Ok (scale, 499, 499) /\
    ConvertFeatureGraphic.position 1024 500 499 499 = (262, 0).
Proof. eexists. split; vm_compute; reflexivity. Qed.

(** X9.  The feature-graphic script on its own output, for a canvas that
    the library accepts: when a first run has returned and the second
    output path lies in a directory that exists, a second run that reads
    the saved file returns too, and the image it saves has the size and, at
    every pixel of the canvas, the pixel of the first one. *)
Theorem second_pass_changes_nothing (K : kernels) (input_path first second : string)
    (tw th : Z) (w w1 : world) :
  canvas_ok tw th ->
  ConvertFeatureGraphic.convert_feature_graphic K input_path first tw th w = (Ok tt, w1) ->
  can_save w1 second ->
  exists w2 out1 out2,
    files w1 !! first = Some (ImageFile out1) /\
    ConvertFeatureGraphic.convert_feature_graphic K first second tw th w1 = (Ok tt, w2) /\
    files w2 !! second = Some (ImageFile out2) /\
    size out2 = size out1 /\
    forall x y, 0 <= x < tw -> 0 <= y < th -> getpixel out2 x y = getpixel out1 x y.
Proof.
  intros Hcan Hrun Hsave.
  destruct (canvas_ok_dim tw th Hcan) as (Htw & Hth & Hmax).
  destruct (feature_run_cases K input_path first tw th w)
    as [(e & H) | (out1 & H & _ & Hs1 & Hm1)]; rewrite H in Hrun; [discriminate Hrun|].
  injection Hrun as <-.
  match goal with |- context [files ?W !! first] =>
    assert (Hf : files W !! first = Some (ImageFile out1))
      by (cbn [files]; apply lookup_insert_eq)
  end.
  destruct (feature_canvas_same_size K out1 tw th Hs1 Htw Hth)
    as (out2 & Hc & Hs2 & _ & Hpix).
  rewrite (convert_feature_graphic_run K first second tw th _ out1 Hf
             (canvas_ok_source out1 tw th Hs1 Hcan) Hmax Hsave), Hc.
  eexists _, out1, out2. split; [exact Hf|]. split; [reflexivity|].
  split; [cbn [files]; apply lookup_insert_eq|].
  split; [congruence|].
  intros x y Hx Hy. rewrite (Hpix x y Hx Hy).
  unfold as_rgb. rewrite Hm1. reflexivity.
Qed.

Lemma second_pass_changes_nothing_witness :
  (canvas_ok 1024 500 /\
   ConvertFeatureGraphic.convert_feature_graphic sample_kernels "in.png" "out.png"
     1024 500 (world_with landscape) =
   (Ok tt,
    snd (ConvertFeatureGraphic.convert_feature_graphic sample_kernels "in.png" "out.png"
           1024 500 (world_with landscape))) /\
   can_save
     (snd (ConvertFeatureGraphic.convert_feature_graphic sample_kernels "in.png" "out.png"
             1024 500 (world_with landscape)))
     "again.png") /\
  exists w2 out1 out2,
    files (snd (ConvertFeatureGraphic.convert_feature_graphic sample_kernels
                  "in.png" "out.png" 1024 500 (world_with landscape)))
      !! "out.png"%string = Some (ImageFile out1) /\
    ConvertFeatureGraphic.convert_feature_graphic sample_kernels "out.png" "again.png"
      1024 500
      (snd (ConvertFeatureGraphic.convert_feature_graphic sample_kernels
              "in.png" "out.png" 1024 500 (world_with landscape))) = (Ok tt, w2) /\
    files w2 !! "again.png"%string = Some (ImageFile out2) /\
    size out2 = size out1 /\
    forall x y, 0 <= x < 1024 -> 0 <= y < 500 -> getpixel out2 x y = getpixel out1 x y.
Proof.
  assert (H : canvas_ok 1024 500 /\
              ConvertFeatureGraphic.convert_feature_graphic sample_kernels
                "in.png" "out.png" 1024 500 (world_with landscape) =
              (Ok tt,
               snd (ConvertFeatureGraphic.convert_feature_graphic sample_kernels
                      "in.png" "out.png" 1024 500 (world_with landscape))) /\
              can_save
                (snd (ConvertFeatureGraphic.convert_feature_graphic sample_kernels
                        "in.png" "out.png" 1024 500 (world_with landscape)))
                "again.png").
  { split; [unfold canvas_ok, max_pixels; lia|].
    split; [vm_compute; reflexivity|]. split; vm_compute; reflexivity. }
  split; [exact H|]. destruct H as (H1 & H2 & H3).
  exact (second_pass_changes_nothing sample_kernels "in.png" "out.png" "again.png"
           1024 500 (world_with landscape) _ H1 H2 H3).
Defined.


(** * Facts about the [__main__] block of the feature graphic *)

Module MainFacts.
Import RunFacts DirFacts.

(** The world once the header is printed. *)
Lemma feature_main_after (K : kernels) (input_path : string) (w : world) :
  (forall e,
     ConvertFeatureGraphic.convert_feature_graphic K input_path
       (path_join (dirname input_path) "feature_graphic_1024x500.png") 1024 500
       {| files := files w; dirs := dirs w;
          stdout := stdout w ++ feature_header input_path |} =
     (Raise e,
      {| files := files w; dirs := dirs w;
         stdout := stdout w ++ feature_header input_path |}) ->
     FeatureGraphicMain.main_body K input_path w =
     (Ok tt,
      {| files := files w; dirs := dirs w;
         stdout := stdout w ++ feature_header input_path ++ feature_failure e |})) /\
  (forall out ds,
     ConvertFeatureGraphic.convert_feature_graphic K input_path
       (path_join (dirname input_path) "feature_graphic_1024x500.png") 1024 500
       {| files := files w; dirs := dirs w;
          stdout := stdout w ++ feature_header input_path |} =
     (Ok tt,
      {| files := <[path_join (dirname input_path) "feature_graphic_1024x500.png" :=
                      ImageFile out]> (files w);
         dirs := ds;
         stdout := (stdout w ++ feature_header input_path) ++
                   ["Converted image size: " +:+ repr_size (1024, 500)] |}) ->
     size out = (1024, 500) ->
     FeatureGraphicMain.main_body K input_path w =
     (Ok tt,
      {| files := <[path_join (dirname input_path) "feature_graphic_1024x500.png" :=
                      ImageFile out]> (files w);
         dirs := ds;
         stdout := stdout w ++ feature_header input_path ++
                   feature_report
                     (path_join (dirname input_path) "feature_graphic_1024x500.png") |})).
Proof.
  unfold FeatureGraphicMain.main_body.
  rewrite (basename_join (dirname input_path) "feature_graphic_1024x500.png")
    by reflexivity.
  change ("2. Output will be saved as: " +:+ "feature_graphic_1024x500.png")%string
    with "2. Output will be saved as: feature_graphic_1024x500.png"%string.
  set (output := path_join (dirname input_path) "feature_graphic_1024x500.png").
  unfold mbind, M_bind, print, try_except. cbn [files dirs stdout].
  unfold feature_header. rewrite <- !app_assoc. cbn [app].
  split.
  - intros e H. rewrite H. cbn [files dirs stdout].
    unfold feature_failure. rewrite <- !app_assoc. reflexivity.
  - intros out ds H Hs. rewrite H. cbv beta iota.
    unfold Image_open. cbn [files dirs stdout].
    rewrite lookup_insert_eq, Hs. cbv beta iota.
    change ((1024 <? 1) || (500 <? 1)) with false.
    change (max_pixels <? 1024 * 500) with false. cbv beta iota.
    rewrite Hs. cbv beta iota.
    change ((1024 =? 1024) && (500 =? 500)) with true. cbv beta iota.
    cbn [files dirs stdout].
    unfold feature_report. rewrite <- !app_assoc. reflexivity.
Qed.

Lemma warning_not_in_header (input_path : string) :
  ~ In FeatureGraphicMain.warning_line (feature_header input_path).
Proof.
  unfold feature_header. cbn [In].
  intros [E | [E | [E | [E | [E | []]]]]]; vm_compute in E; discriminate E.
Qed.

Lemma warning_not_in_report (output_path : string) :
  ~ In FeatureGraphicMain.warning_line (feature_report output_path).
Proof.
  unfold feature_report. cbn [In].
  intros [E | [E | [E | [E | [E | [E | [E | []]]]]]]]; vm_compute in E; discriminate E.
Qed.

Lemma warning_not_in_failure (e : exn) :
  ~ In FeatureGraphicMain.warning_line (feature_failure e).
Proof.
  unfold feature_failure. cbn [In].
  intros [E | []]; vm_compute in E; discriminate E.
Qed.

End MainFacts.

Import MainFacts.

(** * Further properties of the [__main__] block of the feature graphic *)

(** X10.  The [__main__] block of the feature-graphic script never raises
    and never prints its warning line, whatever the path and the files are:
    after the five header lines it either prints the error line of the
    exception and writes no file, or it saves an image of 1024 by 500
    pixels at [feature_graphic_1024x500.png] in the directory of the input
    and prints that its dimensions are 1024x500 and meet the
    requirements. *)
Theorem feature_main_never_warns (K : kernels) (input_path : string) (w : world) :
  exists w' tail,
    FeatureGraphicMain.main_body K input_path w = (Ok tt, w') /\
    stdout w' = stdout w ++ feature_header input_path ++ tail /\
    ~ In FeatureGraphicMain.warning_line (feature_header input_path ++ tail) /\
    ((exists e, tail = feature_failure e /\ files w' = files w) \/
     (exists out,
        tail = feature_report
                 (path_join (dirname input_path) "feature_graphic_1024x500.png") /\
        files w' =
          <[path_join (dirname input_path) "feature_graphic_1024x500.png" :=
              ImageFile out]> (files w) /\
        size out = (1024, 500))).
Proof.
  destruct (feature_main_after K input_path w) as [Hfail Hok].
  destruct (feature_run_cases K input_path
              (path_join (dirname input_path) "feature_graphic_1024x500.png") 1024 500
              {| files := files w; dirs := dirs w;
                 stdout := stdout w ++ feature_header input_path |})
    as [(e & H) | (out & H & _ & Hs & _)].
  - rewrite (Hfail e H). eexists _, (feature_failure e).
    split; [reflexivity|]. split; [reflexivity|]. split.
    + intros Hin. apply in_app_or in Hin as [Hin | Hin].
      * exact (warning_not_in_header _ Hin).
      * exact (warning_not_in_failure _ Hin).
    + left. exists e. split; reflexivity.
  - rewrite (Hok out _ H Hs). eexists _, (feature_report _).
    split; [reflexivity|]. split; [reflexivity|]. split.
    + intros Hin. apply in_app_or in Hin as [Hin | Hin].
      * exact (warning_not_in_header _ Hin).
      * exact (warning_not_in_report _ Hin).
    + right. exists out. split; [reflexivity|]. split; [reflexivity | exact Hs].
Qed.



(** The block on a picture that fits: the file is saved next to the input
    and the report ends with the line of success. *)
Example feature_main_on_landscape :
  exists w',
    FeatureGraphicMain.main_body sample_kernels "in.png" (world_with landscape) =
      (Ok tt, w') /\
    stdout w' =
      feature_header "in.png" ++ feature_report "feature_graphic_1024x500.png" /\
    exists out,
      files w' !! "feature_graphic_1024x500.png"%string = Some (ImageFile out) /\
      size out = (1024, 500).
Proof.
  eexists. split; [vm_compute; reflexivity|]. split; [vm_compute; reflexivity|].
  eexists. split; [vm_compute; reflexivity | reflexivity].
Qed.


(** * Facts about the side that limits the scale *)

Module LimitFacts.

(** One axis when the scale is the quotient of the other axis: [B] is that
    quotient, [X'] its numerator, and the other axis asks for at least as
    much as this one. *)
Lemma axis_ge_other (U s t p q s' t' p' q' B X' P : Z) :
  0 < U -> 0 < s < 2 ^ 31 -> 0 < t < 2 ^ 31 -> 0 < p <= 9 -> 0 < q <= 10 ->
  0 < s' < 2 ^ 31 -> 0 < q' <= 10 ->
  2 ^ 53 * Z.abs (B * s' - X') <= X' ->
  (2 ^ 51 - 1) * (p' * t' * U) <= q' * X' * 2 ^ 51 ->
  2 ^ 53 * Z.abs (P - s * B) <= s * B ->
  p * t * (q' * s') <= p' * t' * (q * s) ->
  p * t - q <= q * (P / U).
Proof.
  intros HU Hs Ht Hp Hq Hs' Hq' HB HX HP Hc.
  assert (A1 : (2 ^ 53 - 1) * (q' * X') <= 2 ^ 53 * (q' * (B * s'))) by nia.
  assert (A3 : (2 ^ 53 - 1) * (2 ^ 51 - 1) * (p' * t' * U) <=
               2 ^ 104 * (q' * (B * s'))) by lia.
  assert (M : 0 < q * s) by nia.
  assert (A4 : (2 ^ 53 - 1) * (2 ^ 51 - 1) * (p' * t' * U * (q * s)) <=
               2 ^ 104 * (q' * (B * s') * (q * s))).
  { apply (Z.mul_le_mono_nonneg_r _ _ (q * s)) in A3; [|lia].
    replace ((2 ^ 53 - 1) * (2 ^ 51 - 1) * (p' * t' * U * (q * s)))
      with ((2 ^ 53 - 1) * (2 ^ 51 - 1) * (p' * t' * U) * (q * s)) by ring.
    replace (2 ^ 104 * (q' * (B * s') * (q * s)))
      with (2 ^ 104 * (q' * (B * s')) * (q * s)) by ring.
    exact A3. }
  assert (Hc' : p * t * (q' * s') * U <= p' * t' * (q * s) * U)
    by (apply Z.mul_le_mono_nonneg_r; lia).
  assert (A5 : (2 ^ 53 - 1) * (2 ^ 51 - 1) * (p * t * U) <= 2 ^ 104 * (q * (s * B))).
  { apply (Z.mul_le_mono_pos_r _ _ (q' * s')); [nia|].
    replace ((2 ^ 53 - 1) * (2 ^ 51 - 1) * (p * t * U) * (q' * s'))
      with ((2 ^ 53 - 1) * (2 ^ 51 - 1) * (p * t * (q' * s') * U)) by ring.
    replace (2 ^ 104 * (q * (s * B)) * (q' * s'))
      with (2 ^ 104 * (q' * (B * s') * (q * s))) by ring.
    replace (p' * t' * U * (q * s)) with (p' * t' * (q * s) * U) in A4 by ring.
    lia. }
  assert (A6 : (2 ^ 53 - 1) * (q * (s * B)) <= 2 ^ 53 * (q * P)) by nia.
  assert (H4 : p * t < 2 ^ 35) by (change (2 ^ 35) with (16 * 2 ^ 31); nia).
  assert (H5 : p * t * U < 2 ^ 35 * U) by nia.
  assert (H0 : 0 < p * t * U) by nia.
  assert (H6 : (p * t - 1) * U < q * P) by lia.
  pose proof (Z.mod_pos_bound P U HU) as H7.
  pose proof (Z.div_mod P U ltac:(lia)) as H8.
  assert (H9 : (p * t - 1) * U < (q * (P / U) + q) * U) by nia.
  apply Z.mul_lt_mono_pos_r in H9; lia.
Qed.

(** Lines 22 to 24, for any fill fractions: the side whose quotient is the
    smaller one is filled up to one pixel, whichever quotient the minimum
    of the floats picks. *)
Lemma scaled_by_limiting (pw qw ph qh w h tw th : Z) (a b : spec_float) :
  0 < pw <= 9 -> 0 < qw <= 10 -> 0 < ph <= 9 -> 0 < qh <= 10 ->
  dim_ok w -> dim_ok h -> dim_ok tw -> dim_ok th ->
  axis_facts pw qw tw w a -> axis_facts ph qh th h b ->
  exists nw nh,
    scaled_by (min a b) w h = Ok (min a b, nw, nh) /\
    qw * nw <= pw * tw /\ qh * nh <= ph * th /\
    (pw * tw * (qh * h) <= ph * th * (qw * w) -> pw * tw - qw <= qw * nw) /\
    (ph * th * (qw * w) <= pw * tw * (qh * h) -> ph * th - qh <= qh * nh).
Proof.
  intros Hpw Hqw Hph Hqh Hw Hh Htw Hth Ha Hb.
  destruct (scaled_by_bounds pw qw ph qh w h tw th a b)
    as (nw & nh & Hs & Bw & Bh & _); auto.
  exists nw, nh. split; [exact Hs|]. split; [exact Bw|]. split; [exact Bh|].
  destruct Ha as (ea & Xa & Hna & Hea & Herra & Hloa & _).
  destruct Hb as (eb & Xb & Hnb & Heb & Herrb & Hlob & _).
  destruct (min_spec a b ea eb Hna Hnb ltac:(lia) ltac:(lia)) as [Hsel _].
  assert (Hsc : exists e, normal (min a b) e /\ -200 <= e <= 200).
  { destruct Hsel as [-> | ->]; eauto. }
  destruct Hsc as (e & Hn & He).
  destruct (int_mul_spec w (min a b) e (dim_ok_53 w Hw) Hn He) as (Pw & HPw & Herrw).
  destruct (int_mul_spec h (min a b) e (dim_ok_53 h Hh) Hn He) as (Ph & HPh & Herrh).
  unfold scaled_by in Hs. rewrite HPw in Hs. cbn [mbind result_bind] in Hs.
  rewrite HPh in Hs. cbn [mbind result_bind mret result_ret] in Hs.
  injection Hs as <- <-.
  pose proof unit_pos as HU. unfold dim_ok in *.
  split; intros Hc.
  - destruct Hsel as [Hsel | Hsel]; rewrite Hsel in Herrw.
    + apply (axis_ge unit_ w tw pw qw (num a) (num a) Xa Pw); auto.
    + apply (axis_ge_other unit_ w tw pw qw h th ph qh (num b) Xb Pw); auto.
  - destruct Hsel as [Hsel | Hsel]; rewrite Hsel in Herrh.
    + apply (axis_ge_other unit_ h th ph qh w tw pw qw (num a) Xa Ph); auto.
    + apply (axis_ge unit_ h th ph qh (num b) (num b) Xb Ph); auto.
Qed.

End LimitFacts.

Import LimitFacts.

(** * Further properties of the scaled size *)

(** X12.  The side that limits the scale is filled, for every source and
    canvas with positive sides.  In the feature-graphic script a source
    that is at least as wide as the canvas, in proportion, gets the canvas
    width up to one pixel, and one that is at least as tall gets the canvas
    height up to one pixel.  In the tablet script the same holds for the
    box of 4/5 of the width and 9/10 of the height. *)
Theorem limiting_side_is_filled (w h tw th : Z) :
  dim_ok w -> dim_ok h -> dim_ok tw -> dim_ok th ->
  (exists scale new_width new_height,
     ConvertFeatureGraphic.scaled_size w h tw th = Ok (scale, new_width, new_height) /\
     (tw * h <= th * w -> tw - 1 <= new_width <= tw) /\
     (th * w <= tw * h -> th - 1 <= new_height <= th)) /\
  (exists scale new_width new_height,
     ConvertScreenshots.scaled_size w h tw th = Ok (scale, new_width, new_height) /\
     (8 * tw * h <= 9 * th * w -> 4 * tw - 5 <= 5 * new_width <= 4 * tw) /\
     (9 * th * w <= 8 * tw * h -> 9 * th - 10 <= 10 * new_height <= 9 * th)).
Proof.
  intros Hw Hh Htw Hth. split.
  - destruct (feature_axis tw w Htw Hw) as (a & Ha & Hfa).
    destruct (feature_axis th h Hth Hh) as (b & Hb & Hfb).
    destruct (scaled_by_limiting 1 1 1 1 w h tw th a b)
      as (nw & nh & Hs & B1 & B2 & L1 & L2); try assumption; try lia.
    exists (min a b), nw, nh.
    rewrite (feature_scaled_size_eq w h tw th a b Ha Hb).
    split; [exact Hs|]. split; intros Hc; [specialize (L1 ltac:(lia)) | specialize (L2 ltac:(lia))]; lia.
  - destruct (fill_axis lit_0_8 4 5 tw w normal_lit_0_8 ltac:(lia) ltac:(lia)
                lit_0_8_fill Htw Hw) as (a & Ha & Hfa).
    destruct (fill_axis lit_0_9 9 10 th h normal_lit_0_9 ltac:(lia) ltac:(lia)
                lit_0_9_fill Hth Hh) as (b & Hb & Hfb).
    destruct (scaled_by_limiting 4 5 9 10 w h tw th a b)
      as (nw & nh & Hs & B1 & B2 & L1 & L2); try assumption; try lia.
    exists (min a b), nw, nh.
    rewrite (tablet_scaled_size_eq w h tw th a b Ha Hb).
    split; [exact Hs|]. split; intros Hc; [specialize (L1 ltac:(lia)) | specialize (L2 ltac:(lia))]; lia.
Qed.

Lemma limiting_side_is_filled_witness :
  (dim_ok 1080 /\ dim_ok 2400 /\ dim_ok 1920 /\ dim_ok 1080) /\
  (exists scale new_width new_height,
     ConvertFeatureGraphic.scaled_size 1080 2400 1920 1080 =
       Ok (scale, new_width, new_height) /\
     (1920 * 2400 <= 1080 * 1080 -> 1920 - 1 <= new_width <= 1920) /\
     (1080 * 1080 <= 1920 * 2400 -> 1080 - 1 <= new_height <= 1080)) /\
  (exists scale new_width new_height,
     ConvertScreenshots.scaled_size 1080 2400 1920 1080 =
       Ok (scale, new_width, new_height) /\
     (8 * 1920 * 2400 <= 9 * 1080 * 1080 -> 4 * 1920 - 5 <= 5 * new_width <= 4 * 1920) /\
     (9 * 1080 * 1080 <= 8 * 1920 * 2400 ->
      9 * 1080 - 10 <= 10 * new_height <= 9 * 1080)).
Proof.
  assert (H : dim_ok 1080 /\ dim_ok 2400 /\ dim_ok 1920 /\ dim_ok 1080)
    by (unfold dim_ok; lia).
  split; [exact H|]. destruct H as (H1 & H2 & H3 & H4).
  exact (limiting_side_is_filled 1080 2400 1920 1080 H1 H2 H3 H4).
Defined.
